(** * ENST pipeline: window aggregation, work units, ENST, cost and policy

    A shallow embedding of the metric-derivation engine of the repository
    (src/enst_compute/index.js, src/cost/index.js and the ingestion and
    policy modules concatenated into them), with the properties the
    specification states about it.

    Numbers.  A JavaScript number is modelled by [num]: the three special
    values of IEEE 754 that the code can observe (NaN and the two
    infinities) and the finite values, which are kept as exact rationals in
    lowest terms.  Rounding and overflow of binary64 and the sign of zero
    are not modelled in the arithmetic: every finite result is the exact
    one.  Statements that the specification makes "up to floating-point
    rounding" are therefore statements about exact values here.  The other
    statements are about what rounding leaves alone: which case the code
    takes, counts, comparisons and orders (rounding is monotone), and
    results given by the code's own operations in the code's own order; none
    rests on an identity that rounding breaks, such as a reordered sum or a
    quotient multiplied back.  Where rounding decides a result, the
    functions concerned are evaluated once more over the binary64 numbers of
    the kernel ([Binary64]).

    Objects.  A telemetry record is a record of the properties the modelled
    functions read or write; a property that can be absent is [Undefined].
    Typed numeric properties (the fields of a TSV record, timestamps) are of
    type [field]: absent, [null] or a number.  Raw telemetry properties that
    the code converts itself with [Number(...)] or [isNaN(...)] (power and
    utilisation values) are of type [raw], which also has strings and
    booleans.  Site identifiers are strings.

    State.  An aggregator is its window size and its window map; a method
    that mutates the aggregator returns the new one.  The map keeps the
    insertion order of its keys, which is the order [emit()] follows.
    Generators over finite streams are functions on lists.  The leaderboard
    is its two options and its sites map; [getLeaderboard()] returns the
    entries and sorts the windows of every site in place, and the state it
    leaves is given by a function of its own. *)

From Stdlib Require Import QArith Qround Qabs Lqa ZArith List String Ascii Bool Lia.
From Stdlib Require Import Permutation Sorted.
From Stdlib Require PrimFloat.
Import ListNotations.

Set Implicit Arguments.

(** ** JavaScript numbers *)

Module JS.

Inductive num : Type :=
| NaN
| PInf
| NInf
| Fin (q : Q).

(** Every finite result is stored in lowest terms, so that two equal numbers
    are the same term. *)
Definition fin (q : Q) : num := Fin (Qred q).

Definition isNaN (a : num) : bool :=
  match a with NaN => true | _ => false end.

Definition isFinite (a : num) : bool :=
  match a with Fin _ => true | _ => false end.

Definition inf_of_sign (c : comparison) : num :=
  match c with Gt => PInf | Lt => NInf | Eq => NaN end.

Definition neg (a : num) : num :=
  match a with
  | NaN => NaN
  | PInf => NInf
  | NInf => PInf
  | Fin x => fin (- x)
  end.

Definition add (a b : num) : num :=
  match a, b with
  | NaN, _ | _, NaN => NaN
  | PInf, NInf | NInf, PInf => NaN
  | PInf, _ | _, PInf => PInf
  | NInf, _ | _, NInf => NInf
  | Fin x, Fin y => fin (x + y)
  end.

Definition sub (a b : num) : num :=
  match a, b with
  | NaN, _ | _, NaN => NaN
  | PInf, PInf | NInf, NInf => NaN
  | PInf, _ | _, NInf => PInf
  | NInf, _ | _, PInf => NInf
  | Fin x, Fin y => fin (x - y)
  end.

Definition mul (a b : num) : num :=
  match a, b with
  | NaN, _ | _, NaN => NaN
  | Fin x, Fin y => fin (x * y)
  | PInf, PInf | NInf, NInf => PInf
  | PInf, NInf | NInf, PInf => NInf
  | PInf, Fin x | Fin x, PInf => inf_of_sign (x ?= 0)
  | NInf, Fin x | Fin x, NInf => inf_of_sign (0 ?= x)
  end.

(** Division.  A zero divisor is the positive zero. *)
Definition div (a b : num) : num :=
  match a, b with
  | NaN, _ | _, NaN => NaN
  | PInf, PInf | PInf, NInf | NInf, PInf | NInf, NInf => NaN
  | PInf, Fin y => match y ?= 0 with Lt => NInf | _ => PInf end
  | NInf, Fin y => match y ?= 0 with Lt => PInf | _ => NInf end
  | Fin _, PInf | Fin _, NInf => fin 0
  | Fin x, Fin y =>
      match y ?= 0 with
      | Eq => inf_of_sign (x ?= 0)
      | _ => fin (x / y)
      end
  end.

(** Relational operators: every comparison with NaN is false. *)
Definition lt (a b : num) : bool :=
  match a, b with
  | NaN, _ | _, NaN => false
  | _, NInf | PInf, _ => false
  | NInf, _ | _, PInf => true
  | Fin x, Fin y => match x ?= y with Lt => true | _ => false end
  end.

Definition le (a b : num) : bool :=
  match a, b with
  | NaN, _ | _, NaN => false
  | NInf, _ | _, PInf => true
  | _, NInf | PInf, _ => false
  | Fin x, Fin y => match x ?= y with Gt => false | _ => true end
  end.

Definition gt (a b : num) : bool := lt b a.
Definition ge (a b : num) : bool := le b a.

(** [Math.floor], [Math.min], [Math.max]. *)
Definition floor (a : num) : num :=
  match a with
  | Fin x => Fin (inject_Z (Qfloor x))
  | _ => a
  end.

Definition min (a b : num) : num :=
  match a, b with
  | NaN, _ | _, NaN => NaN
  | _, _ => if lt b a then b else a
  end.

Definition max (a b : num) : num :=
  match a, b with
  | NaN, _ | _, NaN => NaN
  | _, _ => if lt a b then b else a
  end.

(** A number is falsy when it is zero or NaN. *)
Definition truthy_num (a : num) : bool :=
  match a with
  | NaN => false
  | Fin x => negb (Qeq_bool x 0)
  | _ => true
  end.

(** *** Typed numeric properties: absent, null, or a number *)

Inductive field : Type :=
| Undefined
| Null
| Num (n : num).

(** [x === null || x === undefined]. *)
Definition nullish (f : field) : bool :=
  match f with Num _ => false | _ => true end.

(** [x !== null] alone lets [undefined] through. *)
Definition is_null (f : field) : bool :=
  match f with Null => true | _ => false end.

Definition ToNumber (f : field) : num :=
  match f with
  | Undefined => NaN
  | Null => Fin 0
  | Num n => n
  end.

(** [x || d] where [d] is a number literal. *)
Definition or_num (f : field) (d : num) : num :=
  match f with
  | Num n => if truthy_num n then n else d
  | _ => d
  end.

(** [a || b] between two properties. *)
Definition or_field (a b : field) : field :=
  match a with
  | Num n => if truthy_num n then a else b
  | _ => b
  end.

(** [a ?? b]. *)
Definition coalesce (a b : field) : field :=
  if nullish a then b else a.

(** *** String to number ([Number(s)] on a string)

    The StringNumericLiteral grammar over strings as the bytes of their
    UTF-8 encoding: surrounding white space and line terminators, an
    optional sign, [Infinity], decimal literals with fraction and exponent,
    and the [0x], [0o], [0b] integer literals.  The empty (or blank) string
    is 0; anything else is NaN.  A literal whose value rounds to an infinity
    or to zero in binary64 is that infinity or zero; the value of any other
    literal is kept exactly. *)

(** TAB, LF, VT, FF, CR and the space. *)
Definition is_ws (c : ascii) : bool :=
  match nat_of_ascii c with
  | 9%nat | 10%nat | 11%nat | 12%nat | 13%nat | 32%nat => true
  | _ => false
  end.

(** U+00A0, the no-break space: C2 A0. *)
Definition is_ws2 (a b : ascii) : bool :=
  let x := Z.of_nat (nat_of_ascii a) in
  let y := Z.of_nat (nat_of_ascii b) in
  ((x =? 194) && (y =? 160))%Z.

(** The white space of three bytes: U+1680 (E1 9A 80), U+2000 to U+200A
    (E2 80 80 to E2 80 8A), the line and paragraph separators U+2028 and
    U+2029 (E2 80 A8, E2 80 A9), U+202F (E2 80 AF), U+205F (E2 81 9F),
    U+3000 (E3 80 80) and U+FEFF (EF BB BF). *)
Definition is_ws3 (a b c : ascii) : bool :=
  let x := Z.of_nat (nat_of_ascii a) in
  let y := Z.of_nat (nat_of_ascii b) in
  let z := Z.of_nat (nat_of_ascii c) in
  (((x =? 225) && (y =? 154) && (z =? 128))
   || ((x =? 226) && (y =? 128)
       && (((128 <=? z) && (z <=? 138)) || (z =? 168) || (z =? 169)
           || (z =? 175)))
   || ((x =? 226) && (y =? 129) && (z =? 159))
   || ((x =? 227) && (y =? 128) && (z =? 128))
   || ((x =? 239) && (y =? 187) && (z =? 191)))%Z.

(** Drops the white space at the front of the bytes; with [back], the
    bytes are those of the string from its end, each character's bytes in
    reverse. *)
Fixpoint drop_ws (back : bool) (cs : list ascii) : list ascii :=
  match cs with
  | a :: cs1 =>
      if is_ws a then drop_ws back cs1
      else
        match cs1 with
        | b :: cs2 =>
            if (if back then is_ws2 b a else is_ws2 a b) then drop_ws back cs2
            else
              match cs2 with
              | c :: cs3 =>
                  if (if back then is_ws3 c b a else is_ws3 a b c)
                  then drop_ws back cs3
                  else cs
              | [] => cs
              end
        | [] => cs
        end
  | [] => []
  end.

Definition trim (cs : list ascii) : list ascii :=
  rev (drop_ws true (rev (drop_ws false cs))).

(** The number of the exact value [q >= 0] of a literal: [Infinity] from
    [2^1024 - 2^970] on, halfway between the largest number and [2^1024];
    0 up to [2^-1075], half the smallest number above 0. *)
Definition of_literal (q : Q) : num :=
  if Qle_bool (inject_Z (2 ^ 1024 - 2 ^ 970)) q then PInf
  else if Qle_bool q (1 # 2 ^ 1075) then Fin 0
  else fin q.

Definition digit_val (c : ascii) : option Z :=
  let n := Z.of_nat (nat_of_ascii c) in
  if ((48 <=? n) && (n <=? 57))%Z then Some (n - 48)%Z
  else if ((97 <=? n) && (n <=? 102))%Z then Some (n - 87)%Z
  else if ((65 <=? n) && (n <=? 70))%Z then Some (n - 55)%Z
  else None.

(** Reads the longest prefix of digits of the base: its value, its length
    and the remaining characters. *)
Fixpoint read_digits (base : Z) (cs : list ascii) (acc : Z) (len : nat)
  : Z * nat * list ascii :=
  match cs with
  | c :: cs' =>
      match digit_val c with
      | Some d =>
          if (d <? base)%Z then read_digits base cs' (acc * base + d)%Z (S len)
          else (acc, len, cs)
      | None => (acc, len, cs)
      end
  | [] => (acc, len, cs)
  end.

Definition pow10 (e : Z) : Q :=
  if (0 <=? e)%Z then inject_Z (10 ^ e) else / inject_Z (10 ^ (- e)).

Definition list_of (s : string) : list ascii := list_ascii_of_string s.

(** The exponent part: [e] or [E], an optional sign, at least one digit;
    nothing may follow. *)
Definition read_exponent (cs : list ascii) : option Z :=
  match cs with
  | [] => Some 0%Z
  | c :: cs' =>
      if (Ascii.eqb c "e" || Ascii.eqb c "E")%bool then
        let '(sg, ds) :=
          match cs' with
          | s :: r =>
              if Ascii.eqb s "-" then ((-1)%Z, r)
              else if Ascii.eqb s "+" then (1%Z, r) else (1%Z, cs')
          | [] => (1%Z, cs')
          end in
        match read_digits 10 ds 0 0 with
        | (_, O, _) => None
        | (v, _, []) => Some (sg * v)%Z
        | _ => None
        end
      else None
  end.

Definition read_unsigned_decimal (cs : list ascii) : option num :=
  if list_eq_dec ascii_dec cs (list_of "Infinity") then Some PInf
  else
    let '(ip, ilen, r1) := read_digits 10 cs 0 0 in
    let '(fp, flen, r2) :=
      match r1 with
      | c :: r => if Ascii.eqb c "." then read_digits 10 r 0 0 else (0%Z, O, r1)
      | [] => (0%Z, O, r1)
      end in
    match ilen, flen with
    | O, O => None
    | _, _ =>
        match read_exponent r2 with
        | Some e =>
            Some (of_literal
                    ((inject_Z ip + inject_Z fp * pow10 (- Z.of_nat flen))
                     * pow10 e))
        | None => None
        end
    end.

Definition read_radix (base : Z) (cs : list ascii) : num :=
  match read_digits base cs 0 0 with
  | (_, O, _) => NaN
  | (v, _, []) => of_literal (inject_Z v)
  | _ => NaN
  end.

Definition StringToNumber (s : string) : num :=
  match trim (list_of s) with
  | [] => Fin 0
  | c :: cs =>
      let radix (d : ascii) :=
        if (Ascii.eqb d "x" || Ascii.eqb d "X")%bool then Some 16%Z
        else if (Ascii.eqb d "o" || Ascii.eqb d "O")%bool then Some 8%Z
        else if (Ascii.eqb d "b" || Ascii.eqb d "B")%bool then Some 2%Z
        else None in
      let decimal (sg : bool) (ds : list ascii) :=
        match read_unsigned_decimal ds with
        | Some n => if sg then neg n else n
        | None => NaN
        end in
      if Ascii.eqb c "-" then decimal true cs
      else if Ascii.eqb c "+" then decimal false cs
      else
        match cs with
        | d :: ds =>
            match (if Ascii.eqb c "0" then radix d else None) with
            | Some b => read_radix b ds
            | None => decimal false (c :: cs)
            end
        | [] => decimal false (c :: cs)
        end
  end.

(** *** Raw telemetry properties (parsed JSON) *)

Inductive raw : Type :=
| RUndefined
| RNull
| RNum (n : num)
| RStr (s : string)
| RBool (b : bool).

Definition raw_nullish (v : raw) : bool :=
  match v with RUndefined | RNull => true | _ => false end.

Definition raw_is_null (v : raw) : bool :=
  match v with RNull => true | _ => false end.

(** [a ?? b]. *)
Definition raw_coalesce (a b : raw) : raw :=
  if raw_nullish a then b else a.

(** [Number(v)]. *)
Definition Number (v : raw) : num :=
  match v with
  | RUndefined => NaN
  | RNull => Fin 0
  | RNum n => n
  | RStr s => StringToNumber s
  | RBool b => if b then Fin 1 else Fin 0
  end.

Definition raw_truthy (v : raw) : bool :=
  match v with
  | RUndefined | RNull => false
  | RNum n => truthy_num n
  | RStr s => negb (String.eqb s "")
  | RBool b => b
  end.

End JS.

Import JS.

(** ** The TSV record

    The properties of a temporal-state-vector record that the work-unit,
    ENST and policy functions read or write.  The spread copy
    [{ ...record }] of the source is the record itself: values are
    immutable here. *)

Record tsv : Type := {
  cpu_core_seconds : field;
  gpu_seconds : field;
  cpu_util : field;
  gpu_util : field;
  window_duration_s : field;
  validated_steps : field;
  timesteps : field;
  power_w : field;
  energy_j : field;
  thermal_headroom_w : field;
  grid_stress_index : field;
  work_units : field;
  work_units_mode : option string;
  validated_work_units : field;
  enst : field;
  _policy_throttled : bool;
  _throttle_factor : field;
  _migrate_flag : option bool
}.

Definition set_work_units (v : field) (r : tsv) : tsv :=
  {| cpu_core_seconds := cpu_core_seconds r; gpu_seconds := gpu_seconds r;
     cpu_util := cpu_util r; gpu_util := gpu_util r;
     window_duration_s := window_duration_s r;
     validated_steps := validated_steps r; timesteps := timesteps r;
     power_w := power_w r; energy_j := energy_j r;
     thermal_headroom_w := thermal_headroom_w r;
     grid_stress_index := grid_stress_index r;
     work_units := v; work_units_mode := work_units_mode r;
     validated_work_units := validated_work_units r; enst := enst r;
     _policy_throttled := _policy_throttled r;
     _throttle_factor := _throttle_factor r;
     _migrate_flag := _migrate_flag r |}.

Definition set_work_units_mode (m : option string) (r : tsv) : tsv :=
  {| cpu_core_seconds := cpu_core_seconds r; gpu_seconds := gpu_seconds r;
     cpu_util := cpu_util r; gpu_util := gpu_util r;
     window_duration_s := window_duration_s r;
     validated_steps := validated_steps r; timesteps := timesteps r;
     power_w := power_w r; energy_j := energy_j r;
     thermal_headroom_w := thermal_headroom_w r;
     grid_stress_index := grid_stress_index r;
     work_units := work_units r; work_units_mode := m;
     validated_work_units := validated_work_units r; enst := enst r;
     _policy_throttled := _policy_throttled r;
     _throttle_factor := _throttle_factor r;
     _migrate_flag := _migrate_flag r |}.

Definition set_validated_work_units (v : field) (r : tsv) : tsv :=
  {| cpu_core_seconds := cpu_core_seconds r; gpu_seconds := gpu_seconds r;
     cpu_util := cpu_util r; gpu_util := gpu_util r;
     window_duration_s := window_duration_s r;
     validated_steps := validated_steps r; timesteps := timesteps r;
     power_w := power_w r; energy_j := energy_j r;
     thermal_headroom_w := thermal_headroom_w r;
     grid_stress_index := grid_stress_index r;
     work_units := work_units r; work_units_mode := work_units_mode r;
     validated_work_units := v; enst := enst r;
     _policy_throttled := _policy_throttled r;
     _throttle_factor := _throttle_factor r;
     _migrate_flag := _migrate_flag r |}.

Definition set_enst (v : field) (r : tsv) : tsv :=
  {| cpu_core_seconds := cpu_core_seconds r; gpu_seconds := gpu_seconds r;
     cpu_util := cpu_util r; gpu_util := gpu_util r;
     window_duration_s := window_duration_s r;
     validated_steps := validated_steps r; timesteps := timesteps r;
     power_w := power_w r; energy_j := energy_j r;
     thermal_headroom_w := thermal_headroom_w r;
     grid_stress_index := grid_stress_index r;
     work_units := work_units r; work_units_mode := work_units_mode r;
     validated_work_units := validated_work_units r; enst := v;
     _policy_throttled := _policy_throttled r;
     _throttle_factor := _throttle_factor r;
     _migrate_flag := _migrate_flag r |}.

Definition set_cpu_core_seconds (v : field) (r : tsv) : tsv :=
  {| cpu_core_seconds := v; gpu_seconds := gpu_seconds r;
     cpu_util := cpu_util r; gpu_util := gpu_util r;
     window_duration_s := window_duration_s r;
     validated_steps := validated_steps r; timesteps := timesteps r;
     power_w := power_w r; energy_j := energy_j r;
     thermal_headroom_w := thermal_headroom_w r;
     grid_stress_index := grid_stress_index r;
     work_units := work_units r; work_units_mode := work_units_mode r;
     validated_work_units := validated_work_units r; enst := enst r;
     _policy_throttled := _policy_throttled r;
     _throttle_factor := _throttle_factor r;
     _migrate_flag := _migrate_flag r |}.

Definition set_gpu_seconds (v : field) (r : tsv) : tsv :=
  {| cpu_core_seconds := cpu_core_seconds r; gpu_seconds := v;
     cpu_util := cpu_util r; gpu_util := gpu_util r;
     window_duration_s := window_duration_s r;
     validated_steps := validated_steps r; timesteps := timesteps r;
     power_w := power_w r; energy_j := energy_j r;
     thermal_headroom_w := thermal_headroom_w r;
     grid_stress_index := grid_stress_index r;
     work_units := work_units r; work_units_mode := work_units_mode r;
     validated_work_units := validated_work_units r; enst := enst r;
     _policy_throttled := _policy_throttled r;
     _throttle_factor := _throttle_factor r;
     _migrate_flag := _migrate_flag r |}.

Definition set_energy_j (v : field) (r : tsv) : tsv :=
  {| cpu_core_seconds := cpu_core_seconds r; gpu_seconds := gpu_seconds r;
     cpu_util := cpu_util r; gpu_util := gpu_util r;
     window_duration_s := window_duration_s r;
     validated_steps := validated_steps r; timesteps := timesteps r;
     power_w := power_w r; energy_j := v;
     thermal_headroom_w := thermal_headroom_w r;
     grid_stress_index := grid_stress_index r;
     work_units := work_units r; work_units_mode := work_units_mode r;
     validated_work_units := validated_work_units r; enst := enst r;
     _policy_throttled := _policy_throttled r;
     _throttle_factor := _throttle_factor r;
     _migrate_flag := _migrate_flag r |}.

Definition set_policy_metadata (f : field) (m : option bool) (r : tsv) : tsv :=
  {| cpu_core_seconds := cpu_core_seconds r; gpu_seconds := gpu_seconds r;
     cpu_util := cpu_util r; gpu_util := gpu_util r;
     window_duration_s := window_duration_s r;
     validated_steps := validated_steps r; timesteps := timesteps r;
     power_w := power_w r; energy_j := energy_j r;
     thermal_headroom_w := thermal_headroom_w r;
     grid_stress_index := grid_stress_index r;
     work_units := work_units r; work_units_mode := work_units_mode r;
     validated_work_units := validated_work_units r; enst := enst r;
     _policy_throttled := true;
     _throttle_factor := f;
     _migrate_flag := m |}.

(** ** Work units and ENST (src/enst_compute/index.js) *)

Module Enst.

Record work_result : Type := { value : num; mode : string }.

(** [computeWorkUnitsInfra(tsv, gpuWeight = 1)]. *)
Definition computeWorkUnitsInfra (r : tsv) (gpuWeight : num) : num :=
  let cpuCoreSeconds :=
    match cpu_core_seconds r with
    | Num n => n
    | _ => mul (mul (or_num (cpu_util r) (Fin 0))
                    (or_num (window_duration_s r) (Fin 300)))
               (Fin 100)
    end in
  let gpuSeconds :=
    match gpu_seconds r with
    | Num n => n
    | _ => mul (mul (or_num (gpu_util r) (Fin 0))
                    (or_num (window_duration_s r) (Fin 300)))
               (Fin 8)
    end in
  add cpuCoreSeconds (mul gpuSeconds gpuWeight).

(** [computeWorkUnitsDomain(tsv)]. *)
Definition computeWorkUnitsDomain (r : tsv) : work_result :=
  match validated_steps r with
  | Num v => {| value := v; mode := "domain" |}
  | _ =>
      match timesteps r with
      | Num t => {| value := t; mode := "domain" |}
      | _ => {| value := computeWorkUnitsInfra r (Fin 1);
                mode := "infra_fallback" |}
      end
  end.

(** [computeWorkUnits(tsv, mode = 'infra', gpuWeight = 1)]: any mode string
    other than ['domain'] selects the infrastructure mode. *)
Definition computeWorkUnits (r : tsv) (mode : string) (gpuWeight : num)
  : work_result :=
  if String.eqb mode "domain" then computeWorkUnitsDomain r
  else {| value := computeWorkUnitsInfra r gpuWeight; mode := "infra" |}.

(** [computeEnst(tsv)]. *)
Definition computeEnst (r : tsv) : field :=
  match energy_j r with
  | Undefined | Null => Null
  | Num energy =>
      if le energy (Fin 0) then Null
      else
        match work_units r with
        | Undefined | Null => Null
        | Num work => Num (div work energy)
        end
  end.

(** The options object of [computeEnstStream] with its defaults. *)
Record stream_options : Type := {
  workUnitsMode : option string;
  gpuWeight : option num
}.

Definition default {A : Type} (o : option A) (d : A) : A :=
  match o with Some a => a | None => d end.

(** The body of the loop of [computeEnstStream] for one input record. *)
Definition computeEnstStream_step (options : stream_options) (t : tsv) : tsv :=
  let w := computeWorkUnits t (default (workUnitsMode options) "infra"%string)
                            (default (gpuWeight options) (Fin 1)) in
  let record := set_work_units (Num (value w)) t in
  let record := set_work_units_mode (Some (mode w)) record in
  let record :=
    if nullish (validated_work_units record)
    then set_validated_work_units (Num (value w)) record
    else record in
  set_enst (computeEnst record) record.

(** [computeEnstStream(tsvRecords, options)]: the generator yields one
    record per input record, in order; a finite input stream is a list. *)
Definition computeEnstStream (tsvRecords : list tsv) (options : stream_options)
  : list tsv :=
  map (computeEnstStream_step options) tsvRecords.

End Enst.

(** ** Cost (src/cost/index.js) *)

Module Cost.

Definition JOULES_PER_MWH : num := Fin 3600000000.
Definition DEFAULT_PRICE_USD_PER_MWH : num := Fin 50.
Definition REFERENCE_WORK_UNITS : num := Fin 1000000000.

(** [computeCostUsd(energyJ, priceUsdPerMwh)]. *)
Definition computeCostUsd (energyJ priceUsdPerMwh : field) : num :=
  match energyJ with
  | Undefined | Null => Fin 0
  | Num e =>
      if le e (Fin 0) then Fin 0
      else
        let mwh := div e JOULES_PER_MWH in
        mul mwh (ToNumber priceUsdPerMwh)
  end.

(** [computeEnergyForWork(workUnits, enst)]. *)
Definition computeEnergyForWork (workUnits : num) (enst : field) : num :=
  match enst with
  | Undefined | Null => PInf
  | Num e => if le e (Fin 0) then PInf else div workUnits e
  end.

(** [computeCostForWork(workUnits, enst, priceUsdPerMwh)]. *)
Definition computeCostForWork (workUnits : num) (enst priceUsdPerMwh : field)
  : num :=
  let energyJ := computeEnergyForWork workUnits enst in
  if negb (isFinite energyJ) then PInf
  else computeCostUsd (Num energyJ) priceUsdPerMwh.

(** [computeDeltaCostPerWork(enstBaseline, enstPolicy, priceUsdPerMwh,
    referenceWorkUnits = REFERENCE_WORK_UNITS)]. *)
Definition computeDeltaCostPerWork (enstBaseline enstPolicy priceUsdPerMwh : field)
    (referenceWorkUnits : option num) : field :=
  let referenceWorkUnits := Enst.default referenceWorkUnits REFERENCE_WORK_UNITS in
  let costBaseline :=
    computeCostForWork referenceWorkUnits enstBaseline priceUsdPerMwh in
  let costPolicy :=
    computeCostForWork referenceWorkUnits enstPolicy priceUsdPerMwh in
  if (negb (isFinite costBaseline) || negb (isFinite costPolicy))%bool then Null
  else Num (sub costPolicy costBaseline).

End Cost.

(** ** Cost in binary64

    The four cost functions once more, over the binary64 numbers of the
    kernel instead of exact rationals, to evaluate them at inputs where the
    rounding of a quotient decides the result. *)

Module Binary64.
Import PrimFloat.
Local Open Scope float_scope.

Inductive field : Type :=
| Undefined
| Null
| Num (x : float).

Definition isFinite (x : float) : bool := negb (is_nan x || is_infinity x).

Definition ToNumber (f : field) : float :=
  match f with
  | Undefined => nan
  | Null => 0
  | Num x => x
  end.

Definition JOULES_PER_MWH : float := 3.6e9.
Definition REFERENCE_WORK_UNITS : float := 1e9.

Definition computeCostUsd (energyJ priceUsdPerMwh : field) : float :=
  match energyJ with
  | Undefined | Null => 0
  | Num e =>
      if e <=? 0 then 0
      else
        let mwh := e / JOULES_PER_MWH in
        mwh * ToNumber priceUsdPerMwh
  end.

Definition computeEnergyForWork (workUnits : float) (enst : field) : float :=
  match enst with
  | Undefined | Null => infinity
  | Num e => if e <=? 0 then infinity else workUnits / e
  end.

Definition computeCostForWork (workUnits : float) (enst priceUsdPerMwh : field)
  : float :=
  let energyJ := computeEnergyForWork workUnits enst in
  if negb (isFinite energyJ) then infinity
  else computeCostUsd (Num energyJ) priceUsdPerMwh.

Definition computeDeltaCostPerWork (enstBaseline enstPolicy priceUsdPerMwh : field)
    (referenceWorkUnits : option float) : field :=
  let referenceWorkUnits :=
    Enst.default referenceWorkUnits REFERENCE_WORK_UNITS in
  let costBaseline :=
    computeCostForWork referenceWorkUnits enstBaseline priceUsdPerMwh in
  let costPolicy :=
    computeCostForWork referenceWorkUnits enstPolicy priceUsdPerMwh in
  if (negb (isFinite costBaseline) || negb (isFinite costPolicy))%bool then Null
  else Num (costPolicy - costBaseline).

(** 1.5, the next number above it, and a price of 50 USD/MWh. *)
Definition three_halves : float := 1.5.
Definition above_three_halves : float := 0x1.8000000000001p+0.
Definition fifty : float := 50.
Definition zero : float := 0.

End Binary64.

(** ** Policy evaluation and throttling *)

Module Policy.

Module Config.
Record t : Type := {
  energy_cap_w : field;
  thermal_cap_w : field;
  grid_stress_cap : field;
  throttle_factor : field
}.
End Config.

(** [DEFAULT_POLICY]. *)
Definition DEFAULT_POLICY : Config.t :=
  {| Config.energy_cap_w := Null;
     Config.thermal_cap_w := Null;
     Config.grid_stress_cap := Null;
     Config.throttle_factor := Num (Fin (1 # 2)) |}.

Record violation : Type := {
  type : string;
  actual : field;
  cap : field
}.

Record result : Type := {
  throttle_applied : bool;
  throttle_factor : num;
  migrate_flag : bool;
  violations : list violation
}.

(** [evaluatePolicy(record, policy)]: three checks in sequence on one result
    object.  A cap or a reading that is [null] skips its check; one that is
    absent compares as NaN and never triggers. *)
Definition evaluatePolicy (record : tsv) (policy : Config.t) : result :=
  let result :=
    {| throttle_applied := false; throttle_factor := Fin 1;
       migrate_flag := false; violations := [] |} in
  let result :=
    if (negb (is_null (Config.energy_cap_w policy))
        && negb (is_null (power_w record)))%bool
    then
      if gt (ToNumber (power_w record)) (ToNumber (Config.energy_cap_w policy))
      then
        {| throttle_applied := true;
           throttle_factor :=
             min (throttle_factor result)
                 (ToNumber (Config.throttle_factor policy));
           migrate_flag := migrate_flag result;
           violations :=
             violations result ++
             [ {| type := "energy_cap"; actual := power_w record;
                  cap := Config.energy_cap_w policy |} ] |}
      else result
    else result in
  let result :=
    if (negb (is_null (Config.thermal_cap_w policy))
        && negb (is_null (thermal_headroom_w record)))%bool
    then
      if lt (ToNumber (thermal_headroom_w record))
            (ToNumber (Config.thermal_cap_w policy))
      then
        {| throttle_applied := true;
           throttle_factor :=
             min (throttle_factor result)
                 (ToNumber (Config.throttle_factor policy));
           migrate_flag := migrate_flag result;
           violations :=
             violations result ++
             [ {| type := "thermal_cap"; actual := thermal_headroom_w record;
                  cap := Config.thermal_cap_w policy |} ] |}
      else result
    else result in
  let result :=
    if (negb (is_null (Config.grid_stress_cap policy))
        && negb (is_null (grid_stress_index record)))%bool
    then
      if gt (ToNumber (grid_stress_index record))
            (ToNumber (Config.grid_stress_cap policy))
      then
        {| throttle_applied := throttle_applied result;
           throttle_factor := throttle_factor result;
           migrate_flag := true;
           violations :=
             violations result ++
             [ {| type := "grid_stress"; actual := grid_stress_index record;
                  cap := Config.grid_stress_cap policy |} ] |}
      else result
    else result in
  result.

(** [applyThrottle(record, evalResult)]. *)
Definition applyThrottle (record : tsv) (evalResult : result) : tsv :=
  if negb (throttle_applied evalResult) then record
  else
    let throttled := record in
    let factor := throttle_factor evalResult in
    let throttled :=
      match work_units throttled with
      | Num w => set_work_units (Num (mul w factor)) throttled
      | _ => throttled
      end in
    let throttled :=
      match validated_work_units throttled with
      | Num w => set_validated_work_units (Num (mul w factor)) throttled
      | _ => throttled
      end in
    let throttled :=
      match cpu_core_seconds throttled with
      | Num c => set_cpu_core_seconds (Num (mul c factor)) throttled
      | _ => throttled
      end in
    let throttled :=
      match gpu_seconds throttled with
      | Num g => set_gpu_seconds (Num (mul g factor)) throttled
      | _ => throttled
      end in
    let throttled :=
      match energy_j throttled with
      | Num e =>
          set_energy_j
            (Num (mul e (add (Fin (1 # 2)) (mul factor (Fin (1 # 2))))))
            throttled
      | _ => throttled
      end in
    let throttled :=
      if (gt (ToNumber (energy_j throttled)) (Fin 0)
          && negb (is_null (work_units throttled)))%bool
      then
        set_enst
          (Num (div (ToNumber (work_units throttled))
                    (ToNumber (energy_j throttled))))
          throttled
      else throttled in
    set_policy_metadata (Num factor) (Some (migrate_flag evalResult)) throttled.

End Policy.

(** ** The window map

    Both aggregators keep their windows in a [Map] keyed by the string
    [`${siteId}:${windowStart}`] and iterate it in insertion order.  The
    window start is printed as a number and holds no colon, so two keys are
    equal exactly when their site and their window start are: a key is the
    pair, and the map is the list of its entries in insertion order. *)

Module JSMap.

Definition key : Type := (string * num)%type.

Definition Q_eq_dec (a b : Q) : {a = b} + {a <> b}.
Proof. decide equality; [apply Pos.eq_dec | apply Z.eq_dec]. Defined.

Definition num_eq_dec (a b : num) : {a = b} + {a <> b}.
Proof. decide equality; apply Q_eq_dec. Defined.

Definition key_eq_dec (a b : key) : {a = b} + {a <> b}.
Proof. decide equality; [apply num_eq_dec | apply string_dec]. Defined.

Section Map.
Variable V : Type.

Definition t : Type := list (key * V).

Fixpoint get (m : t) (k : key) : option V :=
  match m with
  | [] => None
  | (k', v) :: m' => if key_eq_dec k k' then Some v else get m' k
  end.

Definition has (m : t) (k : key) : bool :=
  match get m k with Some _ => true | None => false end.

(** [set] keeps the position of an existing key and appends a new one. *)
Fixpoint set (m : t) (k : key) (v : V) : t :=
  match m with
  | [] => [(k, v)]
  | (k', v') :: m' =>
      if key_eq_dec k k' then (k', v) :: m' else (k', v') :: set m' k v
  end.

Definition values (m : t) : list V := map snd m.

End Map.
End JSMap.

(** The [length] of an array as a number. *)
Definition length_num {A : Type} (l : list A) : num :=
  Fin (inject_Z (Z.of_nat (List.length l))).

(** ** PowerAggregator *)

Module Power.

(** A raw power sample as read from CSV or NDJSON.  The timestamp aliases
    are numbers when present; the power aliases are whatever the reader
    produced, strings included. *)
Module In.
Record t : Type := {
  ts : field;
  timestamp : field;
  time : field;
  t_ : field;
  site_id : option string;
  machine_id : option string;
  node_id : option string;
  power_w : raw;
  power : raw;
  watts : raw;
  watt : raw;
  power_watts : raw;
  pdu_power : raw
}.
End In.

Record sample : Type := { ts : num; power : num }.

Record window : Type := {
  ts_start : num;
  ts_end : num;
  site_id : string;
  power_samples : list sample;
  last_ts : num
}.

Module Out.
Record t : Type := {
  ts : num;
  ts_start : num;
  ts_end : num;
  site_id : string;
  power_w : num;
  energy_j_window : num;
  sample_count : num
}.
End Out.

(** The aggregator object: [windowSizeUs] and the [windows] map. *)
Record aggregator : Type := {
  windowSizeUs : num;
  windows : JSMap.t window
}.

(** [new PowerAggregator(windowSizeUs = 300_000_000)]. *)
Definition new (size : option num) : aggregator :=
  {| windowSizeUs := Enst.default size (Fin 300000000); windows := [] |}.

(** [getWindowKey(ts, siteId)]. *)
Definition getWindowKey (windowSizeUs ts : num) (siteId : string) : JSMap.key :=
  let windowStart := mul (floor (div ts windowSizeUs)) windowSizeUs in
  (siteId, windowStart).

(** [normalizeTimestamp(ts)]. *)
Definition normalizeTimestamp (ts : num) : num :=
  if lt ts (Fin 10000000000) then mul ts (Fin 1000000)
  else if lt ts (Fin 10000000000000) then mul ts (Fin 1000)
  else ts.

(** [a ?? b] on optional strings. *)
Definition coalesce_str (a b : option string) : option string :=
  match a with Some _ => a | None => b end.

(** [record.ts ?? record.timestamp ?? record.time ?? record.t ?? 0]. *)
Definition record_raw_ts (record : In.t) : num :=
  match coalesce (coalesce (coalesce (In.ts record) (In.timestamp record))
                           (In.time record)) (In.t_ record) with
  | Num n => n
  | _ => Fin 0
  end.

(** The timestamp in microseconds and the site of a record, as
    [addPowerRecord] resolves them. *)
Definition record_ts (record : In.t) : num :=
  normalizeTimestamp (record_raw_ts record).

Definition record_site (record : In.t) : string :=
  Enst.default
    (coalesce_str (coalesce_str (In.site_id record) (In.machine_id record))
                  (In.node_id record))
    "unknown"%string.

Definition record_power (record : In.t) : raw :=
  raw_coalesce
    (raw_coalesce
       (raw_coalesce
          (raw_coalesce
             (raw_coalesce (raw_coalesce (In.power_w record) (In.power record))
                           (In.watts record))
             (In.watt record))
          (In.power_watts record))
       (In.pdu_power record))
    RNull.

(** The bucket created on the first touch of a key. *)
Definition new_window (windowSizeUs ts : num) (siteId : string) : window :=
  let windowStart := mul (floor (div ts windowSizeUs)) windowSizeUs in
  {| ts_start := windowStart;
     ts_end := add windowStart windowSizeUs;
     site_id := siteId;
     power_samples := [];
     last_ts := windowStart |}.

(** The two updates of the bucket when the power value is usable. *)
Definition push_sample (w : window) (ts powerW : num) : window :=
  {| ts_start := ts_start w;
     ts_end := ts_end w;
     site_id := site_id w;
     power_samples := power_samples w ++ [ {| ts := ts; power := powerW |} ];
     last_ts := max (last_ts w) ts |}.

(** [addPowerRecord(record)]. *)
Definition addPowerRecord (a : aggregator) (record : In.t) : aggregator :=
  let ts := record_ts record in
  let siteId := record_site record in
  let key := getWindowKey (windowSizeUs a) ts siteId in
  let windows1 :=
    if JSMap.has (windows a) key then windows a
    else JSMap.set (windows a) key (new_window (windowSizeUs a) ts siteId) in
  let windows2 :=
    match JSMap.get windows1 key with
    | Some window =>
        let powerW := record_power record in
        if (negb (raw_is_null powerW) && negb (isNaN (Number powerW)))%bool
        then JSMap.set windows1 key (push_sample window ts (Number powerW))
        else windows1
    | None => windows1
    end in
  {| windowSizeUs := windowSizeUs a; windows := windows2 |}.

(** [samples.sort((a, b) => a.ts - b.ts)]: the sort of the language is
    stable, and an element moves in front of another only when the
    comparator is positive.  For a comparator that is consistent on the
    array this is the result of every conforming implementation. *)
Definition comparator (a b : sample) : num := sub (ts a) (ts b).

Fixpoint insert (x : sample) (l : list sample) : list sample :=
  match l with
  | [] => [x]
  | y :: l' =>
      if gt (comparator x y) (Fin 0) then y :: insert x l' else x :: l
  end.

Fixpoint sort (l : list sample) : list sample :=
  match l with
  | [] => []
  | x :: l' => insert x (sort l')
  end.

Definition dummy_sample : sample := {| ts := NaN; power := NaN |}.

(** [computeEnergy(samples)]: the loop runs over the indices
    [1 .. samples.length - 1] of the sorted array. *)
Definition computeEnergy (windowSizeUs : num) (samples : list sample) : num :=
  if (List.length samples <? 2)%nat then
    match samples with
    | [s] =>
        let windowDurationS := div windowSizeUs (Fin 1000000) in
        mul (power s) windowDurationS
    | _ => Fin 0
    end
  else
    let samples := sort samples in
    fold_left
      (fun energyJ i =>
         let si := nth i samples dummy_sample in
         let sp := nth (i - 1) samples dummy_sample in
         let dt := div (sub (ts si) (ts sp)) (Fin 1000000) in
         let avgPower := div (add (power si) (power sp)) (Fin 2) in
         add energyJ (mul avgPower dt))
      (seq 1 (List.length samples - 1))
      (Fin 0).

(** The array a window holds after [computeEnergy] has run on it: the sort
    is in place. *)
Definition samples_after_computeEnergy (samples : list sample) : list sample :=
  if (List.length samples <? 2)%nat then samples else sort samples.

(** The record [emit()] yields for one window. *)
Definition emit_window (windowSizeUs : num) (w : window) : Out.t :=
  let meanPower :=
    if (0 <? List.length (power_samples w))%nat
    then div (fold_left (fun sum s => add sum (power s)) (power_samples w) (Fin 0))
             (length_num (power_samples w))
    else Fin 0 in
  let energyJ := computeEnergy windowSizeUs (power_samples w) in
  {| Out.ts := ts_start w;
     Out.ts_start := ts_start w;
     Out.ts_end := ts_end w;
     Out.site_id := site_id w;
     Out.power_w := meanPower;
     Out.energy_j_window := energyJ;
     Out.sample_count := length_num (power_samples w) |}.

(** [emit()]: one record per window, in the insertion order of the map. *)
Definition emit (a : aggregator) : list Out.t :=
  map (emit_window (windowSizeUs a)) (JSMap.values (windows a)).

(** Feeding a finite stream of records, first to last. *)
Definition feed (a : aggregator) (records : list In.t) : aggregator :=
  fold_left addPowerRecord records a.

End Power.

(** ** UsageAggregator *)

Module Usage.

Record usage_object : Type := { cpus : raw; memory : raw }.

(** A raw usage record.  Timestamps are numbers when present; the
    utilisation properties are whatever the reader produced. *)
Module In.
Record t : Type := {
  start_time : field;
  time : field;
  ts : field;
  end_time : field;
  machine_id : option string;
  site_id : option string;
  average_usage : option usage_object;
  cpu_util : raw;
  assigned_memory : raw;
  mem_util : raw;
  gpu_util : raw;
  type : raw;
  event_type : raw
}.
End In.

Record window : Type := {
  ts_start : num;
  ts_end : num;
  site_id : string;
  cpu_samples : list num;
  gpu_samples : list num;
  mem_samples : list num;
  job_count : Z;
  resource_seconds : num
}.

Module Out.
Record t : Type := {
  ts : num;
  ts_start : num;
  ts_end : num;
  site_id : string;
  cpu_util : num;
  gpu_util : field;
  mem_util : field;
  job_queue_depth : Z;
  resource_seconds_window : num
}.
End Out.

Record aggregator : Type := {
  windowSizeUs : num;
  windows : JSMap.t window
}.

(** [new UsageAggregator(windowSizeUs = 300_000_000)]. *)
Definition new (size : option num) : aggregator :=
  {| windowSizeUs := Enst.default size (Fin 300000000); windows := [] |}.

(** [getWindowKey(ts, siteId)]. *)
Definition getWindowKey (windowSizeUs ts : num) (siteId : string) : JSMap.key :=
  let windowStart := mul (floor (div ts windowSizeUs)) windowSizeUs in
  (siteId, windowStart).

(** [a || b] on optional strings: the empty string is falsy. *)
Definition or_str (a b : option string) : option string :=
  match a with
  | Some s => if String.eqb s "" then b else a
  | None => b
  end.

(** [record.start_time || record.time || record.ts || 0]. *)
Definition record_ts (record : In.t) : num :=
  or_num (or_field (or_field (In.start_time record) (In.time record))
                   (In.ts record))
         (Fin 0).

(** [record.machine_id || record.site_id || 'unknown']. *)
Definition record_site (record : In.t) : string :=
  match or_str (or_str (In.machine_id record) (In.site_id record))
               (Some "unknown"%string) with
  | Some s => s
  | None => "unknown"%string
  end.

(** [record.average_usage?.cpus] and [record.average_usage?.memory]. *)
Definition average_cpus (record : In.t) : raw :=
  match In.average_usage record with Some u => cpus u | None => RUndefined end.

Definition average_memory (record : In.t) : raw :=
  match In.average_usage record with Some u => memory u | None => RUndefined end.

Definition record_cpuUtil (record : In.t) : raw :=
  raw_coalesce
    (raw_coalesce (raw_coalesce (average_cpus record) (In.cpu_util record))
                  (In.assigned_memory record))
    RNull.

Definition record_memUtil (record : In.t) : raw :=
  raw_coalesce (raw_coalesce (average_memory record) (In.mem_util record)) RNull.

Definition record_gpuUtil (record : In.t) : raw :=
  raw_coalesce (In.gpu_util record) RNull.

Definition new_window (windowSizeUs ts : num) (siteId : string) : window :=
  let windowStart := mul (floor (div ts windowSizeUs)) windowSizeUs in
  {| ts_start := windowStart;
     ts_end := add windowStart windowSizeUs;
     site_id := siteId;
     cpu_samples := [];
     gpu_samples := [];
     mem_samples := [];
     job_count := 0;
     resource_seconds := Fin 0 |}.

(** [if (v !== null) samples.push(Number(v))]. *)
Definition push_if_present (samples : list num) (v : raw) : list num :=
  if raw_is_null v then samples else samples ++ [Number v].

(** The updates [addUsageRecord] makes to the bucket of the record. *)
Definition update_window (w : window) (record : In.t) : window :=
  let ts := record_ts record in
  let cpuUtil := record_cpuUtil record in
  let duration := sub (or_num (In.end_time record) (add ts (Fin 1000000))) ts in
  let durationSec := div duration (Fin 1000000) in
  {| ts_start := ts_start w;
     ts_end := ts_end w;
     site_id := site_id w;
     cpu_samples := push_if_present (cpu_samples w) cpuUtil;
     gpu_samples := push_if_present (gpu_samples w) (record_gpuUtil record);
     mem_samples := push_if_present (mem_samples w) (record_memUtil record);
     job_count :=
       match In.type record, In.event_type record with
       | RUndefined, RUndefined => job_count w
       | _, _ => (job_count w + 1)%Z
       end;
     resource_seconds :=
       add (resource_seconds w)
           (mul (if raw_truthy cpuUtil then Number cpuUtil else Fin 0)
                durationSec) |}.

(** [addUsageRecord(record)]: the timestamp is used as it comes. *)
Definition addUsageRecord (a : aggregator) (record : In.t) : aggregator :=
  let ts := record_ts record in
  let siteId := record_site record in
  let key := getWindowKey (windowSizeUs a) ts siteId in
  let windows1 :=
    if JSMap.has (windows a) key then windows a
    else JSMap.set (windows a) key (new_window (windowSizeUs a) ts siteId) in
  let windows2 :=
    match JSMap.get windows1 key with
    | Some window => JSMap.set windows1 key (update_window window record)
    | None => windows1
    end in
  {| windowSizeUs := windowSizeUs a; windows := windows2 |}.

(** [samples.reduce((a, b) => a + b, 0) / samples.length]. *)
Definition mean (samples : list num) : num :=
  div (fold_left add samples (Fin 0)) (length_num samples).

(** [Math.min(1, Math.max(0, x))]. *)
Definition clamp01 (x : num) : num := min (Fin 1) (max (Fin 0) x).

(** The record [emit()] yields for one window. *)
Definition emit_window (w : window) : Out.t :=
  let cpuUtil :=
    if (0 <? List.length (cpu_samples w))%nat then mean (cpu_samples w) else Fin 0 in
  let gpuUtil :=
    if (0 <? List.length (gpu_samples w))%nat then Num (mean (gpu_samples w))
    else Null in
  let memUtil :=
    if (0 <? List.length (mem_samples w))%nat then Num (mean (mem_samples w))
    else Null in
  {| Out.ts := ts_start w;
     Out.ts_start := ts_start w;
     Out.ts_end := ts_end w;
     Out.site_id := site_id w;
     Out.cpu_util := clamp01 cpuUtil;
     Out.gpu_util :=
       match gpuUtil with Num g => Num (clamp01 g) | _ => Null end;
     Out.mem_util :=
       match memUtil with Num m => Num (clamp01 m) | _ => Null end;
     Out.job_queue_depth := job_count w;
     Out.resource_seconds_window := resource_seconds w |}.

Definition emit (a : aggregator) : list Out.t :=
  map emit_window (JSMap.values (windows a)).

Definition feed (a : aggregator) (records : list In.t) : aggregator :=
  fold_left addUsageRecord records a.

End Usage.

Unset Implicit Arguments.

(** ** Specification-side notions

    What the statements below compare the code with: the trapezoidal sum
    over consecutive pairs, the conversion of a timestamp to microseconds,
    the unit interval, and a record that stays within the configured caps. *)

(** [avg(p[i-1], p[i]) * (t[i] - t[i-1])], the time difference in seconds. *)
Definition trapezoid (a b : Power.sample) : num :=
  mul (div (add (Power.power b) (Power.power a)) (Fin 2))
      (div (sub (Power.ts b) (Power.ts a)) (Fin 1000000)).


(** The same sum accumulated from 0, pair after pair: the order in which
    the loop of [computeEnergy] adds. *)
Definition trapezoid_total (l : list Power.sample) : num :=
  fold_left (fun sum p => add sum (trapezoid (fst p) (snd p)))
            (combine l (tl l)) (Fin 0).

Definition in_time_order (a b : Power.sample) : Prop :=
  le (Power.ts a) (Power.ts b) = true.

(** Seconds below 1e10, milliseconds below 1e13, microseconds otherwise. *)
Definition to_microseconds (ts : num) : num :=
  if lt ts (Fin 10000000000) then mul ts (Fin 1000000)
  else if (le (Fin 10000000000) ts && lt ts (Fin 10000000000000))%bool
       then mul ts (Fin 1000)
       else ts.

Definition in_unit_interval (x : num) : Prop :=
  le (Fin 0) x = true /\ le x (Fin 1) = true.

Definition util_in_range (f : field) : Prop :=
  f = Null \/ exists x, f = Num x /\ in_unit_interval x.

(** A usage record whose utilisation values are absent or finite numbers
    (numeric strings included). *)
Definition numeric_utilisation (r : Usage.In.t) : Prop :=
  Forall (fun v => raw_is_null v = true \/ isFinite (Number v) = true)
         [Usage.record_cpuUtil r; Usage.record_gpuUtil r; Usage.record_memUtil r].

(** No configured cap is exceeded by a reading the record has. *)
Definition within_caps (record : tsv) (policy : Policy.Config.t) : Prop :=
  (forall c p, Policy.Config.energy_cap_w policy = Num c -> power_w record = Num p ->
               gt p c = false)
  /\ (forall c h, Policy.Config.thermal_cap_w policy = Num c ->
                  thermal_headroom_w record = Num h -> lt h c = false)
  /\ (forall c g, Policy.Config.grid_stress_cap policy = Num c ->
                  grid_stress_index record = Num g -> gt g c = false).

Definition non_positive_or_absent (f : field) : Prop :=
  nullish f = true \/ exists e, f = Num e /\ le e (Fin 0) = true.

(** A finite number in lowest terms, or a special value. *)
Definition canonical (a : num) : Prop :=
  match a with Fin q => Qred q = q | _ => True end.

(** ** The aggregators as folds over a window map

    [addPowerRecord] and [addUsageRecord] have one shape: find or create
    the bucket of the record's key, then update that bucket. *)

Module WindowFold.
Section Fold.
Variables R W : Type.
Variable key_of : R -> JSMap.key.
Variable fresh : JSMap.key -> W.
Variable upd : W -> R -> W.

Definition has_key (k : JSMap.key) (r : R) : bool :=
  if JSMap.key_eq_dec (key_of r) k then true else false.

(** The common shape of [addPowerRecord] and [addUsageRecord]. *)
Definition step (m : JSMap.t W) (r : R) : JSMap.t W :=
  let k := key_of r in
  let m1 := if JSMap.has m k then m else JSMap.set m k (fresh k) in
  match JSMap.get m1 k with
  | Some w => JSMap.set m1 k (upd w r)
  | None => m1
  end.

(** The bucket of a key after a stream: the fresh bucket updated by the
    records of the key, in arrival order. *)
Definition window_of (k : JSMap.key) (l : list R) : W :=
  fold_left upd (filter (has_key k) l) (fresh k).
End Fold.
End WindowFold.

Module PowerFold.
Import Power.

Definition key_of (windowSizeUs : num) (r : In.t) : JSMap.key :=
  getWindowKey windowSizeUs (record_ts r) (record_site r).

Definition fresh (windowSizeUs : num) (k : JSMap.key) : window :=
  {| ts_start := snd k;
     ts_end := add (snd k) windowSizeUs;
     site_id := fst k;
     power_samples := [];
     last_ts := snd k |}.

(** A record contributes a sample when its power value is usable. *)
Definition usable (r : In.t) : bool :=
  (negb (raw_is_null (record_power r))
   && negb (isNaN (Number (record_power r))))%bool.

Definition sample_of (r : In.t) : sample :=
  {| ts := record_ts r; power := Number (record_power r) |}.

Definition upd (w : window) (r : In.t) : window :=
  if usable r then push_sample w (record_ts r) (Number (record_power r))
  else w.

Definition samples_of (l : list In.t) : list sample :=
  flat_map (fun r => if usable r then [sample_of r] else []) l.

(** Samples of one window with the same timestamp have the same power: any
    two usable records of a window are the same sample or are strictly
    ordered in time. *)
Definition tie_free (windowSizeUs : num) (l : list In.t) : Prop :=
  forall r1 r2, In r1 l -> In r2 l ->
    key_of windowSizeUs r1 = key_of windowSizeUs r2 ->
    usable r1 = true -> usable r2 = true ->
    sample_of r1 = sample_of r2
    \/ lt (record_ts r1) (record_ts r2) = true
    \/ lt (record_ts r2) (record_ts r1) = true.

(** The body of the integration loop of [computeEnergy]. *)
Definition loop_body (samples : list sample) (energyJ : num) (i : nat) : num :=
  let si := nth i samples dummy_sample in
  let sp := nth (i - 1) samples dummy_sample in
  let dt := div (sub (ts si) (ts sp)) (Fin 1000000) in
  let avgPower := div (add (power si) (power sp)) (Fin 2) in
  add energyJ (mul avgPower dt).
End PowerFold.

Module UsageFold.
Import Usage.

Definition key_of (windowSizeUs : num) (r : In.t) : JSMap.key :=
  getWindowKey windowSizeUs (record_ts r) (record_site r).

Definition fresh (windowSizeUs : num) (k : JSMap.key) : window :=
  {| ts_start := snd k;
     ts_end := add (snd k) windowSizeUs;
     site_id := fst k;
     cpu_samples := [];
     gpu_samples := [];
     mem_samples := [];
     job_count := 0;
     resource_seconds := Fin 0 |}.

(** What one record adds to each accumulator of its bucket. *)
Definition pushed (v : raw) : list num :=
  if raw_is_null v then [] else [Number v].

Definition job_increment (r : In.t) : Z :=
  match In.type r, In.event_type r with
  | RUndefined, RUndefined => 0
  | _, _ => 1
  end.

Definition seconds_of (r : In.t) : num :=
  let ts := record_ts r in
  let cpuUtil := record_cpuUtil r in
  mul (if raw_truthy cpuUtil then Number cpuUtil else Fin 0)
      (div (sub (or_num (In.end_time r) (add ts (Fin 1000000))) ts)
           (Fin 1000000)).
End UsageFold.

(** ** Sample inputs *)

(** A record that reports [timesteps] but no [validated_steps], and no
    power. *)
Definition timesteps_record : tsv :=
  {| cpu_core_seconds := Null; gpu_seconds := Null;
     cpu_util := Num (Fin (1 # 2)); gpu_util := Null;
     window_duration_s := Num (Fin 300);
     validated_steps := Null; timesteps := Num (Fin 42);
     power_w := Null; energy_j := Null;
     thermal_headroom_w := Null; grid_stress_index := Null;
     work_units := Undefined; work_units_mode := None;
     validated_work_units := Null; enst := Null;
     _policy_throttled := false; _throttle_factor := Undefined;
     _migrate_flag := None |}.

(** A record of the policy tests: 100 work units and 1000 J in a window. *)
Definition throttle_record : tsv :=
  {| cpu_core_seconds := Null; gpu_seconds := Null;
     cpu_util := Num (Fin (1 # 2)); gpu_util := Null;
     window_duration_s := Num (Fin 300);
     validated_steps := Null; timesteps := Null;
     power_w := Num (Fin 3000); energy_j := Num (Fin 1000);
     thermal_headroom_w := Null; grid_stress_index := Null;
     work_units := Num (Fin 100); work_units_mode := Some "infra"%string;
     validated_work_units := Num (Fin 100); enst := Num (Fin (1 # 10));
     _policy_throttled := false; _throttle_factor := Undefined;
     _migrate_flag := None |}.

Definition throttle_policy : Policy.Config.t :=
  {| Policy.Config.energy_cap_w := Num (Fin 2500);
     Policy.Config.thermal_cap_w := Null;
     Policy.Config.grid_stress_cap := Null;
     Policy.Config.throttle_factor := Num (Fin (1 # 2)) |}.

Definition power_reading (site : string) (ts p : Q) : Power.In.t :=
  {| Power.In.ts := Num (Fin ts); Power.In.timestamp := Undefined;
     Power.In.time := Undefined; Power.In.t_ := Undefined;
     Power.In.site_id := Some site; Power.In.machine_id := None;
     Power.In.node_id := None;
     Power.In.power_w := RNum (Fin p); Power.In.power := RUndefined;
     Power.In.watts := RUndefined; Power.In.watt := RUndefined;
     Power.In.power_watts := RUndefined; Power.In.pdu_power := RUndefined |}.

(** The record of the policy tests with an energy that is NaN. *)
Definition nan_energy_record : tsv := set_energy_j (Num NaN) throttle_record.

(** A power reading whose value is beyond the range of a number: the
    literal [1e999] is read as [Infinity]. *)
Definition infinite_power_reading (site : string) (ts : Q) : Power.In.t :=
  {| Power.In.ts := Num (Fin ts); Power.In.timestamp := Undefined;
     Power.In.time := Undefined; Power.In.t_ := Undefined;
     Power.In.site_id := Some site; Power.In.machine_id := None;
     Power.In.node_id := None;
     Power.In.power_w := RNum PInf; Power.In.power := RUndefined;
     Power.In.watts := RUndefined; Power.In.watt := RUndefined;
     Power.In.power_watts := RUndefined; Power.In.pdu_power := RUndefined |}.

Definition usage_reading (site : string) (ts : Q) (cpu gpu : raw) : Usage.In.t :=
  {| Usage.In.start_time := Undefined; Usage.In.time := Undefined;
     Usage.In.ts := Num (Fin ts); Usage.In.end_time := Undefined;
     Usage.In.machine_id := None; Usage.In.site_id := Some site;
     Usage.In.average_usage := None;
     Usage.In.cpu_util := cpu; Usage.In.assigned_memory := RUndefined;
     Usage.In.mem_util := RUndefined; Usage.In.gpu_util := gpu;
     Usage.In.type := RUndefined; Usage.In.event_type := RUndefined |}.

(** ** Signs and caps *)



(** The violations list holds an entry of the type. *)
Definition has_violation (ty : string) (vs : list Policy.violation) : bool :=
  existsb (fun v => String.eqb (Policy.type v) ty) vs.

(** Neither cap that throttles is exceeded by a reading the record has. *)
Definition within_throttling_caps (record : tsv) (policy : Policy.Config.t) : Prop :=
  (forall c p, Policy.Config.energy_cap_w policy = Num c ->
               power_w record = Num p -> gt p c = false)
  /\ (forall c h, Policy.Config.thermal_cap_w policy = Num c ->
                  thermal_headroom_w record = Num h -> lt h c = false).

(** A record of the policy tests whose only excess is the grid stress. *)
Definition grid_stress_record : tsv :=
  {| cpu_core_seconds := Null; gpu_seconds := Null;
     cpu_util := Num (Fin (1 # 2)); gpu_util := Null;
     window_duration_s := Num (Fin 300);
     validated_steps := Null; timesteps := Null;
     power_w := Num (Fin 2000); energy_j := Num (Fin 1000);
     thermal_headroom_w := Null; grid_stress_index := Num (Fin (9 # 10));
     work_units := Num (Fin 100); work_units_mode := Some "infra"%string;
     validated_work_units := Num (Fin 100); enst := Num (Fin (1 # 10));
     _policy_throttled := false; _throttle_factor := Undefined;
     _migrate_flag := None |}.

(** A power cap of 2500 W and a grid stress cap of 0.7. *)
Definition grid_stress_policy : Policy.Config.t :=
  {| Policy.Config.energy_cap_w := Num (Fin 2500);
     Policy.Config.thermal_cap_w := Null;
     Policy.Config.grid_stress_cap := Num (Fin (7 # 10));
     Policy.Config.throttle_factor := Num (Fin (1 # 2)) |}.


(** ** The whole TSV record

    [tsv] holds the measurements of a window.  The price, policy-impact and
    leaderboard code read more of the same object: the site and cluster of
    the window, its time range, its PUE, its electricity price, its data
    source and, once a policy has been applied, the evaluation attached to
    it.  [Tsv.t] is the record with these properties; [site_id] is a
    string. *)

Module Tsv.
Record t : Type := {
  record : tsv;
  site_id : string;
  cluster_id : option string;
  ts_start : field;
  ts_end : field;
  pue : field;
  price_usd_per_mwh : field;
  data_source : option string;
  _policy_evaluation : option Policy.result
}.

(** A copy of the object with new measurements. *)
Definition set_record (v : tsv) (r : t) : t :=
  {| record := v;
     site_id := site_id r;
     cluster_id := cluster_id r;
     ts_start := ts_start r;
     ts_end := ts_end r;
     pue := pue r;
     price_usd_per_mwh := price_usd_per_mwh r;
     data_source := data_source r;
     _policy_evaluation := _policy_evaluation r |}.

Definition set_policy_evaluation (v : option Policy.result) (r : t) : t :=
  {| record := record r;
     site_id := site_id r;
     cluster_id := cluster_id r;
     ts_start := ts_start r;
     ts_end := ts_end r;
     pue := pue r;
     price_usd_per_mwh := price_usd_per_mwh r;
     data_source := data_source r;
     _policy_evaluation := v |}.
End Tsv.

(** ** Prices (src/cost/index.js) *)

Module Pricing.
Import Cost.

Record resolved : Type := { price : num; defaulted : bool }.

(** [resolvePrice(record, defaultPrice = DEFAULT_PRICE_USD_PER_MWH)]. *)
Definition resolvePrice (record : Tsv.t) (defaultPrice : option num)
  : resolved :=
  let defaultPrice := Enst.default defaultPrice DEFAULT_PRICE_USD_PER_MWH in
  match Tsv.price_usd_per_mwh record with
  | Num p => {| price := p; defaulted := false |}
  | Undefined | Null => {| price := defaultPrice; defaulted := true |}
  end.

Record average : Type := { avgPrice : num; defaultedCount : Z }.

(** The body of the loop of [computeWeightedAveragePrice], on the three
    running variables [totalEnergy], [weightedPriceSum] and
    [defaultedCount]. *)
Definition price_loop (defaultPrice : num) (acc : num * num * Z)
    (record : Tsv.t) : num * num * Z :=
  let '(totalEnergy, weightedPriceSum, defaultedCount) := acc in
  let energyJ := or_num (energy_j (Tsv.record record)) (Fin 0) in
  let r := resolvePrice record (Some defaultPrice) in
  let defaultedCount :=
    if defaulted r then (defaultedCount + 1)%Z else defaultedCount in
  (add totalEnergy energyJ,
   add weightedPriceSum (mul energyJ (price r)),
   defaultedCount).

(** [computeWeightedAveragePrice(records,
    defaultPrice = DEFAULT_PRICE_USD_PER_MWH)]. *)
Definition computeWeightedAveragePrice (records : list Tsv.t)
    (defaultPrice : option num) : average :=
  let defaultPrice := Enst.default defaultPrice DEFAULT_PRICE_USD_PER_MWH in
  let '(totalEnergy, weightedPriceSum, defaultedCount) :=
    fold_left (price_loop defaultPrice) records (Fin 0, Fin 0, 0%Z) in
  let avgPrice :=
    if gt totalEnergy (Fin 0) then div weightedPriceSum totalEnergy
    else defaultPrice in
  {| avgPrice := avgPrice; defaultedCount := defaultedCount |}.

End Pricing.

(** A record that adds nothing to an energy total: its [energy_j] is absent,
    zero or NaN. *)
Definition without_energy (r : Tsv.t) : Prop :=
  or_num (energy_j (Tsv.record r)) (Fin 0) = Fin 0.

(** A record of site-a as it comes from the ENST stage, with its price. *)
Definition priced (record : tsv) (price : field) : Tsv.t :=
  {| Tsv.record := record;
     Tsv.site_id := "site-a";
     Tsv.cluster_id := None;
     Tsv.ts_start := Undefined;
     Tsv.ts_end := Undefined;
     Tsv.pue := Undefined;
     Tsv.price_usd_per_mwh := price;
     Tsv.data_source := None;
     Tsv._policy_evaluation := None |}.

(** ** Policy over a stream and its impact (src/cost/index.js) *)

Module PolicyStream.
Import Policy.

(** The [policy] object a caller passes: a property it leaves out is
    [None]. *)
Module Options.
Record t : Type := {
  energy_cap_w : option field;
  thermal_cap_w : option field;
  grid_stress_cap : option field;
  throttle_factor : option field
}.
End Options.

(** One property of [{ ...DEFAULT_POLICY, ...policy }]. *)
Definition spread (d : field) (o : option field) : field :=
  match o with Some v => v | None => d end.

(** [{ ...DEFAULT_POLICY, ...policy }]. *)
Definition mergedPolicy (policy : Options.t) : Config.t :=
  {| Config.energy_cap_w :=
       spread (Config.energy_cap_w DEFAULT_POLICY) (Options.energy_cap_w policy);
     Config.thermal_cap_w :=
       spread (Config.thermal_cap_w DEFAULT_POLICY) (Options.thermal_cap_w policy);
     Config.grid_stress_cap :=
       spread (Config.grid_stress_cap DEFAULT_POLICY)
              (Options.grid_stress_cap policy);
     Config.throttle_factor :=
       spread (Config.throttle_factor DEFAULT_POLICY)
              (Options.throttle_factor policy) |}.

(** The body of the loop of [applyPolicyStream]: [applyThrottle] copies the
    record, so the price travels with it. *)
Definition applyPolicyStream_step (mergedPolicy : Config.t) (record : Tsv.t)
  : Tsv.t :=
  let evalResult := evaluatePolicy (Tsv.record record) mergedPolicy in
  let processed :=
    Tsv.set_record (applyThrottle (Tsv.record record) evalResult) record in
  Tsv.set_policy_evaluation (Some evalResult) processed.

(** [applyPolicyStream(records, policy)], as the list of the records it
    yields. *)
Definition applyPolicyStream (records : list Tsv.t) (policy : Options.t)
  : list Tsv.t :=
  map (applyPolicyStream_step (mergedPolicy policy)) records.

End PolicyStream.

Module Impact.
Import Cost Pricing.

Module Summary.
Record t : Type := {
  enst_units_per_j : num;
  energy_j : num;
  work_units : num;
  price_usd_per_mwh : num;
  cost_usd : num;
  record_count : num
}.
End Summary.

Module Delta.
Record t : Type := {
  enst_units_per_j : num;
  enst_pct : num;
  energy_j : num;
  energy_j_pct : num;
  work_units : num;
  work_units_pct : num;
  cost_usd : num;
  cost_usd_pct : num
}.
End Delta.

(** The [violations] counter object: properties in insertion order. *)
Definition counters : Type := list (string * num).

(** [violations[type]]. *)
Fixpoint get_count (violations : counters) (type : string) : field :=
  match violations with
  | [] => Undefined
  | (k, v) :: rest => if String.eqb type k then Num v else get_count rest type
  end.

(** [violations[type] = v]. *)
Fixpoint set_count (violations : counters) (type : string) (v : num)
  : counters :=
  match violations with
  | [] => [(type, v)]
  | (k, v0) :: rest =>
      if String.eqb type k then (k, v) :: rest
      else (k, v0) :: set_count rest type v
  end.

(** [violations[v.type] = (violations[v.type] || 0) + 1]. *)
Definition count_violation (violations : counters) (v : Policy.violation)
  : counters :=
  set_count violations (Policy.type v)
    (add (or_num (get_count violations (Policy.type v)) (Fin 0)) (Fin 1)).

Record t : Type := {
  baseline : Summary.t;
  policy : Summary.t;
  delta : Delta.t;
  delta_cost_usd_per_1e9_work_units : field;
  violations : counters;
  throttled_windows : num;
  migrate_flagged_windows : num
}.

(** [records.reduce((sum, r) => sum + (r.<property> || 0), 0)]. *)
Definition sum_or_zero (property : tsv -> field) (records : list Tsv.t)
  : num :=
  fold_left (fun sum r => add sum (or_num (property (Tsv.record r)) (Fin 0)))
            records (Fin 0).

(** [base > 0 ? ((value - base) / base) * 100 : 0]. *)
Definition pct (value base : num) : num :=
  if gt base (Fin 0) then mul (div (sub value base) base) (Fin 100) else Fin 0.

(** [computePolicyImpact(baselineRecords, policyRecords, options = {})]. *)
Definition computePolicyImpact (baselineRecords policyRecords : list Tsv.t)
    (defaultPriceUsdPerMwh : option num) : t :=
  let defaultPriceUsdPerMwh :=
    Enst.default defaultPriceUsdPerMwh DEFAULT_PRICE_USD_PER_MWH in
  let baselineEnergy := sum_or_zero energy_j baselineRecords in
  let baselineWork := sum_or_zero work_units baselineRecords in
  let baselineEnst :=
    if gt baselineEnergy (Fin 0) then div baselineWork baselineEnergy
    else Fin 0 in
  let policyEnergy := sum_or_zero energy_j policyRecords in
  let policyWork := sum_or_zero work_units policyRecords in
  let policyEnst :=
    if gt policyEnergy (Fin 0) then div policyWork policyEnergy else Fin 0 in
  let baselinePrice :=
    avgPrice (computeWeightedAveragePrice baselineRecords
                (Some defaultPriceUsdPerMwh)) in
  let policyPrice :=
    avgPrice (computeWeightedAveragePrice policyRecords
                (Some defaultPriceUsdPerMwh)) in
  let baselineCostUsd := computeCostUsd (Num baselineEnergy) (Num baselinePrice) in
  let policyCostUsd := computeCostUsd (Num policyEnergy) (Num policyPrice) in
  let baselineCostPer1e9 :=
    computeCostForWork REFERENCE_WORK_UNITS (Num baselineEnst)
                       (Num baselinePrice) in
  let policyCostPer1e9 :=
    computeCostForWork REFERENCE_WORK_UNITS (Num policyEnst) (Num policyPrice) in
  let deltaCostPer1e9 :=
    if (isFinite baselineCostPer1e9 && isFinite policyCostPer1e9)%bool
    then Num (sub policyCostPer1e9 baselineCostPer1e9)
    else Null in
  let throttledCount :=
    length_num (filter (fun r => _policy_throttled (Tsv.record r))
                       policyRecords) in
  let migrateCount :=
    length_num (filter (fun r => match _migrate_flag (Tsv.record r) with
                                 | Some b => b
                                 | None => false
                                 end)
                       policyRecords) in
  let violations :=
    fold_left
      (fun violations record =>
         match Tsv._policy_evaluation record with
         | Some evaluation =>
             fold_left count_violation (Policy.violations evaluation) violations
         | None => violations
         end)
      policyRecords
      [("energy_cap"%string, Fin 0); ("thermal_cap"%string, Fin 0);
       ("grid_stress"%string, Fin 0)] in
  {| baseline :=
       {| Summary.enst_units_per_j := baselineEnst;
          Summary.energy_j := baselineEnergy;
          Summary.work_units := baselineWork;
          Summary.price_usd_per_mwh := baselinePrice;
          Summary.cost_usd := baselineCostUsd;
          Summary.record_count := length_num baselineRecords |};
     policy :=
       {| Summary.enst_units_per_j := policyEnst;
          Summary.energy_j := policyEnergy;
          Summary.work_units := policyWork;
          Summary.price_usd_per_mwh := policyPrice;
          Summary.cost_usd := policyCostUsd;
          Summary.record_count := length_num policyRecords |};
     delta :=
       {| Delta.enst_units_per_j := sub policyEnst baselineEnst;
          Delta.enst_pct := pct policyEnst baselineEnst;
          Delta.energy_j := sub policyEnergy baselineEnergy;
          Delta.energy_j_pct := pct policyEnergy baselineEnergy;
          Delta.work_units := sub policyWork baselineWork;
          Delta.work_units_pct := pct policyWork baselineWork;
          Delta.cost_usd := sub policyCostUsd baselineCostUsd;
          Delta.cost_usd_pct := pct policyCostUsd baselineCostUsd |};
     delta_cost_usd_per_1e9_work_units := deltaCostPer1e9;
     violations := violations;
     throttled_windows := throttledCount;
     migrate_flagged_windows := migrateCount |}.

(** The replay of cli/replay.js: the policy is applied to the baseline
    records and the impact compares the two lists. *)
Definition replay (records : list Tsv.t) (policy : PolicyStream.Options.t)
    (defaultPriceUsdPerMwh : option num) : t :=
  computePolicyImpact records (PolicyStream.applyPolicyStream records policy)
                      defaultPriceUsdPerMwh.

End Impact.

(** A record that no policy has touched yet. *)
Definition without_policy_metadata (r : Tsv.t) : Prop :=
  _policy_throttled (Tsv.record r) = false
  /\ _migrate_flag (Tsv.record r) = None.

(** The evaluation of a record under the policy a caller passes. *)
Definition evaluation_of (policy : PolicyStream.Options.t) (r : Tsv.t)
  : Policy.result :=
  Policy.evaluatePolicy (Tsv.record r) (PolicyStream.mergedPolicy policy).

(** How many violations of one type the evaluations of the records list. *)
Definition violations_of_type (type : string)
    (policy : PolicyStream.Options.t) (records : list Tsv.t) : num :=
  length_num
    (filter (fun v => String.eqb (Policy.type v) type)
            (flat_map (fun r => Policy.violations (evaluation_of policy r))
                      records)).

(** The policy of the replay tests: a power cap of 2500 W and a grid stress
    cap of 0.7. *)
Definition replay_policy : PolicyStream.Options.t :=
  {| PolicyStream.Options.energy_cap_w := Some (Num (Fin 2500));
     PolicyStream.Options.thermal_cap_w := None;
     PolicyStream.Options.grid_stress_cap := Some (Num (Fin (7 # 10)));
     PolicyStream.Options.throttle_factor := None |}.

(** Two windows of the replay tests: one over the power cap, one over the
    grid stress cap only. *)
Definition replay_windows : list Tsv.t :=
  [priced throttle_record (Num (Fin 40)); priced grid_stress_record Null].

(** A record within both caps that throttle, with a reading for each: 2000 W
    and a thermal headroom of 60000 W; its grid stress is over the cap. *)
Definition cool_record : tsv :=
  {| cpu_core_seconds := Null; gpu_seconds := Null;
     cpu_util := Num (Fin (1 # 2)); gpu_util := Null;
     window_duration_s := Num (Fin 300);
     validated_steps := Null; timesteps := Null;
     power_w := Num (Fin 2000); energy_j := Num (Fin 600000);
     thermal_headroom_w := Num (Fin 60000);
     grid_stress_index := Num (Fin (9 # 10));
     work_units := Num (Fin 15000); work_units_mode := Some "infra"%string;
     validated_work_units := Num (Fin 15000); enst := Num (Fin (1 # 40));
     _policy_throttled := false; _throttle_factor := Undefined;
     _migrate_flag := None |}.

(** A power cap of 2500 W, a thermal cap of 50000 W and a grid stress cap of
    0.7, and two windows that stay within the first two. *)
Definition capped_policy : PolicyStream.Options.t :=
  {| PolicyStream.Options.energy_cap_w := Some (Num (Fin 2500));
     PolicyStream.Options.thermal_cap_w := Some (Num (Fin 50000));
     PolicyStream.Options.grid_stress_cap := Some (Num (Fin (7 # 10)));
     PolicyStream.Options.throttle_factor := None |}.

Definition capped_windows : list Tsv.t :=
  [priced cool_record (Num (Fin 40)); priced grid_stress_record Null].

(** A usage record that counts as a job or task event. *)
Definition is_job_event (r : Usage.In.t) : bool :=
  match Usage.In.type r, Usage.In.event_type r with
  | RUndefined, RUndefined => false
  | _, _ => true
  end.

Definition job_event (site : string) (ts : Q) : Usage.In.t :=
  {| Usage.In.start_time := Undefined; Usage.In.time := Undefined;
     Usage.In.ts := Num (Fin ts); Usage.In.end_time := Undefined;
     Usage.In.machine_id := None; Usage.In.site_id := Some site;
     Usage.In.average_usage := None;
     Usage.In.cpu_util := RUndefined; Usage.In.assigned_memory := RUndefined;
     Usage.In.mem_util := RUndefined; Usage.In.gpu_util := RUndefined;
     Usage.In.type := RStr "SUBMIT"; Usage.In.event_type := RUndefined |}.

(** A power record whose power value does not parse. *)
Definition unusable_reading (site : string) (ts : Q) : Power.In.t :=
  {| Power.In.ts := Num (Fin ts); Power.In.timestamp := Undefined;
     Power.In.time := Undefined; Power.In.t_ := Undefined;
     Power.In.site_id := Some site; Power.In.machine_id := None;
     Power.In.node_id := None;
     Power.In.power_w := RStr "n/a"; Power.In.power := RUndefined;
     Power.In.watts := RUndefined; Power.In.watt := RUndefined;
     Power.In.power_watts := RUndefined; Power.In.pdu_power := RUndefined |}.

(** Two power readings one minute apart in one window. *)
Definition power_readings : list Power.In.t :=
  [power_reading "site-a" 1700000000 2000;
   power_reading "site-a" 1700000060 2200].

(** ** The leaderboard (src/enst_compute/index.js) *)

(** The [sites] map: a [Map] keyed by the string [`${siteId}:${clusterId}`],
    as the list of its entries in insertion order. *)

Set Implicit Arguments.

Module SiteMap.
Section Map.
Variable V : Type.

Definition t : Type := list (string * V).

Fixpoint get (m : t) (k : string) : option V :=
  match m with
  | [] => None
  | (k', v) :: m' => if string_dec k k' then Some v else get m' k
  end.

Definition has (m : t) (k : string) : bool :=
  match get m k with Some _ => true | None => false end.

(** [set] keeps the position of an existing key and appends a new one. *)
Fixpoint set (m : t) (k : string) (v : V) : t :=
  match m with
  | [] => [(k, v)]
  | (k', v') :: m' =>
      if string_dec k k' then (k', v) :: m' else (k', v') :: set m' k v
  end.

Definition values (m : t) : list V := map snd m.

End Map.
End SiteMap.

(** [array.sort(compare)]: the sort of the language is stable, and an
    element moves in front of another only when the comparator is positive.
    For a comparator that is consistent on the array this is the result of
    every conforming implementation. *)
Module JSArray.
Section Sort.
Variable A : Type.
Variable compare : A -> A -> num.

Fixpoint insert (x : A) (l : list A) : list A :=
  match l with
  | [] => [x]
  | y :: l' => if gt (compare x y) (Fin 0) then y :: insert x l' else x :: l
  end.

Fixpoint sort (l : list A) : list A :=
  match l with
  | [] => []
  | x :: l' => insert x (sort l')
  end.

End Sort.

(** [array[i]] for a number [i]. *)
Definition at_index (l : list num) (i : num) : field :=
  match i with
  | Fin q =>
      if ((Qden q =? 1)%positive && (0 <=? Qnum q)%Z)%bool
      then match nth_error l (Z.to_nat (Qnum q)) with
           | Some v => Num v
           | None => Undefined
           end
      else Undefined
  | _ => Undefined
  end.

End JSArray.

Unset Implicit Arguments.

(** [buildNotes(options)] of src/cost/index.js. *)
Definition buildNotes (priceDefaulted : bool) (dataSource : option string)
  : string :=
  let parts := [] in
  let parts :=
    if priceDefaulted then parts ++ ["missing_price_defaulted"%string]
    else parts in
  let parts :=
    match dataSource with
    | Some s =>
        if String.eqb s "" then parts
        else parts ++ [("data_source=" ++ s)%string]
    | None => parts
    end in
  String.concat ";" parts.

Module Leaderboard.
Import Cost Pricing.

(** The options of the constructor. *)
Module Options.
Record t : Type := {
  workUnitsMode : option string;
  defaultPriceUsdPerMwh : field
}.
End Options.

Module Window.
Record t : Type := {
  ts_start : field;
  ts_end : field;
  energy_j : field;
  work_units : field;
  enst : field;
  power_w : field
}.
End Window.

Module PriceSample.
Record t : Type := { price : num; energy : num }.
End PriceSample.

Module Site.
Record t : Type := {
  site_id : string;
  cluster_id : string;
  total_energy_j : num;
  total_work_units : num;
  window_count : Z;
  windows : list Window.t;
  pue_samples : list num;
  thermal_headroom_samples : list num;
  grid_stress_samples : list num;
  price_samples : list PriceSample.t;
  price_defaulted_count : Z;
  data_sources : list string;
  work_units_mode : string
}.
End Site.

Module Entry.
Record t : Type := {
  window_start : field;
  window_end : field;
  site_id : string;
  cluster_id : string;
  energy_j : num;
  work_units : num;
  work_units_mode : string;
  enst_units_per_j : num;
  pue : field;
  thermal_headroom_w : field;
  grid_stress_index : field;
  price_usd_per_mwh : num;
  cost_usd : num;
  notes : string
}.
End Entry.

Record t : Type := {
  sites : SiteMap.t Site.t;
  workUnitsMode : string;
  defaultPriceUsdPerMwh : num
}.

(** [a || d] for an optional string: the empty string is falsy. *)
Definition or_string (a : option string) (d : string) : string :=
  match a with
  | Some s => if String.eqb s "" then d else s
  | None => d
  end.

(** [new EnstLeaderboard(options = {})]. *)
Definition new (options : Options.t) : t :=
  {| sites := [];
     workUnitsMode := or_string (Options.workUnitsMode options) "infra";
     defaultPriceUsdPerMwh :=
       or_num (Options.defaultPriceUsdPerMwh options)
              DEFAULT_PRICE_USD_PER_MWH |}.

(** [`${siteId}:${clusterId}`]. *)
Definition site_key (record : Tsv.t) : string :=
  let siteId := Tsv.site_id record in
  let clusterId := or_string (Tsv.cluster_id record) "default" in
  (siteId ++ ":" ++ clusterId)%string.

(** The object [addRecord] stores for a key it has not seen. *)
Definition new_site (b : t) (record : Tsv.t) : Site.t :=
  {| Site.site_id := Tsv.site_id record;
     Site.cluster_id := or_string (Tsv.cluster_id record) "default";
     Site.total_energy_j := Fin 0;
     Site.total_work_units := Fin 0;
     Site.window_count := 0;
     Site.windows := [];
     Site.pue_samples := [];
     Site.thermal_headroom_samples := [];
     Site.grid_stress_samples := [];
     Site.price_samples := [];
     Site.price_defaulted_count := 0;
     Site.data_sources := [];
     Site.work_units_mode :=
       or_string (work_units_mode (Tsv.record record)) (workUnitsMode b) |}.

(** [if (v !== null && v !== undefined) samples.push(v)]. *)
Definition push_present (samples : list num) (v : field) : list num :=
  match v with Num n => samples ++ [n] | _ => samples end.

(** [if (v !== null && v !== undefined) total += v]. *)
Definition add_present (total : num) (v : field) : num :=
  match v with Num n => add total n | _ => total end.

(** [set.add(s)]. *)
Definition set_add (s : string) (set : list string) : list string :=
  if existsb (String.eqb s) set then set else set ++ [s].

(** The updates [addRecord] makes to the site of the record. *)
Definition update_site (b : t) (site : Site.t) (record : Tsv.t) : Site.t :=
  let r := Tsv.record record in
  let resolved := resolvePrice record (Some (defaultPriceUsdPerMwh b)) in
  {| Site.site_id := Site.site_id site;
     Site.cluster_id := Site.cluster_id site;
     Site.total_energy_j := add_present (Site.total_energy_j site) (energy_j r);
     Site.total_work_units :=
       add_present (Site.total_work_units site) (work_units r);
     Site.window_count := (Site.window_count site + 1)%Z;
     Site.windows :=
       Site.windows site
       ++ [ {| Window.ts_start := Tsv.ts_start record;
               Window.ts_end := Tsv.ts_end record;
               Window.energy_j := energy_j r;
               Window.work_units := work_units r;
               Window.enst := enst r;
               Window.power_w := power_w r |} ];
     Site.pue_samples := push_present (Site.pue_samples site) (Tsv.pue record);
     Site.thermal_headroom_samples :=
       push_present (Site.thermal_headroom_samples site) (thermal_headroom_w r);
     Site.grid_stress_samples :=
       push_present (Site.grid_stress_samples site) (grid_stress_index r);
     Site.price_samples :=
       Site.price_samples site
       ++ [ {| PriceSample.price := price resolved;
               PriceSample.energy := or_num (energy_j r) (Fin 0) |} ];
     Site.price_defaulted_count :=
       if defaulted resolved then (Site.price_defaulted_count site + 1)%Z
       else Site.price_defaulted_count site;
     Site.data_sources :=
       match Tsv.data_source record with
       | Some s =>
           if String.eqb s "" then Site.data_sources site
           else set_add s (Site.data_sources site)
       | None => Site.data_sources site
       end;
     Site.work_units_mode := Site.work_units_mode site |}.

(** [addRecord(record)]. *)
Definition addRecord (b : t) (record : Tsv.t) : t :=
  let key := site_key record in
  let sites1 :=
    if SiteMap.has (sites b) key then sites b
    else SiteMap.set (sites b) key (new_site b record) in
  let sites2 :=
    match SiteMap.get sites1 key with
    | Some site => SiteMap.set sites1 key (update_site b site record)
    | None => sites1
    end in
  {| sites := sites2;
     workUnitsMode := workUnitsMode b;
     defaultPriceUsdPerMwh := defaultPriceUsdPerMwh b |}.

(** Feeding a finite stream of records, first to last. *)
Definition feed (b : t) (records : list Tsv.t) : t :=
  fold_left addRecord records b.

(** [samples.length > 0 ? samples.reduce((a, b) => a + b, 0) / samples.length
    : null]. *)
Definition mean_or_null (samples : list num) : field :=
  if (0 <? List.length samples)%nat
  then Num (div (fold_left add samples (Fin 0)) (length_num samples))
  else Null.

(** The running sums of the price loop of [getLeaderboard]. *)
Definition price_sums (samples : list PriceSample.t) : num * num :=
  fold_left
    (fun '(totalPriceEnergy, weightedPriceSum) s =>
       (add totalPriceEnergy (PriceSample.energy s),
        add weightedPriceSum
            (mul (PriceSample.price s) (PriceSample.energy s))))
    samples (Fin 0, Fin 0).

(** [site.windows.sort((a, b) => a.ts_start - b.ts_start)]. *)
Definition sort_windows (windows : list Window.t) : list Window.t :=
  JSArray.sort
    (fun a b => sub (ToNumber (Window.ts_start a)) (ToNumber (Window.ts_start b)))
    windows.

(** The entry [getLeaderboard] pushes for one site. *)
Definition entry_of (b : t) (site : Site.t) : Entry.t :=
  let enst :=
    if gt (Site.total_energy_j site) (Fin 0)
    then div (Site.total_work_units site) (Site.total_energy_j site)
    else Fin 0 in
  let meanPue := mean_or_null (Site.pue_samples site) in
  let meanThermalHeadroom := mean_or_null (Site.thermal_headroom_samples site) in
  let meanGridStress := mean_or_null (Site.grid_stress_samples site) in
  let '(totalPriceEnergy, weightedPriceSum) :=
    price_sums (Site.price_samples site) in
  let avgPrice :=
    if gt totalPriceEnergy (Fin 0) then div weightedPriceSum totalPriceEnergy
    else defaultPriceUsdPerMwh b in
  let costUsd := computeCostUsd (Num (Site.total_energy_j site)) (Num avgPrice) in
  let dataSourceStr :=
    if (0 <? List.length (Site.data_sources site))%nat
    then Some (String.concat "," (Site.data_sources site))
    else None in
  let notes :=
    buildNotes (0 <? Site.price_defaulted_count site)%Z dataSourceStr in
  let sortedWindows := sort_windows (Site.windows site) in
  let windowStart :=
    match sortedWindows with
    | w :: _ => Window.ts_start w
    | [] => Num (Fin 0)
    end in
  let windowEnd :=
    match sortedWindows with
    | w :: rest => Window.ts_end (last rest w)
    | [] => Num (Fin 0)
    end in
  {| Entry.window_start := windowStart;
     Entry.window_end := windowEnd;
     Entry.site_id := Site.site_id site;
     Entry.cluster_id := Site.cluster_id site;
     Entry.energy_j := Site.total_energy_j site;
     Entry.work_units := Site.total_work_units site;
     Entry.work_units_mode := Site.work_units_mode site;
     Entry.enst_units_per_j := enst;
     Entry.pue := meanPue;
     Entry.thermal_headroom_w := meanThermalHeadroom;
     Entry.grid_stress_index := meanGridStress;
     Entry.price_usd_per_mwh := avgPrice;
     Entry.cost_usd := costUsd;
     Entry.notes := notes |}.

(** [getLeaderboard()]: one entry per site in the insertion order of the
    map, then sorted by [b.enst_units_per_j - a.enst_units_per_j]. *)
Definition getLeaderboard (b : t) : list Entry.t :=
  let entries := map (entry_of b) (SiteMap.values (sites b)) in
  JSArray.sort
    (fun a b => sub (Entry.enst_units_per_j b) (Entry.enst_units_per_j a))
    entries.

(** The leaderboard after [getLeaderboard()] has run: the windows of every
    site are sorted in place. *)
Definition after_getLeaderboard (b : t) : t :=
  {| sites :=
       map (fun '(k, site) =>
              (k,
               {| Site.site_id := Site.site_id site;
                  Site.cluster_id := Site.cluster_id site;
                  Site.total_energy_j := Site.total_energy_j site;
                  Site.total_work_units := Site.total_work_units site;
                  Site.window_count := Site.window_count site;
                  Site.windows := sort_windows (Site.windows site);
                  Site.pue_samples := Site.pue_samples site;
                  Site.thermal_headroom_samples :=
                    Site.thermal_headroom_samples site;
                  Site.grid_stress_samples := Site.grid_stress_samples site;
                  Site.price_samples := Site.price_samples site;
                  Site.price_defaulted_count := Site.price_defaulted_count site;
                  Site.data_sources := Site.data_sources site;
                  Site.work_units_mode := Site.work_units_mode site |}))
           (sites b);
     workUnitsMode := workUnitsMode b;
     defaultPriceUsdPerMwh := defaultPriceUsdPerMwh b |}.

Module Stats.
Record t : Type := {
  site_count : num;
  total_energy_j : num;
  total_work_units : num;
  global_enst : num;
  total_cost_usd : field;
  min_enst : field;
  max_enst : field;
  median_enst : field;
  p90_enst : field
}.
End Stats.

(** [values.length > 0 ? values[i] : 0]. *)
Definition at_or_zero (values : list num) (i : num) : field :=
  if (0 <? List.length values)%nat then JSArray.at_index values i
  else Num (Fin 0).

(** [computeSummaryStats(leaderboard)]: the properties the empty case leaves
    out are [Undefined]. *)
Definition computeSummaryStats (leaderboard : t) : Stats.t :=
  let entries := getLeaderboard leaderboard in
  if (List.length entries =? 0)%nat then
    {| Stats.site_count := Fin 0;
       Stats.total_energy_j := Fin 0;
       Stats.total_work_units := Fin 0;
       Stats.global_enst := Fin 0;
       Stats.total_cost_usd := Undefined;
       Stats.min_enst := Undefined;
       Stats.max_enst := Undefined;
       Stats.median_enst := Undefined;
       Stats.p90_enst := Undefined |}
  else
    let totalEnergy :=
      fold_left (fun sum e => add sum (Entry.energy_j e)) entries (Fin 0) in
    let totalWork :=
      fold_left (fun sum e => add sum (Entry.work_units e)) entries (Fin 0) in
    let globalEnst :=
      if gt totalEnergy (Fin 0) then div totalWork totalEnergy else Fin 0 in
    let totalCostUsd :=
      fold_left (fun sum e => add sum (Entry.cost_usd e)) entries (Fin 0) in
    let enstValues :=
      filter (fun v => gt v (Fin 0)) (map Entry.enst_units_per_j entries) in
    let enstValues := JSArray.sort (fun a b => sub a b) enstValues in
    {| Stats.site_count := length_num entries;
       Stats.total_energy_j := totalEnergy;
       Stats.total_work_units := totalWork;
       Stats.global_enst := globalEnst;
       Stats.total_cost_usd := Num totalCostUsd;
       Stats.min_enst := at_or_zero enstValues (Fin 0);
       Stats.max_enst :=
         at_or_zero enstValues (sub (length_num enstValues) (Fin 1));
       Stats.median_enst :=
         at_or_zero enstValues (floor (div (length_num enstValues) (Fin 2)));
       Stats.p90_enst :=
         at_or_zero enstValues
           (floor (mul (length_num enstValues) (Fin (9 # 10)))) |}.

End Leaderboard.

(** ** The leaderboard as a fold over the sites map

    [addRecord] finds or creates the site of the record's key, then updates
    it; what it creates depends on the record that opens the site. *)

Module SiteFold.
Section Fold.
Variables R W : Type.
Variable key_of : R -> string.
Variable fresh : R -> W.
Variable upd : W -> R -> W.

Definition has_key (k : string) (r : R) : bool :=
  if string_dec (key_of r) k then true else false.

(** The shape of [addRecord]. *)
Definition step (m : SiteMap.t W) (r : R) : SiteMap.t W :=
  let k := key_of r in
  let m1 := if SiteMap.has m k then m else SiteMap.set m k (fresh r) in
  match SiteMap.get m1 k with
  | Some w => SiteMap.set m1 k (upd w r)
  | None => m1
  end.

(** The site of a key after a stream: opened by the first record of the key
    and updated by all of them, in arrival order. *)
Definition bucket_of (k : string) (l : list R) : option W :=
  match filter (has_key k) l with
  | [] => None
  | r :: rs => Some (fold_left upd (r :: rs) (fresh r))
  end.
End Fold.
End SiteFold.

(** The key of a leaderboard entry. *)
Definition entry_key (e : Leaderboard.Entry.t) : string :=
  (Leaderboard.Entry.site_id e ++ ":" ++ Leaderboard.Entry.cluster_id e)%string.

(** The records of a stream that belong to a site. *)
Definition records_of (k : string) (l : list Tsv.t) : list Tsv.t :=
  filter (fun r => String.eqb (Leaderboard.site_key r) k) l.

(** [energy_j] and [work_units] of every record are absent or finite. *)
Definition finite_totals (l : list Tsv.t) : Prop :=
  Forall (fun r =>
            (forall x, energy_j (Tsv.record r) = Num x -> isFinite x = true)
            /\ (forall x, work_units (Tsv.record r) = Num x -> isFinite x = true))
         l.

(** The sum of the values of a property that are present. *)
Definition sum_present (property : tsv -> field) (l : list Tsv.t) : num :=
  fold_left (fun sum r => Leaderboard.add_present sum (property (Tsv.record r)))
            l (Fin 0).

(** Every window the leaderboard holds has a [ts_start] that converts to a
    number other than NaN. *)
Definition timed_windows (b : Leaderboard.t) : Prop :=
  Forall (fun site =>
            Forall (fun w => isNaN (ToNumber (Leaderboard.Window.ts_start w))
                             = false)
                   (Leaderboard.Site.windows site))
         (SiteMap.values (Leaderboard.sites b)).

(** A window of a site, starting at [ts], with 100 work units and the energy
    given. *)
Definition site_window (site : string) (ts energy : Q) : Tsv.t :=
  {| Tsv.record := set_energy_j (Num (Fin energy)) throttle_record;
     Tsv.site_id := site;
     Tsv.cluster_id := None;
     Tsv.ts_start := Num (Fin ts);
     Tsv.ts_end := Num (Fin (ts + 300000000));
     Tsv.pue := Undefined;
     Tsv.price_usd_per_mwh := Undefined;
     Tsv.data_source := None;
     Tsv._policy_evaluation := None |}.

(** Two windows of site-a, out of order, around one window of site-b. *)
Definition board_windows : list Tsv.t :=
  [site_window "site-a" 300000000 1000;
   site_window "site-b" 0 500;
   site_window "site-a" 0 1000].

Definition board_options : Leaderboard.Options.t :=
  {| Leaderboard.Options.workUnitsMode := None;
     Leaderboard.Options.defaultPriceUsdPerMwh := Undefined |}.

(** * Properties *)

Ltac case_ifs :=
  repeat match goal with
         | |- context [if ?b then _ else _] => destruct b eqn:?
         end.

(** ** Numbers *)

Lemma le_Fin x y : le (Fin x) (Fin y) = true <-> x <= y.
Proof. simpl. rewrite Qle_alt. destruct (x ?= y); intuition congruence. Qed.

Lemma lt_Fin x y : lt (Fin x) (Fin y) = true <-> x < y.
Proof. simpl. rewrite Qlt_alt. destruct (x ?= y); intuition congruence. Qed.

Lemma le_Fin_false x y : le (Fin x) (Fin y) = false <-> y < x.
Proof. simpl. rewrite Qgt_alt. destruct (x ?= y); intuition congruence. Qed.

Lemma lt_Fin_false x y : lt (Fin x) (Fin y) = false <-> y <= x.
Proof.
  simpl. rewrite Qle_alt, <- (Qcompare_antisym x y).
  destruct (x ?= y); simpl; intuition congruence.
Qed.

Lemma fin_eq (x y : Q) : x == y -> fin x = fin y.
Proof. intros H. unfold fin. f_equal. apply Qred_complete, H. Qed.

Lemma Qcompare_Gt (x y : Q) : y < x -> (x ?= y) = Gt.
Proof. intros H. apply Qgt_alt. exact H. Qed.

Lemma div_Fin_pos (x y : Q) : 0 < y -> div (Fin x) (Fin y) = fin (x / y).
Proof. intros H. simpl. rewrite (Qcompare_Gt _ _ H). reflexivity. Qed.

Lemma add_comm (a b : num) : add a b = add b a.
Proof.
  destruct a, b; try reflexivity. cbn [add]. apply fin_eq. ring.
Qed.

Lemma add_assoc (a b c : num) : add (add a b) c = add a (add b c).
Proof.
  destruct a, b, c; try reflexivity. cbn [add fin].
  apply (f_equal Fin). apply Qred_complete. rewrite !Qred_correct. ring.
Qed.




Lemma add_0_r (a : num) : canonical a -> add a (Fin 0) = a.
Proof.
  destruct a; try reflexivity. cbn [add fin canonical]. intros H.
  apply (f_equal Fin). rewrite <- H at 2. apply Qred_complete. ring.
Qed.


Lemma lt_false_le (a b : num) :
  isNaN a = false -> isNaN b = false -> lt b a = false -> le a b = true.
Proof.
  destruct a as [| | |x], b as [| | |y]; try discriminate; try reflexivity.
  intros _ _ H. apply lt_Fin_false in H. apply le_Fin. exact H.
Qed.

Lemma lt_le (a b : num) : lt a b = true -> le a b = true.
Proof.
  destruct a as [| | |x], b as [| | |y]; try discriminate; try reflexivity.
  intros H. apply lt_Fin in H. apply le_Fin. lra.
Qed.

Lemma le_trans (a b c : num) : le a b = true -> le b c = true -> le a c = true.
Proof.
  destruct a as [| | |x], b as [| | |y], c as [| | |z];
    try discriminate; try reflexivity.
  rewrite !le_Fin. lra.
Qed.

Example StringToNumber_decimal : StringToNumber " 12.50 " = Fin (25 # 2).
Proof. reflexivity. Qed.

Example StringToNumber_exponent : StringToNumber "-1.5e3" = Fin (-1500).
Proof. reflexivity. Qed.

Example StringToNumber_hex : StringToNumber "0x1F" = Fin 31.
Proof. reflexivity. Qed.

Example StringToNumber_fraction_only : StringToNumber ".5" = Fin (1 # 2).
Proof. reflexivity. Qed.

Example StringToNumber_unparseable : StringToNumber "n/a" = NaN.
Proof. reflexivity. Qed.

Example StringToNumber_trailing_garbage : StringToNumber "12px" = NaN.
Proof. reflexivity. Qed.

Example StringToNumber_no_break_space :
  StringToNumber (String (ascii_of_nat 194) (String (ascii_of_nat 160) "12"))
  = Fin 12.
Proof. reflexivity. Qed.

Example StringToNumber_line_separator :
  StringToNumber
    ("7" ++ String (ascii_of_nat 226)
              (String (ascii_of_nat 128) (String (ascii_of_nat 168) "")))
  = Fin 7.
Proof. reflexivity. Qed.

Example StringToNumber_overflow : StringToNumber "1e400" = PInf.
Proof. vm_compute. reflexivity. Qed.

Example StringToNumber_negative_overflow : StringToNumber "-1e999" = NInf.
Proof. vm_compute. reflexivity. Qed.

Example StringToNumber_largest :
  StringToNumber "1.7976931348623157e308"
  = Fin (17976931348623157 * inject_Z (10 ^ 292)).
Proof. vm_compute. reflexivity. Qed.

Example StringToNumber_underflow : StringToNumber "1e-400" = Fin 0.
Proof. vm_compute. reflexivity. Qed.

Example StringToNumber_blank : StringToNumber "  " = Fin 0.
Proof. reflexivity. Qed.

(** ** Lists *)

Lemma fold_left_perm (A B : Type) (f : A -> B -> A) (l1 l2 : list B) :
  (forall a x y, f (f a x) y = f (f a y) x) ->
  Permutation l1 l2 -> forall a, fold_left f l1 a = fold_left f l2 a.
Proof.
  intros Hf HP. induction HP; intros a; cbn [fold_left].
  - reflexivity.
  - apply IHHP.
  - rewrite Hf. reflexivity.
  - rewrite IHHP1. apply IHHP2.
Qed.

Lemma add_right_comm (a x y : num) : add (add a x) y = add (add a y) x.
Proof. rewrite !add_assoc. f_equal. apply add_comm. Qed.

Lemma lt_trans (a b c : num) : lt a b = true -> lt b c = true -> lt a c = true.
Proof.
  destruct a as [| | |x], b as [| | |y], c as [| | |z];
    try discriminate; try reflexivity.
  rewrite !lt_Fin. lra.
Qed.

Lemma lt_asym (a b : num) : lt a b = true -> lt b a = true -> False.
Proof.
  destruct a as [| | |x], b as [| | |y]; try discriminate.
  rewrite !lt_Fin. lra.
Qed.

Lemma sorted_perm_eq (A : Type) (R : A -> A -> Prop) (l1 l2 : list A) :
  (forall x y, R x y -> R y x -> x = y) ->
  StronglySorted R l1 -> StronglySorted R l2 -> Permutation l1 l2 -> l1 = l2.
Proof.
  intros Hanti. revert l2.
  induction l1 as [|a l1 IH]; intros l2 H1 H2 HP.
  - apply Permutation_nil in HP. congruence.
  - destruct l2 as [|b l2];
      [apply Permutation_sym, Permutation_nil in HP; discriminate|].
    inversion H1 as [|? ? S1 F1]; inversion H2 as [|? ? S2 F2]; subst.
    rewrite Forall_forall in F1, F2.
    assert (a = b) as <-.
    { assert (Ha : In a (b :: l2))
        by (apply (Permutation_in _ HP); left; reflexivity).
      assert (Hb : In b (a :: l1))
        by (apply (Permutation_in _ (Permutation_sym HP)); left; reflexivity).
      destruct Ha as [<-|Ha]; [reflexivity|].
      destruct Hb as [->|Hb]; [reflexivity|].
      apply Hanti; auto. }
    f_equal. apply IH; auto. apply Permutation_cons_inv in HP. exact HP.
Qed.

Lemma filter_perm (A : Type) (f : A -> bool) (l1 l2 : list A) :
  Permutation l1 l2 -> Permutation (filter f l1) (filter f l2).
Proof.
  intros HP. induction HP; cbn [filter].
  - reflexivity.
  - destruct (f x); [apply perm_skip|]; exact IHHP.
  - destruct (f x), (f y); try reflexivity. apply perm_swap.
  - etransitivity; eauto.
Qed.

(** ** Work units and ENST *)

Section EnstFacts.
Import Enst.

(** The cases of [computeEnst]: the quotient when [energy_j] is a number
    greater than 0 and [work_units] is present (zero included); [null] when
    [energy_j] is absent, when [energy_j <= 0], and when [work_units] is
    absent; and NaN, the quotient by NaN, in the one case that is left: an
    [energy_j] that is NaN with [work_units] present. *)
Lemma computeEnst_cases (r : tsv) :
  (forall e w, energy_j r = Num e -> gt e (Fin 0) = true ->
               work_units r = Num w -> computeEnst r = Num (div w e))
  /\ (nullish (energy_j r) = true
      \/ (exists e, energy_j r = Num e /\ le e (Fin 0) = true)
      \/ nullish (work_units r) = true ->
      computeEnst r = Null)
  /\ (forall w, energy_j r = Num NaN -> work_units r = Num w ->
                computeEnst r = Num NaN)
  /\ (forall e, energy_j r = Num e ->
                gt e (Fin 0) = true \/ le e (Fin 0) = true \/ e = NaN).
Proof.
  unfold computeEnst. repeat split.
  - intros e w He Hpos Hw. rewrite He, Hw.
    assert (le e (Fin 0) = false) as ->; [|reflexivity].
    destruct e as [| | |q]; try discriminate; try reflexivity.
    apply le_Fin_false. apply lt_Fin in Hpos. exact Hpos.
  - intros [H | [(e & He & Hle) | H]].
    + destruct (energy_j r); try discriminate; reflexivity.
    + rewrite He, Hle. reflexivity.
    + destruct (energy_j r) as [| |e]; try reflexivity.
      destruct (le e (Fin 0)); try reflexivity.
      destruct (work_units r); try discriminate; reflexivity.
  - intros w -> ->. destruct w; reflexivity.
  - intros e _. destruct e as [| | |q]; auto.
    unfold gt. cbn [lt le]. destruct (0 ?= q) eqn:E; auto.
    + apply Qeq_alt in E. right. left.
      assert (E' : (q ?= 0) = Eq) by (apply -> Qeq_alt; symmetry; exact E).
      rewrite E'. reflexivity.
    + apply Qgt_alt in E. right. left.
      assert (E' : (q ?= 0) = Lt) by (apply -> Qlt_alt; exact E).
      rewrite E'. reflexivity.
Qed.

(** C1, the failing input: for a record whose [energy_j] is NaN and whose
    [work_units] is 100, [computeEnst] returns NaN, where the energy is not
    greater than 0 and [null] is due; the test [energy <= 0] is false of
    NaN, and [computeEnstStream] stores the NaN as the record's [enst].  The
    test of [applyThrottle] before the same division, [energy_j > 0], is
    false of NaN as well, and there nothing is divided: throttling the same
    record leaves its [enst] as it was.  Such an energy comes out of the
    power aggregator itself: two readings of one instant whose power is
    [Infinity] integrate to [Infinity * 0]. *)
Theorem computeEnst_NaN_energy :
  energy_j nan_energy_record = Num NaN
  /\ work_units nan_energy_record = Num (Fin 100)
  /\ gt NaN (Fin 0) = false
  /\ le NaN (Fin 0) = false
  /\ computeEnst nan_energy_record = Num NaN
  /\ map enst
         (computeEnstStream [nan_energy_record]
            {| workUnitsMode := None; gpuWeight := None |})
     = [Num NaN]
  /\ Policy.throttle_applied
       (Policy.evaluatePolicy nan_energy_record throttle_policy) = true
  /\ enst (Policy.applyThrottle nan_energy_record
             (Policy.evaluatePolicy nan_energy_record throttle_policy))
     = enst nan_energy_record
  /\ map Power.Out.energy_j_window
         (Power.emit
            (Power.feed (Power.new None)
               [infinite_power_reading "a" 1700000000;
                infinite_power_reading "a" 1700000000]))
     = [NaN].
Proof. repeat split; vm_compute; reflexivity. Qed.

(** C3, counterexample: a record without [validated_steps] but with
    [timesteps = 42] is reported in mode [domain] with value 42, not in mode
    [infra_fallback] with the infrastructure value 15000. *)
Lemma computeWorkUnitsDomain_timesteps_is_domain :
  nullish (validated_steps timesteps_record) = true
  /\ computeWorkUnitsDomain timesteps_record
     = {| value := Fin 42; mode := "domain" |}
  /\ computeWorkUnitsInfra timesteps_record (Fin 1) = Fin 15000.
Proof. repeat split; vm_compute; reflexivity. Qed.

(** C3, as amended: [computeWorkUnitsDomain] returns mode [domain] with the
    value of [validated_steps] whenever it is present (0 included); failing
    that, mode [domain] with the value of [timesteps] when that is present;
    and mode [infra_fallback] only when both are absent, with the value of
    [computeWorkUnitsInfra] for the same record.  In mode [infra_fallback]
    the value is always that of [computeWorkUnitsInfra]. *)
Theorem computeWorkUnitsDomain_modes (r : tsv) :
  (forall v, validated_steps r = Num v ->
             computeWorkUnitsDomain r = {| value := v; mode := "domain" |})
  /\ (forall t, nullish (validated_steps r) = true -> timesteps r = Num t ->
                computeWorkUnitsDomain r = {| value := t; mode := "domain" |})
  /\ (nullish (validated_steps r) = true -> nullish (timesteps r) = true ->
      computeWorkUnitsDomain r
      = {| value := computeWorkUnitsInfra r (Fin 1); mode := "infra_fallback" |})
  /\ (mode (computeWorkUnitsDomain r) = "infra_fallback"%string ->
      value (computeWorkUnitsDomain r) = computeWorkUnitsInfra r (Fin 1)).
Proof.
  unfold computeWorkUnitsDomain. repeat split.
  - intros v ->. reflexivity.
  - intros t Hv ->. destruct (validated_steps r); try discriminate; reflexivity.
  - intros Hv Ht.
    destruct (validated_steps r); try discriminate;
      destruct (timesteps r); try discriminate; reflexivity.
  - destruct (validated_steps r); try discriminate;
      destruct (timesteps r); try discriminate; reflexivity.
Qed.

(** [validated_steps = 0] is present. *)
Example computeWorkUnitsDomain_zero_steps :
  computeWorkUnitsDomain
    {| cpu_core_seconds := Null; gpu_seconds := Null;
       cpu_util := Null; gpu_util := Null; window_duration_s := Null;
       validated_steps := Num (Fin 0); timesteps := Num (Fin 7);
       power_w := Null; energy_j := Null;
       thermal_headroom_w := Null; grid_stress_index := Null;
       work_units := Undefined; work_units_mode := None;
       validated_work_units := Null; enst := Null;
       _policy_throttled := false; _throttle_factor := Undefined;
       _migrate_flag := None |}
  = {| value := Fin 0; mode := "domain" |}.
Proof. reflexivity. Qed.

(** C10: [computeEnstStream] yields one record per input record, in order;
    the record yielded for an input carries the freshly computed work units
    in [work_units], and its [validated_work_units] is that value when the
    input's [validated_work_units] is [null] or absent and the input's own
    value otherwise. *)
Theorem computeEnstStream_validated_work_units
    (options : stream_options) (records : list tsv) :
  List.length (computeEnstStream records options) = List.length records
  /\ forall i t, nth_error records i = Some t ->
       exists o, nth_error (computeEnstStream records options) i = Some o
         /\ work_units o
            = Num (value (computeWorkUnits t
                            (default (workUnitsMode options) "infra"%string)
                            (default (gpuWeight options) (Fin 1))))
         /\ validated_work_units o
            = if nullish (validated_work_units t) then work_units o
              else validated_work_units t.
Proof.
  unfold computeEnstStream. split.
  - apply length_map.
  - intros i t Hi. eexists. split.
    + rewrite nth_error_map, Hi. reflexivity.
    + unfold computeEnstStream_step. cbn.
      destruct (validated_work_units t) eqn:E; cbn; auto.
Qed.

(** C3, witness: the record with [timesteps] only is in mode [domain]; the
    record with neither counter falls back to the infrastructure value. *)
Lemma computeWorkUnitsDomain_modes_witness :
  nullish (validated_steps timesteps_record) = true
  /\ timesteps timesteps_record = Num (Fin 42)
  /\ computeWorkUnitsDomain timesteps_record
     = {| value := Fin 42; mode := "domain" |}
  /\ nullish (validated_steps throttle_record) = true
  /\ nullish (timesteps throttle_record) = true
  /\ computeWorkUnitsDomain throttle_record
     = {| value := computeWorkUnitsInfra throttle_record (Fin 1);
          mode := "infra_fallback" |}.
Proof.
  pose proof (computeWorkUnitsDomain_modes timesteps_record) as (_ & Ht & _).
  pose proof (computeWorkUnitsDomain_modes throttle_record) as (_ & _ & Hf & _).
  split; [reflexivity|]. split; [reflexivity|].
  split; [exact (Ht (Fin 42) eq_refl eq_refl)|].
  split; [reflexivity|]. split; [reflexivity|]. exact (Hf eq_refl eq_refl).
Defined.

(** C10, witness: in a stream of two records the first, whose
    [validated_work_units] is [null], gets the computed 15000, and the second
    keeps its 100. *)
Lemma computeEnstStream_validated_work_units_witness :
  nth_error [timesteps_record; throttle_record] 0 = Some timesteps_record
  /\ nth_error [timesteps_record; throttle_record] 1 = Some throttle_record
  /\ (exists o,
        nth_error
          (computeEnstStream [timesteps_record; throttle_record]
             {| workUnitsMode := None; gpuWeight := None |}) 0 = Some o
        /\ work_units o = Num (Fin 15000)
        /\ validated_work_units o = work_units o)
  /\ (exists o,
        nth_error
          (computeEnstStream [timesteps_record; throttle_record]
             {| workUnitsMode := None; gpuWeight := None |}) 1 = Some o
        /\ work_units o = Num (Fin 15000)
        /\ validated_work_units o = Num (Fin 100)).
Proof.
  pose proof (computeEnstStream_validated_work_units
                {| workUnitsMode := None; gpuWeight := None |}
                [timesteps_record; throttle_record]) as (_ & H).
  split; [reflexivity|]. split; [reflexivity|].
  split; [exact (H 0%nat timesteps_record eq_refl)
         | exact (H 1%nat throttle_record eq_refl)].
Defined.

End EnstFacts.

(** ** Cost *)

Section CostFacts.
Import Cost.

Lemma computeCostForWork_positive (W q qp : Q) :
  0 < W -> 0 < q ->
  computeCostForWork (Fin W) (Num (Fin q)) (Num (Fin qp))
  = fin (Qred (Qred (W / q) / 3600000000) * qp).
Proof.
  intros HW Hq. unfold computeCostForWork, computeEnergyForWork.
  assert (le (Fin q) (Fin 0) = false) as -> by (apply le_Fin_false; exact Hq).
  rewrite (div_Fin_pos _ _ Hq). unfold fin. cbn [isFinite negb].
  unfold computeCostUsd.
  assert (0 < W / q) by (apply Qlt_shift_div_l; lra).
  assert (le (Fin (Qred (W / q))) (Fin 0) = false) as ->.
  { apply le_Fin_false. rewrite Qred_correct. assumption. }
  unfold JOULES_PER_MWH. rewrite div_Fin_pos by reflexivity.
  reflexivity.
Qed.

Lemma computeCostForWork_PInf (W qp : Q) :
  computeCostForWork (Fin W) (Num PInf) (Num (Fin qp)) = Fin 0.
Proof. reflexivity. Qed.

Lemma computeCostForWork_unbounded (W : num) (enst price : field) :
  non_positive_or_absent enst -> computeCostForWork W enst price = PInf.
Proof.
  unfold computeCostForWork, computeEnergyForWork.
  intros [H | (e & -> & ->)]; [|reflexivity].
  destruct enst; try discriminate; reflexivity.
Qed.

(** C9, counterexample: with a better policy ENST (2 against 1) the delta is
    0 at price 0 and +5 at price -36, not negative; with a non-positive
    baseline (-1) and a larger policy ENST the delta is [null], not
    negative; and in binary64, at price 50, the policy ENST
    1.5000000000000002 is greater than the baseline 1.5 and the delta is 0:
    the energies of the two sides round to the same number. *)
Lemma computeDeltaCostPerWork_counterexamples :
  gt (Fin 2) (Fin 1) = true
  /\ computeDeltaCostPerWork (Num (Fin 1)) (Num (Fin 2)) (Num (Fin 0)) None
     = Num (Fin 0)
  /\ computeDeltaCostPerWork (Num (Fin 1)) (Num (Fin 2)) (Num (Fin (-36))) None
     = Num (Fin 5)
  /\ gt (Fin 2) (Fin (-1)) = true
  /\ computeDeltaCostPerWork (Num (Fin (-1))) (Num (Fin 2)) (Num (Fin 50)) None
     = Null
  /\ PrimFloat.ltb Binary64.three_halves Binary64.above_three_halves = true
  /\ Binary64.computeDeltaCostPerWork
       (Binary64.Num Binary64.three_halves)
       (Binary64.Num Binary64.above_three_halves)
       (Binary64.Num Binary64.fifty) None
     = Binary64.Num Binary64.zero.
Proof. repeat split; vm_compute; reflexivity. Qed.

(** C9, as amended: for a positive finite price and a positive baseline ENST,
    whenever the policy ENST is greater than the baseline the delta, when it
    is a number, is not positive (negative, or zero when the two costs
    agree); it is [null] whenever either ENST is absent or non-positive; and
    it is always [null] or a finite number, never an infinity. *)
Theorem computeDeltaCostPerWork_sign (enstBaseline enstPolicy price : field) :
  (forall qb np qp d,
      enstBaseline = Num (Fin qb) -> 0 < qb ->
      enstPolicy = Num np -> gt np (Fin qb) = true ->
      price = Num (Fin qp) -> 0 < qp ->
      computeDeltaCostPerWork enstBaseline enstPolicy price None = Num d ->
      le d (Fin 0) = true)
  /\ (non_positive_or_absent enstBaseline \/ non_positive_or_absent enstPolicy ->
      computeDeltaCostPerWork enstBaseline enstPolicy price None = Null)
  /\ (computeDeltaCostPerWork enstBaseline enstPolicy price None = Null
      \/ exists d, computeDeltaCostPerWork enstBaseline enstPolicy price None
                   = Num (Fin d)).
Proof.
  repeat split.
  - intros qb np qp d -> Hb -> Hgt -> Hp.
    unfold computeDeltaCostPerWork, Enst.default, REFERENCE_WORK_UNITS.
    rewrite (computeCostForWork_positive 1000000000 qb qp)
      by (reflexivity || assumption).
    assert (Hcb : 0 < Qred (Qred (1000000000 / qb) / 3600000000) * qp).
    { rewrite !Qred_correct. apply Qmult_lt_0_compat; [|assumption].
      apply Qlt_shift_div_l; [reflexivity|]. rewrite Qmult_0_l.
      apply Qlt_shift_div_l; lra. }
    destruct np as [| | |qn]; try discriminate.
    + rewrite computeCostForWork_PInf. unfold fin. cbn [isFinite negb orb sub].
      unfold fin. intros Hd. apply (f_equal ToNumber) in Hd.
      unfold ToNumber in Hd. subst d. apply le_Fin.
      rewrite !Qred_correct in *. lra.
    + apply lt_Fin in Hgt.
      rewrite (computeCostForWork_positive 1000000000 qn qp)
        by (reflexivity || lra).
      unfold fin. cbn [isFinite negb orb sub]. unfold fin.
      intros Hd. apply (f_equal ToNumber) in Hd.
      unfold ToNumber in Hd. subst d. apply le_Fin. rewrite !Qred_correct.
      assert (Hinv : / qn < / qb).
      { apply -> Qinv_lt_contravar; lra. }
      unfold Qdiv.
      assert (0 < (/ qb - / qn) * qp) by (apply Qmult_lt_0_compat; lra).
      assert (Hc : / 3600000000 == 1 # 3600000000) by reflexivity.
      rewrite Hc. lra.
  - intros [H | H]; unfold computeDeltaCostPerWork.
    + rewrite (computeCostForWork_unbounded _ _ _ H). reflexivity.
    + rewrite (computeCostForWork_unbounded _ _ _ H). cbn [isFinite negb].
      rewrite orb_true_r. reflexivity.
  - unfold computeDeltaCostPerWork.
    destruct (computeCostForWork _ enstBaseline price) as [| | |cb]; auto.
    destruct (computeCostForWork _ enstPolicy price) as [| | |cp]; auto.
    right. eexists. reflexivity.
Qed.

(** C9, witness: at 50 USD/MWh, raising the ENST from 1 to 2 takes the cost
    of the reference work from 125/9 to 125/18 USD, a delta of -125/18; with
    a baseline ENST of 0 the delta is [null]. *)
Lemma computeDeltaCostPerWork_sign_witness :
  0 < 1 /\ gt (Fin 2) (Fin 1) = true /\ 0 < 50
  /\ computeDeltaCostPerWork (Num (Fin 1)) (Num (Fin 2)) (Num (Fin 50)) None
     = Num (Fin (-125 # 18))
  /\ le (Fin (-125 # 18)) (Fin 0) = true
  /\ non_positive_or_absent (Num (Fin 0))
  /\ computeDeltaCostPerWork (Num (Fin 0)) (Num (Fin 2)) (Num (Fin 50)) None
     = Null.
Proof.
  pose proof (computeDeltaCostPerWork_sign
                (Num (Fin 1)) (Num (Fin 2)) (Num (Fin 50))) as (Hneg & _ & _).
  pose proof (computeDeltaCostPerWork_sign
                (Num (Fin 0)) (Num (Fin 2)) (Num (Fin 50))) as (_ & Hnull & _).
  assert (H0 : non_positive_or_absent (Num (Fin 0))).
  { right. exists (Fin 0). split; reflexivity. }
  assert (Hd : computeDeltaCostPerWork (Num (Fin 1)) (Num (Fin 2))
                 (Num (Fin 50)) None = Num (Fin (-125 # 18)))
    by (vm_compute; reflexivity).
  split; [reflexivity|]. split; [reflexivity|]. split; [reflexivity|].
  split; [exact Hd|].
  split; [exact (Hneg 1 (Fin 2) 50 (Fin (-125 # 18)) eq_refl eq_refl eq_refl
                   eq_refl eq_refl eq_refl Hd)|].
  split; [exact H0 | exact (Hnull (or_introl H0))].
Defined.

End CostFacts.

(** ** Policy *)

Section PolicyFacts.
Import Policy.

(** C7: when [energy_cap_w] is configured and the record's [power_w] exceeds
    it, [evaluatePolicy] sets [throttle_applied] and lists a violation of
    type [energy_cap]; when the record is within all configured caps, the
    violations list is empty and [throttle_applied] is false. *)
Theorem evaluatePolicy_energy_cap_and_within (record : tsv) (policy : Config.t) :
  (forall p c, power_w record = Num p -> Config.energy_cap_w policy = Num c ->
     gt p c = true ->
     throttle_applied (evaluatePolicy record policy) = true
     /\ In {| type := "energy_cap"; actual := Num p; cap := Num c |}
           (violations (evaluatePolicy record policy)))
  /\ (within_caps record policy ->
      violations (evaluatePolicy record policy) = []
      /\ throttle_applied (evaluatePolicy record policy) = false).
Proof.
  split.
  - intros p c Hp Hc Hgt. unfold evaluatePolicy.
    rewrite Hp, Hc. cbn [is_null negb andb ToNumber]. rewrite Hgt.
    case_ifs; cbn; auto.
  - intros (He & Ht & Hg). unfold evaluatePolicy.
    assert (E1 : (negb (is_null (Config.energy_cap_w policy))
                  && negb (is_null (power_w record)))%bool = true ->
                 gt (ToNumber (power_w record))
                    (ToNumber (Config.energy_cap_w policy)) = false).
    { destruct (Config.energy_cap_w policy) as [| |c] eqn:Ec;
        destruct (power_w record) as [| |p] eqn:Ep; cbn; try discriminate;
        intros _; try reflexivity.
      - destruct c; reflexivity.
      - apply (He c p); reflexivity. }
    assert (E2 : (negb (is_null (Config.thermal_cap_w policy))
                  && negb (is_null (thermal_headroom_w record)))%bool = true ->
                 lt (ToNumber (thermal_headroom_w record))
                    (ToNumber (Config.thermal_cap_w policy)) = false).
    { destruct (Config.thermal_cap_w policy) as [| |c] eqn:Ec;
        destruct (thermal_headroom_w record) as [| |p] eqn:Ep; cbn;
        try discriminate; intros _; try reflexivity.
      - destruct p; reflexivity.
      - apply (Ht c p); reflexivity. }
    assert (E3 : (negb (is_null (Config.grid_stress_cap policy))
                  && negb (is_null (grid_stress_index record)))%bool = true ->
                 gt (ToNumber (grid_stress_index record))
                    (ToNumber (Config.grid_stress_cap policy)) = false).
    { destruct (Config.grid_stress_cap policy) as [| |c] eqn:Ec;
        destruct (grid_stress_index record) as [| |p] eqn:Ep; cbn;
        try discriminate; intros _; try reflexivity.
      - destruct c; reflexivity.
      - apply (Hg c p); reflexivity. }
    destruct (negb (is_null (Config.energy_cap_w policy))
              && negb (is_null (power_w record)))%bool;
      [rewrite E1 by reflexivity|];
      (destruct (negb (is_null (Config.thermal_cap_w policy))
                 && negb (is_null (thermal_headroom_w record)))%bool;
       [rewrite E2 by reflexivity|]);
      (destruct (negb (is_null (Config.grid_stress_cap policy))
                 && negb (is_null (grid_stress_index record)))%bool;
       [rewrite E3 by reflexivity|]); split; reflexivity.
Qed.

(** C8: for a record with [work_units] and [energy_j] present and a result
    with [throttle_applied] and factor [f], [applyThrottle] returns
    [work_units * f] and [energy_j * (0.5 + f * 0.5)]; for finite values and
    [f] in [0,1] the energy keeps at least half of its magnitude, and a
    non-negative energy stays between half of the original and the
    original. *)
Theorem applyThrottle_scaling (record : tsv) (ev : result) (w e : num) :
  work_units record = Num w ->
  energy_j record = Num e ->
  throttle_applied ev = true ->
  work_units (applyThrottle record ev) = Num (mul w (throttle_factor ev))
  /\ energy_j (applyThrottle record ev)
     = Num (mul e (add (Fin (1 # 2)) (mul (throttle_factor ev) (Fin (1 # 2)))))
  /\ forall qf qe, throttle_factor ev = Fin qf -> e = Fin qe -> 0 <= qf <= 1 ->
       exists qe', energy_j (applyThrottle record ev) = Num (Fin qe')
         /\ qe' == qe * ((1 # 2) + qf * (1 # 2))
         /\ Qabs qe * (1 # 2) <= Qabs qe'
         /\ (0 <= qe -> qe * (1 # 2) <= qe' <= qe).
Proof.
  intros Hw He Hthr.
  assert (Hwork : work_units (applyThrottle record ev)
                  = Num (mul w (throttle_factor ev))).
  { unfold applyThrottle. rewrite Hthr. cbn [negb]. rewrite Hw. cbn.
    destruct (validated_work_units record); cbn;
      destruct (cpu_core_seconds record); cbn;
      destruct (gpu_seconds record); cbn;
      rewrite He; cbn; case_ifs; reflexivity. }
  assert (Henergy : energy_j (applyThrottle record ev)
                    = Num (mul e (add (Fin (1 # 2))
                                      (mul (throttle_factor ev) (Fin (1 # 2)))))).
  { unfold applyThrottle. rewrite Hthr. cbn [negb]. rewrite Hw. cbn.
    destruct (validated_work_units record); cbn;
      destruct (cpu_core_seconds record); cbn;
      destruct (gpu_seconds record); cbn;
      rewrite He; cbn; case_ifs; reflexivity. }
  split; [exact Hwork|]. split; [exact Henergy|].
  intros qf qe Hf Hq [Hf0 Hf1]. rewrite Henergy, Hf, Hq.
  eexists. split; [reflexivity|].
  assert (Hs : Qred (qe * Qred ((1 # 2) + Qred (qf * (1 # 2))))
               == qe * ((1 # 2) + qf * (1 # 2))).
  { rewrite !Qred_correct. reflexivity. }
  split; [exact Hs|]. rewrite Hs. split.
  - rewrite Qabs_Qmult.
    rewrite (Qabs_pos ((1 # 2) + qf * (1 # 2))) by lra.
    assert (0 <= Qabs qe) by apply Qabs_nonneg. nra.
  - intros Hqe. split; nra.
Qed.

(** C7, witness: 3000 W against a cap of 2500 W is throttled with an
    [energy_cap] violation; the record without a power reading is within
    the caps and gets no violation. *)
Lemma evaluatePolicy_energy_cap_and_within_witness :
  power_w throttle_record = Num (Fin 3000)
  /\ Config.energy_cap_w throttle_policy = Num (Fin 2500)
  /\ gt (Fin 3000) (Fin 2500) = true
  /\ throttle_applied (evaluatePolicy throttle_record throttle_policy) = true
  /\ In {| type := "energy_cap"; actual := Num (Fin 3000);
           cap := Num (Fin 2500) |}
        (violations (evaluatePolicy throttle_record throttle_policy))
  /\ within_caps timesteps_record throttle_policy
  /\ violations (evaluatePolicy timesteps_record throttle_policy) = []
  /\ throttle_applied (evaluatePolicy timesteps_record throttle_policy) = false.
Proof.
  pose proof (evaluatePolicy_energy_cap_and_within
                throttle_record throttle_policy) as (Hcap & _).
  pose proof (evaluatePolicy_energy_cap_and_within
                timesteps_record throttle_policy) as (_ & Hin).
  assert (Hw : within_caps timesteps_record throttle_policy).
  { repeat split; intros c p H1 H2; discriminate. }
  split; [reflexivity|]. split; [reflexivity|]. split; [reflexivity|].
  destruct (Hcap (Fin 3000) (Fin 2500) eq_refl eq_refl eq_refl) as (Ht & Hv).
  split; [exact Ht|]. split; [exact Hv|]. split; [exact Hw|].
  exact (Hin Hw).
Defined.

(** C8, witness: 100 work units and 1000 J throttled by the factor 1/2 give
    50 work units and 750 J. *)
Lemma applyThrottle_scaling_witness :
  work_units throttle_record = Num (Fin 100)
  /\ energy_j throttle_record = Num (Fin 1000)
  /\ throttle_applied (evaluatePolicy throttle_record throttle_policy) = true
  /\ work_units
       (applyThrottle throttle_record
          (evaluatePolicy throttle_record throttle_policy))
     = Num (Fin 50)
  /\ energy_j
       (applyThrottle throttle_record
          (evaluatePolicy throttle_record throttle_policy))
     = Num (Fin 750).
Proof.
  pose proof (applyThrottle_scaling throttle_record
                (evaluatePolicy throttle_record throttle_policy)
                (Fin 100) (Fin 1000) eq_refl eq_refl eq_refl)
    as (Hw & He & _).
  split; [reflexivity|]. split; [reflexivity|]. split; [reflexivity|].
  split; [exact Hw | exact He].
Defined.

End PolicyFacts.

(** ** Energy of a window *)

Section PowerEnergy.
Import Power PowerFold.

Lemma loop_shift (a : sample) (l : list sample) (n k : nat) (acc : num) :
  fold_left (loop_body (a :: l)) (seq (S (S k)) n) acc
  = fold_left (loop_body l) (seq (S k) n) acc.
Proof.
  revert k acc. induction n as [|n IH]; intros k acc; [reflexivity|].
  cbn [seq fold_left]. rewrite IH. f_equal.
  unfold loop_body. cbn [nth Nat.sub]. rewrite Nat.sub_0_r. reflexivity.
Qed.


Lemma comparator_positive (a b : sample) :
  gt (comparator a b) (Fin 0) = lt (ts b) (ts a).
Proof.
  unfold comparator, gt.
  destruct (ts a) as [| | |x], (ts b) as [| | |y]; try reflexivity.
  cbn [sub fin lt].
  destruct (y ?= x) eqn:E.
  - assert (E' : y == x) by (apply Qeq_alt; exact E).
    assert (H : (0 ?= Qred (x - y)) = Eq).
    { apply -> Qeq_alt. rewrite Qred_correct, E'. ring. }
    rewrite H. reflexivity.
  - assert (E' : y < x) by (apply Qlt_alt; exact E).
    assert (H : (0 ?= Qred (x - y)) = Lt).
    { apply -> Qlt_alt. rewrite Qred_correct. lra. }
    rewrite H. reflexivity.
  - assert (E' : x < y) by (apply Qgt_alt; exact E).
    assert (H : (0 ?= Qred (x - y)) = Gt).
    { apply -> Qgt_alt. rewrite Qred_correct. lra. }
    rewrite H. reflexivity.
Qed.

Lemma insert_perm (x : sample) (l : list sample) :
  Permutation (insert x l) (x :: l).
Proof.
  induction l as [|y l IH]; cbn [insert]; [reflexivity|].
  destruct (gt (comparator x y) (Fin 0)); [|reflexivity].
  rewrite IH. apply perm_swap.
Qed.

Lemma sort_perm (l : list sample) : Permutation (sort l) l.
Proof.
  induction l as [|x l IH]; cbn [sort]; [reflexivity|].
  rewrite insert_perm. apply perm_skip, IH.
Qed.

Section SortSorted.
Variable D : sample -> Prop.
Variable R : sample -> sample -> Prop.
Hypothesis R_after :
  forall x y, D x -> D y -> lt (ts y) (ts x) = true -> R y x.
Hypothesis R_before :
  forall x y, D x -> D y -> lt (ts y) (ts x) = false -> R x y.
Hypothesis R_trans :
  forall x y z, D x -> D y -> D z -> R x y -> R y z -> R x z.

Lemma insert_sorted (x : sample) (l : list sample) :
  D x -> Forall D l -> StronglySorted R l -> StronglySorted R (insert x l).
Proof.
  intros Dx. induction l as [|y l IH]; intros HD HS; cbn [insert].
  - constructor; constructor.
  - inversion HD as [|? ? Dy HDl]; subst.
    inversion HS as [|? ? HSl HRy]; subst.
    rewrite comparator_positive.
    destruct (lt (ts y) (ts x)) eqn:E.
    + constructor; [apply IH; assumption|].
      apply Forall_forall. intros z Hz.
      apply (Permutation_in _ (insert_perm x l)) in Hz.
      destruct Hz as [<- | Hz]; [apply R_after; assumption|].
      rewrite Forall_forall in HRy. apply HRy, Hz.
    + constructor; [assumption|].
      constructor; [apply R_before; assumption|].
      apply Forall_forall. intros z Hz.
      rewrite Forall_forall in HRy, HDl.
      apply (R_trans x y z); auto.
Qed.

Lemma sort_sorted (l : list sample) :
  Forall D l -> StronglySorted R (sort l).
Proof.
  induction l as [|x l IH]; intros HD; cbn [sort]; [constructor|].
  inversion HD; subst.
  apply insert_sorted; auto.
  apply Forall_forall. intros z Hz.
  apply (Permutation_in _ (sort_perm l)) in Hz.
  rewrite Forall_forall in H2. auto.
Qed.
End SortSorted.

Lemma sort_in_time_order (l : list sample) :
  Forall (fun s => isNaN (ts s) = false) l ->
  StronglySorted in_time_order (sort l).
Proof.
  apply sort_sorted; unfold in_time_order.
  - intros x y _ _. apply lt_le.
  - intros x y Hx Hy. apply lt_false_le; assumption.
  - intros x y z _ _ _. apply le_trans.
Qed.


Lemma loop_is_trapezoid_total (l : list sample) (a : sample) (acc : num) :
  fold_left (loop_body (a :: l)) (seq 1 (List.length l)) acc
  = fold_left (fun sum p => add sum (trapezoid (fst p) (snd p)))
              (combine (a :: l) l) acc.
Proof.
  revert a acc. induction l as [|b l IH]; intros a acc; [reflexivity|].
  cbn [List.length seq fold_left combine fst snd]. rewrite loop_shift, IH.
  reflexivity.
Qed.

Lemma computeEnergy_by_cases (windowSizeUs : num) (samples : list sample) :
  computeEnergy windowSizeUs samples
  = match samples with
    | [] => Fin 0
    | [s] => mul (power s) (div windowSizeUs (Fin 1000000))
    | _ => trapezoid_total (sort samples)
    end.
Proof.
  destruct samples as [|a [|b l]]; try reflexivity.
  unfold computeEnergy, trapezoid_total.
  cbn [List.length Nat.ltb Nat.leb].
  pose proof (Permutation_length (sort_perm (a :: b :: l))) as Hlen.
  destruct (sort (a :: b :: l)) as [|a' l'] eqn:E; [discriminate|].
  fold (loop_body (a' :: l')).
  cbn [List.length Nat.sub tl]. rewrite Nat.sub_0_r.
  apply loop_is_trapezoid_total.
Qed.

(** C2: [emit()] yields one record per window of the aggregator, in the
    order of the window map, and the energy of each is 0 for no sample, the
    power of the sample times the window duration in seconds for one sample,
    and for two or more samples the sum over consecutive pairs of
    [avg(p[i-1], p[i]) * (t[i] - t[i-1])], in seconds, accumulated pair after
    pair over the sorted samples: a permutation of the window's samples that
    is in time order whenever no timestamp is NaN. *)
Theorem emitted_energy_is_trapezoidal (a : aggregator) :
  map Out.energy_j_window (emit a)
  = map (fun w =>
           match power_samples w with
           | [] => Fin 0
           | [s] => mul (power s) (div (windowSizeUs a) (Fin 1000000))
           | _ => trapezoid_total (sort (power_samples w))
           end)
        (JSMap.values (windows a))
  /\ Forall (fun w =>
               Permutation (sort (power_samples w)) (power_samples w)
               /\ (Forall (fun s => isNaN (ts s) = false) (power_samples w) ->
                   StronglySorted in_time_order (sort (power_samples w))))
            (JSMap.values (windows a)).
Proof.
  split.
  - unfold emit. rewrite map_map. apply map_ext. intros w.
    cbn [emit_window Out.energy_j_window].
    apply computeEnergy_by_cases.
  - apply Forall_forall. intros w _.
    split; [apply sort_perm | apply sort_in_time_order].
Qed.

(** C2, witness: an aggregator fed the readings (2 s, 20 W), (0 s, 0 W) and
    (1 s, 10 W) of one site emits one window, whose energy is
    5 + 15 = 20 J, integrated over the samples in time order; a lone reading
    of 20 W emits 20 W x 300 s = 6000 J. *)
Lemma emitted_energy_is_trapezoidal_witness :
  map Out.energy_j_window
      (emit (feed (new None)
                  [power_reading "a" 2 20; power_reading "a" 0 0;
                   power_reading "a" 1 10]))
  = [Fin 20]
  /\ map Out.energy_j_window
         (emit (feed (new None) [power_reading "a" 2 20]))
     = [Fin 6000]
  /\ map (fun w => sort (power_samples w))
         (JSMap.values
            (windows (feed (new None)
                           [power_reading "a" 2 20; power_reading "a" 0 0;
                            power_reading "a" 1 10])))
     = [[ {| ts := Fin 0; power := Fin 0 |};
          {| ts := Fin 1000000; power := Fin 10 |};
          {| ts := Fin 2000000; power := Fin 20 |} ]].
Proof.
  pose proof (emitted_energy_is_trapezoidal
                (feed (new None)
                      [power_reading "a" 2 20; power_reading "a" 0 0;
                       power_reading "a" 1 10])) as (He & _).
  pose proof (emitted_energy_is_trapezoidal
                (feed (new None) [power_reading "a" 2 20])) as (He1 & _).
  split; [rewrite He; vm_compute; reflexivity|].
  split; [rewrite He1; vm_compute; reflexivity|].
  vm_compute; reflexivity.
Defined.

End PowerEnergy.

(** ** The window map *)

Section JSMapFacts.
Variable V : Type.
Implicit Types (m : JSMap.t V) (k : JSMap.key) (v : V).

Lemma get_set_same m k v : JSMap.get (JSMap.set m k v) k = Some v.
Proof.
  induction m as [|[k' v'] m IH]; cbn.
  - destruct (JSMap.key_eq_dec k k); congruence.
  - destruct (JSMap.key_eq_dec k k') as [->|Hne]; cbn.
    + destruct (JSMap.key_eq_dec k' k'); congruence.
    + destruct (JSMap.key_eq_dec k k'); congruence.
Qed.

Lemma get_set_other m k k' v :
  k' <> k -> JSMap.get (JSMap.set m k v) k' = JSMap.get m k'.
Proof.
  intros Hne. induction m as [|[k0 v0] m IH]; cbn.
  - destruct (JSMap.key_eq_dec k' k); congruence.
  - destruct (JSMap.key_eq_dec k k0) as [->|H0]; cbn.
    + destruct (JSMap.key_eq_dec k' k0); congruence.
    + destruct (JSMap.key_eq_dec k' k0); congruence.
Qed.

Lemma set_set m k v v' :
  JSMap.set (JSMap.set m k v) k v' = JSMap.set m k v'.
Proof.
  induction m as [|[k0 v0] m IH]; cbn.
  - destruct (JSMap.key_eq_dec k k); congruence.
  - destruct (JSMap.key_eq_dec k k0) as [->|H0]; cbn.
    + destruct (JSMap.key_eq_dec k0 k0); congruence.
    + destruct (JSMap.key_eq_dec k k0); congruence.
Qed.

Lemma set_same m k v : JSMap.get m k = Some v -> JSMap.set m k v = m.
Proof.
  induction m as [|[k0 v0] m IH]; cbn; [discriminate|].
  destruct (JSMap.key_eq_dec k k0) as [->|H0].
  - intros [= ->]. reflexivity.
  - intros H. rewrite IH by exact H. reflexivity.
Qed.

Lemma in_keys_get m k :
  In k (map fst m) <-> JSMap.get m k <> None.
Proof.
  induction m as [|[k0 v0] m IH]; cbn.
  - intuition congruence.
  - destruct (JSMap.key_eq_dec k k0) as [->|H0].
    + intuition congruence.
    + rewrite IH. intuition congruence.
Qed.

Lemma in_keys_set m k k' v :
  In k' (map fst (JSMap.set m k v)) <-> k' = k \/ In k' (map fst m).
Proof.
  rewrite !in_keys_get.
  destruct (JSMap.key_eq_dec k' k) as [->|Hne].
  - rewrite get_set_same. intuition congruence.
  - rewrite get_set_other by exact Hne. intuition congruence.
Qed.

Lemma NoDup_keys_set m k v :
  NoDup (map fst m) -> NoDup (map fst (JSMap.set m k v)).
Proof.
  induction m as [|[k0 v0] m IH]; cbn; intros H.
  - constructor; [intros []|constructor].
  - inversion H as [|? ? Hnin Hnd]; subst.
    destruct (JSMap.key_eq_dec k k0) as [->|H0]; cbn.
    + constructor; assumption.
    + constructor; [|apply IH, Hnd].
      rewrite in_keys_set. intuition congruence.
Qed.

(** The values of a map whose keys are distinct, read back through [get]. *)
Lemma values_by_key (B : Type) (f : V -> B) (d : B) m :
  NoDup (map fst m) ->
  map f (JSMap.values m)
  = map (fun k => match JSMap.get m k with Some w => f w | None => d end)
        (map fst m).
Proof.
  unfold JSMap.values. induction m as [|[k0 v0] m IH]; cbn; intros H;
    [reflexivity|].
  inversion H as [|? ? Hnin Hnd]; subst.
  destruct (JSMap.key_eq_dec k0 k0) as [_|]; [|congruence].
  f_equal. rewrite IH by exact Hnd.
  apply map_ext_in. intros k Hk.
  destruct (JSMap.key_eq_dec k k0) as [->|]; [contradiction|reflexivity].
Qed.
End JSMapFacts.

Section FoldFacts.
Variables R W : Type.
Variable key_of : R -> JSMap.key.
Variable fresh : JSMap.key -> W.
Variable upd : W -> R -> W.

Abbreviation step := (WindowFold.step R W key_of fresh upd).
Abbreviation window_of := (WindowFold.window_of R W key_of fresh upd).
Abbreviation has_key := (WindowFold.has_key R key_of).

Lemma step_eq (m : JSMap.t W) (r : R) :
  step m r
  = JSMap.set m (key_of r)
      (upd (match JSMap.get m (key_of r) with
            | Some w => w
            | None => fresh (key_of r)
            end) r).
Proof.
  unfold WindowFold.step, JSMap.has.
  destruct (JSMap.get m (key_of r)) as [w|] eqn:E.
  - rewrite E. reflexivity.
  - rewrite get_set_same, set_set. reflexivity.
Qed.

Lemma window_of_snoc (k : JSMap.key) (l : list R) (r : R) :
  window_of k (l ++ [r])
  = if has_key k r then upd (window_of k l) r else window_of k l.
Proof.
  unfold WindowFold.window_of. rewrite filter_app. cbn [filter].
  destruct (has_key k r).
  - rewrite fold_left_app. reflexivity.
  - rewrite app_nil_r. reflexivity.
Qed.

Lemma window_of_untouched (k : JSMap.key) (l : list R) :
  existsb (has_key k) l = false -> window_of k l = fresh k.
Proof.
  unfold WindowFold.window_of. intros H.
  replace (filter (has_key k) l) with (@nil R); [reflexivity|].
  induction l as [|r l IH]; [reflexivity|].
  cbn in H |- *. apply orb_false_iff in H as [-> H]. apply IH, H.
Qed.

(** The bucket of every key after a stream fed to the empty map. *)
Lemma get_fold_step (l : list R) (k : JSMap.key) :
  JSMap.get (fold_left step l []) k
  = if existsb (has_key k) l then Some (window_of k l) else None.
Proof.
  induction l as [|r l IH] using rev_ind; [reflexivity|].
  rewrite fold_left_app. cbn [fold_left]. rewrite step_eq.
  rewrite existsb_app, window_of_snoc. cbn [existsb].
  unfold WindowFold.has_key at 2 3.
  destruct (JSMap.key_eq_dec (key_of r) k) as [<-|Hne].
  - rewrite get_set_same, orb_true_r, IH.
    destruct (existsb (has_key (key_of r)) l) eqn:E; [reflexivity|].
    rewrite (window_of_untouched _ _ E). reflexivity.
  - rewrite get_set_other by congruence.
    rewrite !orb_false_r. exact IH.
Qed.

Lemma NoDup_keys_fold_step (l : list R) :
  NoDup (map fst (fold_left step l [])).
Proof.
  induction l as [|r l IH] using rev_ind; [constructor|].
  rewrite fold_left_app. cbn [fold_left]. rewrite step_eq.
  apply NoDup_keys_set, IH.
Qed.

Lemma in_keys_fold_step (l : list R) (k : JSMap.key) :
  In k (map fst (fold_left step l [])) <-> existsb (has_key k) l = true.
Proof.
  rewrite in_keys_get, get_fold_step.
  destruct (existsb (has_key k) l); intuition congruence.
Qed.

(** Two streams that are permutations of each other and give, key by key,
    buckets that emit the same record, emit the same records. *)
Lemma fold_step_emit_perm (B : Type) (E : W -> B) (l1 l2 : list R) :
  Permutation l1 l2 ->
  (forall k, existsb (has_key k) l1 = true ->
             E (window_of k l1) = E (window_of k l2)) ->
  Permutation (map E (JSMap.values (fold_left step l1 [])))
              (map E (JSMap.values (fold_left step l2 []))).
Proof.
  intros HP HE.
  destruct (fold_left step l1 []) as [|[k0 w0] m0] eqn:E1.
  - assert (H2 : fold_left step l2 [] = []).
    { destruct (fold_left step l2 []) as [|[k w] m] eqn:E2; [reflexivity|].
      exfalso. assert (In k (map fst (fold_left step l2 [])))
        by (rewrite E2; left; reflexivity).
      apply in_keys_fold_step in H.
      assert (existsb (has_key k) l1 = true).
      { apply existsb_exists in H as (r & Hr & Hk). apply existsb_exists.
        exists r. split; [|exact Hk].
        apply (Permutation_in _ (Permutation_sym HP)), Hr. }
      apply in_keys_fold_step in H0. rewrite E1 in H0. destruct H0. }
    rewrite H2. reflexivity.
  - rewrite <- E1.
    rewrite (values_by_key W B E (E w0) (fold_left step l1 []))
      by apply NoDup_keys_fold_step.
    rewrite (values_by_key W B E (E w0) (fold_left step l2 []))
      by apply NoDup_keys_fold_step.
    transitivity
      (map (fun k => match JSMap.get (fold_left step l2 []) k with
                     | Some w => E w | None => E w0 end)
           (map fst (fold_left step l1 []))).
    + apply Permutation_refl'. apply map_ext_in. intros k Hk.
      apply in_keys_fold_step in Hk. rewrite !get_fold_step, Hk.
      assert (existsb (has_key k) l2 = true) as ->.
      { apply existsb_exists in Hk as (r & Hr & Hk). apply existsb_exists.
        exists r. split; [|exact Hk]. apply (Permutation_in _ HP), Hr. }
      apply HE. apply existsb_exists in Hk as (r & Hr & Hk).
      apply existsb_exists. eauto.
    + apply Permutation_map. apply NoDup_Permutation;
        try apply NoDup_keys_fold_step.
      intros k. rewrite !in_keys_fold_step. rewrite !existsb_exists.
      split; intros (r & Hr & Hk); exists r; split; auto.
      * apply (Permutation_in _ HP), Hr.
      * apply (Permutation_in _ (Permutation_sym HP)), Hr.
Qed.
End FoldFacts.

Lemma in_values_get (V : Type) (m : JSMap.t V) (v : V) :
  NoDup (map fst m) -> In v (JSMap.values m) ->
  exists k, JSMap.get m k = Some v.
Proof.
  unfold JSMap.values. induction m as [|[k0 v0] m IH]; cbn; intros Hnd Hin;
    [destruct Hin|].
  inversion Hnd as [|? ? Hnin Hnd']; subst.
  destruct Hin as [<-|Hin].
  - exists k0. destruct (JSMap.key_eq_dec k0 k0); congruence.
  - destruct (IH Hnd' Hin) as (k & Hk). exists k.
    destruct (JSMap.key_eq_dec k k0) as [->|]; [|exact Hk].
    exfalso. apply Hnin. apply in_keys_get. congruence.
Qed.

(** ** Order of arrival: PowerAggregator *)

Section PowerOrder.
Import Power PowerFold.

Lemma addPowerRecord_step (a : aggregator) (r : In.t) :
  windowSizeUs (addPowerRecord a r) = windowSizeUs a
  /\ windows (addPowerRecord a r)
     = WindowFold.step In.t window (key_of (windowSizeUs a))
         (fresh (windowSizeUs a)) upd (windows a) r.
Proof.
  split; [reflexivity|].
  unfold addPowerRecord, WindowFold.step. cbn [windows].
  change (getWindowKey (windowSizeUs a) (record_ts r) (record_site r))
    with (key_of (windowSizeUs a) r).
  change (new_window (windowSizeUs a) (record_ts r) (record_site r))
    with (fresh (windowSizeUs a) (key_of (windowSizeUs a) r)).
  set (m1 := if JSMap.has _ _ then _ else _).
  destruct (JSMap.get m1 (key_of (windowSizeUs a) r)) as [w|] eqn:E;
    [|reflexivity].
  unfold upd. fold (usable r). destruct (usable r); [reflexivity|].
  symmetry. apply set_same, E.
Qed.

Lemma feed_fold_step (a : aggregator) (l : list In.t) :
  windowSizeUs (feed a l) = windowSizeUs a
  /\ windows (feed a l)
     = fold_left (WindowFold.step In.t window (key_of (windowSizeUs a))
                    (fresh (windowSizeUs a)) upd) l (windows a).
Proof.
  unfold feed. revert a. induction l as [|r l IH]; intros a; [split; reflexivity|].
  cbn [fold_left]. destruct (IH (addPowerRecord a r)) as [H1 H2].
  destruct (addPowerRecord_step a r) as [H3 H4].
  rewrite H1, H2, H3, H4. split; reflexivity.
Qed.

Lemma fold_upd_projections (rs : list In.t) (w : window) :
  ts_start (fold_left upd rs w) = ts_start w
  /\ ts_end (fold_left upd rs w) = ts_end w
  /\ site_id (fold_left upd rs w) = site_id w
  /\ power_samples (fold_left upd rs w) = power_samples w ++ samples_of rs.
Proof.
  revert w. induction rs as [|r rs IH]; intros w; cbn [fold_left samples_of flat_map].
  - rewrite app_nil_r. auto.
  - destruct (IH (upd w r)) as (H1 & H2 & H3 & H4).
    rewrite H1, H2, H3, H4. unfold upd.
    destruct (usable r); cbn; rewrite <- ?app_assoc; auto.
Qed.

(** The sort puts two tie-free permutations of the same samples in the
    same order. *)
Lemma sort_perm_unique (s1 s2 : list sample) :
  Permutation s1 s2 ->
  (forall x y, In x s1 -> In y s1 ->
     x = y \/ lt (ts x) (ts y) = true \/ lt (ts y) (ts x) = true) ->
  sort s1 = sort s2.
Proof.
  intros HP HT.
  set (R := fun x y : sample => x = y \/ lt (ts x) (ts y) = true).
  assert (HS : forall s, Permutation s1 s -> StronglySorted R (sort s)).
  { intros s Hs. apply (sort_sorted (fun x => In x s1) R).
    - intros x y _ _ H. right. exact H.
    - intros x y Hx Hy H. destruct (HT x y Hx Hy) as [E|[E|E]].
      + left. exact E.
      + right. exact E.
      + congruence.
    - intros x y z _ _ _ [->|Hxy] [->|Hyz]; unfold R; auto.
      right. eapply lt_trans; eauto.
    - apply Forall_forall. intros x Hx.
      apply (Permutation_in _ (Permutation_sym Hs)), Hx. }
  apply (sorted_perm_eq _ R).
  - intros x y [->|Hxy] [E|Hyx]; auto. exfalso. eapply lt_asym; eauto.
  - apply HS. reflexivity.
  - apply HS, HP.
  - rewrite !sort_perm. exact HP.
Qed.

Lemma computeEnergy_perm (ws : num) (s1 s2 : list sample) :
  Permutation s1 s2 ->
  (forall x y, In x s1 -> In y s1 ->
     x = y \/ lt (ts x) (ts y) = true \/ lt (ts y) (ts x) = true) ->
  computeEnergy ws s1 = computeEnergy ws s2.
Proof.
  intros HP HT. unfold computeEnergy.
  rewrite <- (Permutation_length HP).
  destruct (List.length s1 <? 2)%nat eqn:E.
  - destruct s1 as [|x [|y s1]].
    + apply Permutation_nil in HP. subst. reflexivity.
    + apply Permutation_length_1_inv in HP. subst. reflexivity.
    + discriminate.
  - rewrite <- (sort_perm_unique s1 s2 HP HT). reflexivity.
Qed.

Lemma emit_window_perm (ws : num) (w1 w2 : window) :
  ts_start w1 = ts_start w2 -> ts_end w1 = ts_end w2 ->
  site_id w1 = site_id w2 ->
  Permutation (power_samples w1) (power_samples w2) ->
  (forall x y, In x (power_samples w1) -> In y (power_samples w1) ->
     x = y \/ lt (ts x) (ts y) = true \/ lt (ts y) (ts x) = true) ->
  emit_window ws w1 = emit_window ws w2.
Proof.
  intros H1 H2 H3 HP HT. unfold emit_window, length_num.
  rewrite H1, H2, H3, (computeEnergy_perm ws _ _ HP HT).
  rewrite (Permutation_length HP).
  rewrite (fold_left_perm _ _ (fun sum s => add sum (power s)) _ _
             (fun a x y => add_right_comm a (power x) (power y)) HP).
  reflexivity.
Qed.

Lemma samples_of_perm (l1 l2 : list In.t) :
  Permutation l1 l2 -> Permutation (samples_of l1) (samples_of l2).
Proof. apply Permutation_flat_map. Qed.

Lemma in_samples_of (l : list In.t) (x : sample) :
  In x (samples_of l) <-> exists r, In r l /\ usable r = true /\ x = sample_of r.
Proof.
  unfold samples_of. rewrite in_flat_map. split.
  - intros (r & Hr & Hx). exists r. destruct (usable r); cbn in Hx.
    + destruct Hx as [<-|[]]. auto.
    + destruct Hx.
  - intros (r & Hr & Hu & ->). exists r. rewrite Hu. cbn. auto.
Qed.

Theorem power_emit_perm (size : option num) (l1 l2 : list In.t) :
  Permutation l1 l2 ->
  tie_free (windowSizeUs (new size)) l1 ->
  Permutation (emit (feed (new size) l1)) (emit (feed (new size) l2)).
Proof.
  intros HP HT. unfold emit.
  destruct (feed_fold_step (new size) l1) as [-> ->].
  destruct (feed_fold_step (new size) l2) as [-> ->].
  set (ws := windowSizeUs (new size)) in *.
  apply fold_step_emit_perm; [exact HP|].
  intros k _. unfold WindowFold.window_of.
  set (f := WindowFold.has_key In.t (key_of ws) k).
  destruct (fold_upd_projections (filter f l1) (fresh ws k)) as (A1 & A2 & A3 & A4).
  destruct (fold_upd_projections (filter f l2) (fresh ws k)) as (B1 & B2 & B3 & B4).
  apply emit_window_perm; try congruence.
  - rewrite A4, B4. apply Permutation_app_head, samples_of_perm, filter_perm, HP.
  - rewrite A4. cbn [fresh power_samples app].
    intros x y Hx Hy.
    apply in_samples_of in Hx as (r1 & Hr1 & U1 & ->).
    apply in_samples_of in Hy as (r2 & Hr2 & U2 & ->).
    apply filter_In in Hr1 as [Hr1 K1]. apply filter_In in Hr2 as [Hr2 K2].
    unfold f, WindowFold.has_key in K1, K2.
    destruct (JSMap.key_eq_dec (key_of ws r1) k); [|discriminate].
    destruct (JSMap.key_eq_dec (key_of ws r2) k); [|discriminate].
    apply HT; auto; congruence.
Qed.

End PowerOrder.

(** ** Order of arrival: UsageAggregator *)

Section UsageOrder.
Import Usage UsageFold.

Lemma addUsageRecord_step (a : aggregator) (r : In.t) :
  windowSizeUs (addUsageRecord a r) = windowSizeUs a
  /\ windows (addUsageRecord a r)
     = WindowFold.step In.t window (key_of (windowSizeUs a))
         (fresh (windowSizeUs a)) update_window (windows a) r.
Proof. split; reflexivity. Qed.

Lemma usage_feed_fold_step (a : aggregator) (l : list In.t) :
  windowSizeUs (feed a l) = windowSizeUs a
  /\ windows (feed a l)
     = fold_left (WindowFold.step In.t window (key_of (windowSizeUs a))
                    (fresh (windowSizeUs a)) update_window) l (windows a).
Proof.
  unfold feed. revert a. induction l as [|r l IH]; intros a; [split; reflexivity|].
  cbn [fold_left]. destruct (IH (addUsageRecord a r)) as [H1 H2].
  destruct (addUsageRecord_step a r) as [H3 H4].
  rewrite H1, H2, H3, H4. split; reflexivity.
Qed.

Lemma fold_update_window_projections (rs : list In.t) (w : window) :
  ts_start (fold_left update_window rs w) = ts_start w
  /\ ts_end (fold_left update_window rs w) = ts_end w
  /\ site_id (fold_left update_window rs w) = site_id w
  /\ cpu_samples (fold_left update_window rs w)
     = cpu_samples w ++ flat_map (fun r => pushed (record_cpuUtil r)) rs
  /\ gpu_samples (fold_left update_window rs w)
     = gpu_samples w ++ flat_map (fun r => pushed (record_gpuUtil r)) rs
  /\ mem_samples (fold_left update_window rs w)
     = mem_samples w ++ flat_map (fun r => pushed (record_memUtil r)) rs
  /\ job_count (fold_left update_window rs w)
     = fold_left (fun z r => (z + job_increment r)%Z) rs (job_count w)
  /\ resource_seconds (fold_left update_window rs w)
     = fold_left (fun s r => add s (seconds_of r)) rs (resource_seconds w).
Proof.
  revert w. induction rs as [|r rs IH]; intros w; cbn [fold_left flat_map].
  - rewrite !app_nil_r. repeat split.
  - destruct (IH (update_window w r)) as (H1 & H2 & H3 & H4 & H5 & H6 & H7 & H8).
    rewrite H1, H2, H3, H4, H5, H6, H7, H8.
    unfold update_window, push_if_present, pushed. cbn.
    repeat split.
    + destruct (raw_is_null (record_cpuUtil r)); cbn;
        rewrite <- ?app_assoc, ?app_nil_r; reflexivity.
    + destruct (raw_is_null (record_gpuUtil r)); cbn;
        rewrite <- ?app_assoc, ?app_nil_r; reflexivity.
    + destruct (raw_is_null (record_memUtil r)); cbn;
        rewrite <- ?app_assoc, ?app_nil_r; reflexivity.
    + f_equal. unfold job_increment.
      destruct (In.type r), (In.event_type r); lia.
Qed.

Lemma mean_perm (l1 l2 : list num) :
  Permutation l1 l2 -> mean l1 = mean l2.
Proof.
  intros HP. unfold mean, length_num.
  rewrite (Permutation_length HP).
  rewrite (fold_left_perm _ _ add _ _ add_right_comm HP). reflexivity.
Qed.

Lemma usage_emit_window_perm (w1 w2 : window) :
  ts_start w1 = ts_start w2 -> ts_end w1 = ts_end w2 ->
  site_id w1 = site_id w2 ->
  Permutation (cpu_samples w1) (cpu_samples w2) ->
  Permutation (gpu_samples w1) (gpu_samples w2) ->
  Permutation (mem_samples w1) (mem_samples w2) ->
  job_count w1 = job_count w2 ->
  resource_seconds w1 = resource_seconds w2 ->
  emit_window w1 = emit_window w2.
Proof.
  intros H1 H2 H3 Pc Pg Pm H4 H5. unfold emit_window.
  rewrite H1, H2, H3, H4, H5.
  rewrite (mean_perm _ _ Pc), (mean_perm _ _ Pg), (mean_perm _ _ Pm).
  rewrite (Permutation_length Pc), (Permutation_length Pg),
    (Permutation_length Pm).
  reflexivity.
Qed.

Theorem usage_emit_perm (size : option num) (l1 l2 : list In.t) :
  Permutation l1 l2 ->
  Permutation (emit (feed (new size) l1)) (emit (feed (new size) l2)).
Proof.
  intros HP. unfold emit.
  destruct (usage_feed_fold_step (new size) l1) as [_ ->].
  destruct (usage_feed_fold_step (new size) l2) as [_ ->].
  set (ws := windowSizeUs (new size)) in *.
  apply fold_step_emit_perm; [exact HP|].
  intros k _. unfold WindowFold.window_of.
  set (f := WindowFold.has_key In.t (key_of ws) k).
  pose proof (filter_perm _ f _ _ HP) as HF.
  destruct (fold_update_window_projections (filter f l1) (fresh ws k))
    as (A1 & A2 & A3 & A4 & A5 & A6 & A7 & A8).
  destruct (fold_update_window_projections (filter f l2) (fresh ws k))
    as (B1 & B2 & B3 & B4 & B5 & B6 & B7 & B8).
  apply usage_emit_window_perm; try congruence.
  - rewrite A4, B4. apply Permutation_app_head, Permutation_flat_map, HF.
  - rewrite A5, B5. apply Permutation_app_head, Permutation_flat_map, HF.
  - rewrite A6, B6. apply Permutation_app_head, Permutation_flat_map, HF.
  - rewrite A7, B7. apply fold_left_perm; [intros; lia|exact HF].
  - rewrite A8, B8. apply fold_left_perm; [|exact HF].
    intros a x y. apply add_right_comm.
Qed.

End UsageOrder.

(** ** Window keys and timestamp units *)

Lemma normalizeTimestamp_to_microseconds (ts : num) :
  Power.normalizeTimestamp ts = to_microseconds ts.
Proof.
  unfold Power.normalizeTimestamp, to_microseconds.
  destruct (lt ts (Fin 10000000000)) eqn:E1; [reflexivity|].
  destruct (lt ts (Fin 10000000000000)) eqn:E2.
  - rewrite lt_false_le; [reflexivity|reflexivity| |exact E1].
    destruct ts; try reflexivity; discriminate.
  - rewrite andb_false_r. reflexivity.
Qed.

(** X12: the PowerAggregator buckets a sample under the key computed from
    its timestamp converted to microseconds, and stores the converted
    timestamp. *)
Theorem power_window_key_normalized (a : Power.aggregator) (r : Power.In.t) :
  PowerFold.key_of (Power.windowSizeUs a) r
  = Power.getWindowKey (Power.windowSizeUs a)
      (to_microseconds (Power.record_raw_ts r)) (Power.record_site r)
  /\ JSMap.has (Power.windows (Power.addPowerRecord a r))
       (PowerFold.key_of (Power.windowSizeUs a) r) = true
  /\ (PowerFold.usable r = true ->
      exists w, JSMap.get (Power.windows (Power.addPowerRecord a r))
                  (PowerFold.key_of (Power.windowSizeUs a) r) = Some w
        /\ In {| Power.ts := to_microseconds (Power.record_raw_ts r);
                 Power.power := Number (Power.record_power r) |}
              (Power.power_samples w)).
Proof.
  destruct (addPowerRecord_step a r) as [_ ->]. rewrite step_eq.
  unfold JSMap.has. rewrite get_set_same.
  split; [|split; [reflexivity|]].
  - unfold PowerFold.key_of, Power.record_ts.
    rewrite normalizeTimestamp_to_microseconds. reflexivity.
  - intros Hu. eexists. split; [reflexivity|].
    unfold PowerFold.upd. rewrite Hu. cbn [Power.push_sample Power.power_samples].
    apply in_or_app. right. left. unfold Power.record_ts.
    rewrite normalizeTimestamp_to_microseconds. reflexivity.
Qed.

(** The UsageAggregator buckets a record under the key of its timestamp as
    it comes: no unit conversion takes place. *)
Theorem usage_window_key_raw (a : Usage.aggregator) (r : Usage.In.t) :
  JSMap.has (Usage.windows (Usage.addUsageRecord a r))
    (Usage.getWindowKey (Usage.windowSizeUs a) (Usage.record_ts r)
       (Usage.record_site r)) = true.
Proof.
  destruct (addUsageRecord_step a r) as [_ ->]. rewrite step_eq.
  unfold JSMap.has, UsageFold.key_of. rewrite get_set_same. reflexivity.
Qed.


(** ** Order independence *)

(** C5, counterexample: three power samples of one window, two of them with
    the same timestamp and different power, integrate to 5 J in one order and
    to 10 J in the other; and two usage samples of different sites are
    emitted in the order in which their windows were first touched. *)
Lemma aggregation_order_counterexample :
  Permutation
    [power_reading "a" 0 0; power_reading "a" 1 10; power_reading "a" 1 20]
    [power_reading "a" 0 0; power_reading "a" 1 20; power_reading "a" 1 10]
  /\ map Power.Out.energy_j_window
       (Power.emit (Power.feed (Power.new None)
          [power_reading "a" 0 0; power_reading "a" 1 10; power_reading "a" 1 20]))
     = [Fin 5]
  /\ map Power.Out.energy_j_window
       (Power.emit (Power.feed (Power.new None)
          [power_reading "a" 0 0; power_reading "a" 1 20; power_reading "a" 1 10]))
     = [Fin 10]
  /\ map Usage.Out.site_id
       (Usage.emit (Usage.feed (Usage.new None)
          [usage_reading "a" 0 (RNum (Fin (1 # 2))) RUndefined;
           usage_reading "b" 0 (RNum (Fin (1 # 4))) RUndefined]))
     = ["a"%string; "b"%string]
  /\ map Usage.Out.site_id
       (Usage.emit (Usage.feed (Usage.new None)
          [usage_reading "b" 0 (RNum (Fin (1 # 4))) RUndefined;
           usage_reading "a" 0 (RNum (Fin (1 # 2))) RUndefined]))
     = ["b"%string; "a"%string].
Proof.
  split; [apply perm_skip, perm_swap|].
  repeat split; vm_compute; reflexivity.
Qed.

(** C5, as amended: feeding a permutation of the same samples to a fresh
    aggregator yields the same emitted records, up to the order in which
    [emit()] yields them; for the PowerAggregator provided that samples of
    one window with equal timestamps have equal power. *)
Theorem aggregation_order_independent_up_to_order :
  (forall (size : option num) (l1 l2 : list Power.In.t),
      Permutation l1 l2 ->
      PowerFold.tie_free (Power.windowSizeUs (Power.new size)) l1 ->
      Permutation (Power.emit (Power.feed (Power.new size) l1))
                  (Power.emit (Power.feed (Power.new size) l2)))
  /\ (forall (size : option num) (l1 l2 : list Usage.In.t),
         Permutation l1 l2 ->
         Permutation (Usage.emit (Usage.feed (Usage.new size) l1))
                     (Usage.emit (Usage.feed (Usage.new size) l2))).
Proof. split; [exact power_emit_perm | exact usage_emit_perm]. Qed.

(** C5, witness: two power samples of one window at different times, and
    two usage samples, in both orders. *)
Lemma aggregation_order_independent_witness :
  Permutation [power_reading "a" 0 0; power_reading "a" 1 10]
              [power_reading "a" 1 10; power_reading "a" 0 0]
  /\ PowerFold.tie_free (Power.windowSizeUs (Power.new None))
       [power_reading "a" 0 0; power_reading "a" 1 10]
  /\ Permutation
       (Power.emit (Power.feed (Power.new None)
          [power_reading "a" 0 0; power_reading "a" 1 10]))
       (Power.emit (Power.feed (Power.new None)
          [power_reading "a" 1 10; power_reading "a" 0 0]))
  /\ Permutation
       (Usage.emit (Usage.feed (Usage.new None)
          [usage_reading "a" 0 (RNum (Fin (1 # 2))) RUndefined;
           usage_reading "b" 0 (RNum (Fin (1 # 4))) RUndefined]))
       (Usage.emit (Usage.feed (Usage.new None)
          [usage_reading "b" 0 (RNum (Fin (1 # 4))) RUndefined;
           usage_reading "a" 0 (RNum (Fin (1 # 2))) RUndefined])).
Proof.
  destruct aggregation_order_independent_up_to_order as (Hp & Hu).
  assert (Ht : PowerFold.tie_free (Power.windowSizeUs (Power.new None))
                 [power_reading "a" 0 0; power_reading "a" 1 10]).
  { intros r1 r2 [<-|[<-|[]]] [<-|[<-|[]]] _ _ _;
      first [ left; reflexivity
            | right; left; reflexivity
            | right; right; reflexivity ]. }
  split; [apply perm_swap|]. split; [exact Ht|].
  split; [exact (Hp None _ _ (perm_swap _ _ _) Ht)|].
  exact (Hu None _ _ (perm_swap _ _ _)).
Defined.

(** ** Utilisation range *)

Lemma clamp01_in_range (x : num) :
  isNaN x = false -> in_unit_interval (Usage.clamp01 x).
Proof.
  unfold in_unit_interval, Usage.clamp01.
  destruct x as [| | |q]; try discriminate; intros _; try (split; reflexivity).
  unfold max. destruct (lt (Fin 0) (Fin q)) eqn:E0.
  - unfold min. destruct (lt (Fin q) (Fin 1)) eqn:E1.
    + apply lt_Fin in E0, E1. rewrite !le_Fin. lra.
    + split; reflexivity.
  - split; reflexivity.
Qed.

Lemma fold_add_finite (l : list num) (q : Q) :
  Forall (fun x => isFinite x = true) l ->
  isFinite (fold_left add l (Fin q)) = true.
Proof.
  revert q. induction l as [|x l IH]; intros q H; [reflexivity|].
  inversion H as [|? ? Hx Hl]; subst. destruct x; try discriminate.
  cbn [fold_left add fin]. apply IH, Hl.
Qed.

Lemma mean_finite (l : list num) :
  l <> [] -> Forall (fun x => isFinite x = true) l ->
  isFinite (Usage.mean l) = true.
Proof.
  intros Hne H. unfold Usage.mean, length_num.
  pose proof (fold_add_finite l 0 H) as Hs.
  destruct (fold_left add l (Fin 0)) as [| | |s]; try discriminate.
  assert (Hpos : 0 < inject_Z (Z.of_nat (List.length l))).
  { destruct l; [congruence|]. cbn [List.length].
    change 0 with (inject_Z 0). rewrite <- Zlt_Qlt. lia. }
  rewrite div_Fin_pos by exact Hpos. reflexivity.
Qed.

Lemma emit_window_in_range (w : Usage.window) :
  Forall (fun x => isFinite x = true) (Usage.cpu_samples w) ->
  Forall (fun x => isFinite x = true) (Usage.gpu_samples w) ->
  Forall (fun x => isFinite x = true) (Usage.mem_samples w) ->
  in_unit_interval (Usage.Out.cpu_util (Usage.emit_window w))
  /\ util_in_range (Usage.Out.gpu_util (Usage.emit_window w))
  /\ util_in_range (Usage.Out.mem_util (Usage.emit_window w)).
Proof.
  intros Hc Hg Hm. unfold Usage.emit_window, util_in_range.
  cbn [Usage.Out.cpu_util Usage.Out.gpu_util Usage.Out.mem_util].
  assert (Hfin : forall l, Forall (fun x => isFinite x = true) l ->
                           l <> [] -> isNaN (Usage.mean l) = false).
  { intros l Hl Hne. pose proof (mean_finite l Hne Hl) as Hf.
    destruct (Usage.mean l); try discriminate; reflexivity. }
  repeat split.
  1,2: destruct (Usage.cpu_samples w) as [|x l]; cbn [List.length Nat.ltb Nat.leb];
    [reflexivity| apply clamp01_in_range, Hfin; [assumption|discriminate]].
  - destruct (Usage.gpu_samples w) as [|x l]; cbn [List.length Nat.ltb Nat.leb];
      [left; reflexivity|right].
    eexists. split; [reflexivity|].
    apply clamp01_in_range, Hfin; [assumption|discriminate].
  - destruct (Usage.mem_samples w) as [|x l]; cbn [List.length Nat.ltb Nat.leb];
      [left; reflexivity|right].
    eexists. split; [reflexivity|].
    apply clamp01_in_range, Hfin; [assumption|discriminate].
Qed.

Lemma pushed_finite (f : Usage.In.t -> raw) (rs : list Usage.In.t) :
  Forall (fun r => raw_is_null (f r) = true \/ isFinite (Number (f r)) = true) rs ->
  Forall (fun x => isFinite x = true) (flat_map (fun r => UsageFold.pushed (f r)) rs).
Proof.
  intros H. apply Forall_forall. intros x Hx.
  apply in_flat_map in Hx as (r & Hr & Hx).
  rewrite Forall_forall in H. specialize (H r Hr).
  unfold UsageFold.pushed in Hx.
  destruct (raw_is_null (f r)); [destruct Hx|].
  destruct Hx as [<-|[]]. destruct H; [discriminate|assumption].
Qed.

(** X17: when every utilisation value of the input is absent or converts to
    a finite number, every emitted [cpu_util] is in [0,1] and every emitted
    [gpu_util] and [mem_util] is [null] or in [0,1]. *)
Theorem usage_emit_in_range_for_numeric_input
    (size : option num) (l : list Usage.In.t) :
  Forall numeric_utilisation l ->
  Forall (fun o => in_unit_interval (Usage.Out.cpu_util o)
                   /\ util_in_range (Usage.Out.gpu_util o)
                   /\ util_in_range (Usage.Out.mem_util o))
         (Usage.emit (Usage.feed (Usage.new size) l)).
Proof.
  intros Hl. apply Forall_forall. intros o Ho. unfold Usage.emit in Ho.
  apply in_map_iff in Ho as (w & <- & Hw).
  destruct (usage_feed_fold_step (Usage.new size) l) as [_ Hfeed].
  rewrite Hfeed in Hw.
  change (Usage.windows (Usage.new size))
    with (@nil (JSMap.key * Usage.window)) in Hw.
  apply in_values_get in Hw; [|apply NoDup_keys_fold_step].
  destruct Hw as (k & Hk). rewrite get_fold_step in Hk.
  destruct (existsb _ l); [|discriminate]. injection Hk as <-.
  unfold WindowFold.window_of.
  set (rs := filter _ l).
  assert (Hrs : Forall numeric_utilisation rs).
  { apply Forall_forall. intros r Hr. apply filter_In in Hr as [Hr _].
    rewrite Forall_forall in Hl. apply Hl, Hr. }
  match goal with
  | |- context [fold_left Usage.update_window rs ?w0] =>
      destruct (fold_update_window_projections rs w0)
        as (_ & _ & _ & Hc & Hg & Hm & _)
  end.
  apply emit_window_in_range.
  - rewrite Hc. cbn [UsageFold.fresh Usage.cpu_samples app].
    apply pushed_finite. eapply Forall_impl; [|exact Hrs].
    intros r Hr. inversion Hr; assumption.
  - rewrite Hg. cbn [UsageFold.fresh Usage.gpu_samples app].
    apply pushed_finite. eapply Forall_impl; [|exact Hrs].
    intros r Hr. inversion Hr as [|? ? _ Hr']. inversion Hr'; assumption.
  - rewrite Hm. cbn [UsageFold.fresh Usage.mem_samples app].
    apply pushed_finite. eapply Forall_impl; [|exact Hrs].
    intros r Hr. inversion Hr as [|? ? _ Hr']. inversion Hr' as [|? ? _ Hr''].
    inversion Hr''; assumption.
Qed.

(** C6, at the failing input: one usage record whose [cpu_util] and
    [gpu_util] are the string "n/a" makes [emit()] report NaN for both, which
    is not in [0,1]; the PowerAggregator drops the same unparseable value
    (no sample is counted). *)
Lemma usage_unparseable_utilisation_emits_NaN :
  map Usage.Out.cpu_util
      (Usage.emit (Usage.feed (Usage.new None)
         [usage_reading "site-a" 1700000000000000 (RStr "n/a") (RStr "n/a")]))
  = [NaN]
  /\ map Usage.Out.gpu_util
       (Usage.emit (Usage.feed (Usage.new None)
          [usage_reading "site-a" 1700000000000000 (RStr "n/a") (RStr "n/a")]))
     = [Num NaN]
  /\ le (Fin 0) NaN = false
  /\ map Power.Out.sample_count
       (Power.emit (Power.feed (Power.new None)
          [ {| Power.In.ts := Num (Fin 1700000000000000);
               Power.In.timestamp := Undefined;
               Power.In.time := Undefined; Power.In.t_ := Undefined;
               Power.In.site_id := Some "site-a"%string;
               Power.In.machine_id := None; Power.In.node_id := None;
               Power.In.power_w := RStr "n/a"; Power.In.power := RUndefined;
               Power.In.watts := RUndefined; Power.In.watt := RUndefined;
               Power.In.power_watts := RUndefined;
               Power.In.pdu_power := RUndefined |} ]))
     = [Fin 0].
Proof. repeat split; vm_compute; reflexivity. Qed.

(** ** Work units, the ENST stream and costs *)

Section EnstStream.
Import Enst.

Lemma computeEnstStream_step_idempotent (options : stream_options) (t : tsv) :
  computeEnstStream_step options (computeEnstStream_step options t)
  = computeEnstStream_step options t.
Proof.
  destruct t as [cs gs cu gu wd vs tsx pw ej th gi wu wm vw en pt tf mf].
  unfold computeEnstStream_step, computeWorkUnits.
  destruct (String.eqb _ _); cbn; destruct vw; cbn; reflexivity.
Qed.

(** X3: running [computeEnstStream] on its own output changes nothing,
    and every record it yields has [work_units] and [validated_work_units]
    present and an [enst] equal to [computeEnst] of the record. *)
Theorem computeEnstStream_idempotent
    (options : stream_options) (records : list tsv) :
  computeEnstStream (computeEnstStream records options) options
  = computeEnstStream records options
  /\ Forall (fun o => enst o = computeEnst o
                      /\ nullish (work_units o) = false
                      /\ nullish (validated_work_units o) = false)
            (computeEnstStream records options).
Proof.
  unfold computeEnstStream. split.
  - rewrite map_map. apply map_ext. intros t.
    apply computeEnstStream_step_idempotent.
  - apply Forall_forall. intros o Ho. apply in_map_iff in Ho as (t & <- & _).
    destruct t as [cs gs cu gu wd vs tsx pw ej th gi wu wm vw en pt tf mf].
    unfold computeEnstStream_step. destruct vw; cbn; repeat split.
Qed.
End EnstStream.

Section WorkUnits.
Import Enst.

(** X1: [computeWorkUnits] reports one of the modes infra, domain and
    infra_fallback; it reports infra exactly when the requested mode is not
    "domain"; in domain mode the GPU weight plays no part, and the fallback
    value is the infra value at GPU weight 1. *)
Theorem computeWorkUnits_reported_mode (t : tsv) (requested : string) (w w' : num) :
  In (mode (computeWorkUnits t requested w))
     ["infra"%string; "domain"%string; "infra_fallback"%string]
  /\ (mode (computeWorkUnits t requested w) = "infra"%string
      <-> requested <> "domain"%string)
  /\ (requested = "domain"%string ->
      computeWorkUnits t requested w = computeWorkUnits t requested w'
      /\ (mode (computeWorkUnits t requested w) = "infra_fallback"%string ->
          value (computeWorkUnits t requested w)
          = computeWorkUnitsInfra t (Fin 1))).
Proof.
  unfold computeWorkUnits.
  destruct (String.eqb_spec requested "domain") as [->|Hne].
  - unfold computeWorkUnitsDomain.
    destruct (validated_steps t); destruct (timesteps t); cbn;
      repeat split; auto; try discriminate; try congruence;
      intros H; exfalso; apply H; reflexivity.
  - cbn. repeat split; auto; congruence.
Qed.




End WorkUnits.

Section CostValues.
Import Cost.


Lemma sub_antisym (a b : num) :
  isFinite a = true -> isFinite b = true ->
  exists d d', sub a b = Fin d /\ sub b a = Fin d' /\ d' == - d.
Proof.
  destruct a as [| | |x], b as [| | |y]; try discriminate. intros _ _.
  do 2 eexists. split; [reflexivity|]. split; [reflexivity|].
  rewrite !Qred_correct. ring.
Qed.

(** X6: swapping baseline and policy ENST in
    [computeDeltaCostPerWork] keeps a null result null and negates a finite
    one; the delta of an ENST against itself is 0. *)
Theorem computeDeltaCostPerWork_antisymmetric
    (a b price : field) (ref : option num) :
  (computeDeltaCostPerWork a b price ref = Null
   <-> computeDeltaCostPerWork b a price ref = Null)
  /\ (forall d, computeDeltaCostPerWork a b price ref = Num (Fin d) ->
        exists d', computeDeltaCostPerWork b a price ref = Num (Fin d')
                   /\ d' == - d)
  /\ (forall d, computeDeltaCostPerWork a a price ref = Num (Fin d) -> d == 0).
Proof.
  unfold computeDeltaCostPerWork.
  set (ca := computeCostForWork _ a price).
  set (cb := computeCostForWork _ b price).
  repeat split.
  - destruct (isFinite ca) eqn:Ea, (isFinite cb) eqn:Eb; cbn; auto; discriminate.
  - destruct (isFinite ca) eqn:Ea, (isFinite cb) eqn:Eb; cbn; auto; discriminate.
  - intros d. destruct (isFinite ca) eqn:Ea, (isFinite cb) eqn:Eb; cbn;
      try discriminate.
    destruct (sub_antisym cb ca Eb Ea) as (x & x' & -> & -> & Hx).
    intros [= <-]. exists x'. split; [reflexivity|assumption].
  - intros d. destruct (isFinite ca) eqn:Ea; cbn; try discriminate.
    destruct (sub_antisym ca ca Ea Ea) as (y & y' & E1 & E2 & Hy).
    rewrite E1 in E2 |- *. injection E2 as <-. intros [= <-]. lra.
Qed.
End CostValues.

(** ** Policy flags and throttled records *)

Section PolicyFlags.
Import Policy.

Lemma Qcompare_refl (y : Q) : (y ?= y) = Eq.
Proof. apply -> Qeq_alt. reflexivity. Qed.

Lemma min_min (a b : num) : min (min a b) b = min a b.
Proof.
  destruct a as [| | |x], b as [| | |y]; cbn [min lt];
    rewrite ?Qcompare_refl; try reflexivity.
  destruct (y ?= x) eqn:E; cbn [min lt]; rewrite ?E, ?Qcompare_refl;
    reflexivity.
Qed.

(** X7: in the result of [evaluatePolicy], [throttle_applied] holds
    exactly when an energy_cap or thermal_cap violation is listed,
    [migrate_flag] exactly when a grid_stress violation is listed, the
    throttle factor is min(1, policy factor) when throttled and 1 otherwise,
    and each type of violation is listed at most once. *)
Theorem evaluatePolicy_flags_follow_violations (record : tsv) (policy : Config.t) :
  throttle_applied (evaluatePolicy record policy)
  = (has_violation "energy_cap" (violations (evaluatePolicy record policy))
     || has_violation "thermal_cap" (violations (evaluatePolicy record policy)))%bool
  /\ migrate_flag (evaluatePolicy record policy)
     = has_violation "grid_stress" (violations (evaluatePolicy record policy))
  /\ throttle_factor (evaluatePolicy record policy)
     = (if throttle_applied (evaluatePolicy record policy)
        then min (Fin 1) (ToNumber (Config.throttle_factor policy))
        else Fin 1)
  /\ NoDup (map type (violations (evaluatePolicy record policy)))
  /\ Forall (fun v => In (type v)
                        ["energy_cap"%string; "thermal_cap"%string;
                         "grid_stress"%string])
            (violations (evaluatePolicy record policy)).
Proof.
  unfold evaluatePolicy.
  destruct (negb (is_null (Config.energy_cap_w policy))
            && negb (is_null (power_w record)))%bool;
    [destruct (gt (ToNumber (power_w record))
                  (ToNumber (Config.energy_cap_w policy)))|];
    (destruct (negb (is_null (Config.thermal_cap_w policy))
               && negb (is_null (thermal_headroom_w record)))%bool;
     [destruct (lt (ToNumber (thermal_headroom_w record))
                   (ToNumber (Config.thermal_cap_w policy)))|]);
    (destruct (negb (is_null (Config.grid_stress_cap policy))
               && negb (is_null (grid_stress_index record)))%bool;
     [destruct (gt (ToNumber (grid_stress_index record))
                   (ToNumber (Config.grid_stress_cap policy)))|]);
    cbn [throttle_applied throttle_factor migrate_flag violations app
         has_violation existsb type String.eqb Ascii.eqb Bool.eqb orb andb map];
    rewrite ?min_min;
    (split; [reflexivity|]); (split; [reflexivity|]); (split; [reflexivity|]);
    (split; [repeat constructor; cbn; intuition discriminate
            | repeat (apply Forall_cons; [cbn; auto 10|]); apply Forall_nil]).
Qed.
End PolicyFlags.

Section ThrottledEnst.
Import Policy.

Lemma energy_check_passes (record : tsv) (policy : Config.t) :
  (forall c p, Config.energy_cap_w policy = Num c ->
               power_w record = Num p -> gt p c = false) ->
  (negb (is_null (Config.energy_cap_w policy))
   && negb (is_null (power_w record)))%bool = true ->
  gt (ToNumber (power_w record)) (ToNumber (Config.energy_cap_w policy)) = false.
Proof.
  intros He.
  destruct (Config.energy_cap_w policy) as [| |c] eqn:Ec;
    destruct (power_w record) as [| |p] eqn:Ep; cbn; try discriminate;
    intros _; try reflexivity.
  - destruct c; reflexivity.
  - apply (He c p); reflexivity.
Qed.

Lemma thermal_check_passes (record : tsv) (policy : Config.t) :
  (forall c h, Config.thermal_cap_w policy = Num c ->
               thermal_headroom_w record = Num h -> lt h c = false) ->
  (negb (is_null (Config.thermal_cap_w policy))
   && negb (is_null (thermal_headroom_w record)))%bool = true ->
  lt (ToNumber (thermal_headroom_w record))
     (ToNumber (Config.thermal_cap_w policy)) = false.
Proof.
  intros Ht.
  destruct (Config.thermal_cap_w policy) as [| |c] eqn:Ec;
    destruct (thermal_headroom_w record) as [| |p] eqn:Ep; cbn;
    try discriminate; intros _; try reflexivity.
  - destruct p; reflexivity.
  - apply (Ht c p); reflexivity.
Qed.

(** X8: a record within the energy and thermal caps is not throttled,
    and [applyThrottle] returns it as it came, whatever the grid stress
    check found: a migration flag alone leaves no mark on the record. *)
Theorem applyThrottle_leaves_unthrottled_record
    (record : tsv) (policy : Config.t) :
  within_throttling_caps record policy ->
  throttle_applied (evaluatePolicy record policy) = false
  /\ throttle_factor (evaluatePolicy record policy) = Fin 1
  /\ applyThrottle record (evaluatePolicy record policy) = record.
Proof.
  intros (He & Ht).
  assert (H : throttle_applied (evaluatePolicy record policy) = false
              /\ throttle_factor (evaluatePolicy record policy) = Fin 1).
  { unfold evaluatePolicy.
    pose proof (energy_check_passes record policy He) as E1.
    pose proof (thermal_check_passes record policy Ht) as E2.
    destruct (negb (is_null (Config.energy_cap_w policy))
              && negb (is_null (power_w record)))%bool;
      [rewrite E1 by reflexivity|];
      (destruct (negb (is_null (Config.thermal_cap_w policy))
                 && negb (is_null (thermal_headroom_w record)))%bool;
       [rewrite E2 by reflexivity|]);
      case_ifs; split; reflexivity. }
  destruct H as [H1 H2]. split; [exact H1|]. split; [exact H2|].
  unfold applyThrottle. rewrite H1. reflexivity.
Qed.

(** X8, witness: 2000 W under a cap of 2500 W with grid stress 0.9 over the
    cap 0.7: the migration flag is raised and the record is returned
    unchanged. *)
Lemma applyThrottle_leaves_unthrottled_record_witness :
  within_throttling_caps grid_stress_record grid_stress_policy
  /\ migrate_flag (evaluatePolicy grid_stress_record grid_stress_policy) = true
  /\ throttle_applied (evaluatePolicy grid_stress_record grid_stress_policy)
     = false
  /\ applyThrottle grid_stress_record
       (evaluatePolicy grid_stress_record grid_stress_policy)
     = grid_stress_record.
Proof.
  assert (Hw : within_throttling_caps grid_stress_record grid_stress_policy).
  { split; intros c p H1 H2.
    - injection H1 as <-. injection H2 as <-. reflexivity.
    - discriminate. }
  destruct (applyThrottle_leaves_unthrottled_record
              grid_stress_record grid_stress_policy Hw) as (H1 & _ & H3).
  split; [exact Hw|]. split; [reflexivity|]. split; [exact H1 | exact H3].
Defined.

Lemma gt_zero_not_le (x : num) : gt x (Fin 0) = true -> le x (Fin 0) = false.
Proof.
  unfold gt. destruct x as [| | |q]; try discriminate; try reflexivity.
  intros H. apply lt_Fin in H. apply le_Fin_false. exact H.
Qed.

Lemma applyThrottle_projections (r : tsv) (ev : result) :
  energy_j (applyThrottle r ev)
  = (if throttle_applied ev
     then match energy_j r with
          | Num e =>
              Num (mul e (add (Fin (1 # 2))
                              (mul (throttle_factor ev) (Fin (1 # 2)))))
          | x => x
          end
     else energy_j r)
  /\ work_units (applyThrottle r ev)
     = (if throttle_applied ev
        then match work_units r with
             | Num w => Num (mul w (throttle_factor ev))
             | x => x
             end
        else work_units r)
  /\ _policy_throttled (applyThrottle r ev)
     = (throttle_applied ev || _policy_throttled r)%bool
  /\ _migrate_flag (applyThrottle r ev)
     = (if throttle_applied ev then Some (migrate_flag ev)
        else _migrate_flag r).
Proof.
  unfold applyThrottle. destruct (throttle_applied ev); cbn [negb orb];
    [|repeat split].
  destruct r as [cs gs cu gu wd vs tsx pw ej th gi wu wm vw en pt tf mf].
  cbn.
  destruct wu; cbn; destruct vw; cbn; destruct cs; cbn; destruct gs; cbn;
    destruct ej; cbn; case_ifs; cbn; repeat split.
Qed.

Lemma applyThrottle_enst (r : tsv) (ev : result) :
  throttle_applied ev = true ->
  enst (applyThrottle r ev)
  = if (gt (ToNumber (energy_j (applyThrottle r ev))) (Fin 0)
        && negb (is_null (work_units (applyThrottle r ev))))%bool
    then Num (div (ToNumber (work_units (applyThrottle r ev)))
                  (ToNumber (energy_j (applyThrottle r ev))))
    else enst r.
Proof.
  intros Hthr.
  destruct (applyThrottle_projections r ev) as (-> & -> & _).
  rewrite Hthr. unfold applyThrottle. rewrite Hthr. cbn [negb].
  destruct r as [cs gs cu gu wd vs tsx pw ej th gi wu wm vw en pt tf mf].
  cbn -[gt mul div add].
  destruct wu; cbn -[gt mul div add]; destruct vw; cbn -[gt mul div add];
    destruct cs; cbn -[gt mul div add]; destruct gs; cbn -[gt mul div add];
    destruct ej; cbn -[gt mul div add]; try reflexivity;
    match goal with
    | |- context [if ?c then _ else _] => destruct c; reflexivity
    end.
Qed.

(** X9: after a throttle of a record with [work_units], [enst] is
    [computeEnst] of the throttled record when the throttled energy is
    positive; otherwise the record keeps the [enst] it came with. *)
Theorem applyThrottle_enst_recomputed (record : tsv) (ev : result) (w : num) :
  throttle_applied ev = true ->
  work_units record = Num w ->
  (gt (ToNumber (energy_j (applyThrottle record ev))) (Fin 0) = true ->
   enst (applyThrottle record ev) = Enst.computeEnst (applyThrottle record ev))
  /\ (gt (ToNumber (energy_j (applyThrottle record ev))) (Fin 0) = false ->
      enst (applyThrottle record ev) = enst record).
Proof.
  intros Hthr Hw. rewrite (applyThrottle_enst record ev Hthr).
  destruct (applyThrottle_projections record ev) as (_ & Hwork & _).
  rewrite Hthr, Hw in Hwork.
  split; intros Hgt; rewrite Hgt; cbn [andb]; [|reflexivity].
  rewrite Hwork. cbn [is_null negb ToNumber]. unfold Enst.computeEnst.
  rewrite Hwork.
  destruct (energy_j (applyThrottle record ev)) as [| |e'];
    try discriminate.
  cbn [ToNumber] in Hgt |- *. rewrite (gt_zero_not_le _ Hgt). reflexivity.
Qed.

End ThrottledEnst.

(** ** Power windows *)

(** The start of the window of a timestamp, for a whole number of
    microseconds that a number holds exactly and a window of a whole number
    of microseconds. *)
Lemma window_start_bounds (t s : Z) :
  (0 <= t < 2 ^ 53)%Z -> (0 < s)%Z ->
  exists k, mul (floor (div (Fin (inject_Z t)) (Fin (inject_Z s))))
                (Fin (inject_Z s)) = Fin k
            /\ k <= inject_Z t < k + inject_Z s.
Proof.
  intros _ Hs.
  assert (Hs' : 0 < inject_Z s).
  { change 0 with (inject_Z 0). rewrite <- Zlt_Qlt. exact Hs. }
  set (t' := inject_Z t) in *. set (s' := inject_Z s) in *.
  rewrite div_Fin_pos by exact Hs'. cbn [fin floor mul].
  eexists. split; [reflexivity|].
  rewrite Qred_correct, (Qfloor_comp _ _ (Qred_correct (t' / s'))).
  pose proof (Qfloor_le (t' / s')) as Hlo.
  pose proof (Qlt_floor (t' / s')) as Hhi.
  rewrite inject_Z_plus in Hhi.
  assert (H1 : inject_Z 1 == 1) by reflexivity. rewrite H1 in Hhi.
  assert (Ht : t' == t' / s' * s') by (field; lra).
  set (n := inject_Z (Qfloor (t' / s'))) in *.
  set (q := t' / s') in *.
  assert (A : 0 <= (q - n) * s') by (apply Qmult_le_0_compat; lra).
  assert (B : 0 < (n + 1 - q) * s') by (apply Qmult_lt_0_compat; lra).
  split; nra.
Qed.

Section PowerWindows.
Import Power PowerFold.

Lemma normalizeTimestamp_microseconds (x : Q) :
  10000000000000 <= x -> normalizeTimestamp (Fin x) = Fin x.
Proof.
  intros H. unfold normalizeTimestamp.
  assert (lt (Fin x) (Fin 10000000000) = false) as ->
    by (apply lt_Fin_false; lra).
  assert (lt (Fin x) (Fin 10000000000000) = false) as ->
    by (apply lt_Fin_false; lra).
  reflexivity.
Qed.

(** X11: for a timestamp of at least 10^7, [normalizeTimestamp] is
    idempotent and its result is at least 10^13, the microsecond range. *)
Theorem normalizeTimestamp_idempotent (ts : num) :
  le (Fin 10000000) ts = true ->
  normalizeTimestamp (normalizeTimestamp ts) = normalizeTimestamp ts
  /\ le (Fin 10000000000000) (normalizeTimestamp ts) = true.
Proof.
  destruct ts as [| | |t]; try discriminate; [split; reflexivity|].
  intros H. apply le_Fin in H.
  assert (Hx : exists x, normalizeTimestamp (Fin t) = Fin x
                         /\ 10000000000000 <= x).
  { unfold normalizeTimestamp.
    destruct (lt (Fin t) (Fin 10000000000)) eqn:E1.
    - eexists. split; [reflexivity|]. rewrite Qred_correct. lra.
    - destruct (lt (Fin t) (Fin 10000000000000)) eqn:E2.
      + apply lt_Fin_false in E1.
        eexists. split; [reflexivity|]. rewrite Qred_correct. lra.
      + apply lt_Fin_false in E2. exists t. split; [reflexivity|exact E2]. }
  destruct Hx as (x & -> & Hx).
  split; [apply normalizeTimestamp_microseconds, Hx | apply le_Fin, Hx].
Qed.

Lemma in_emit_window_of (size : option num) (l : list In.t) (o : Out.t) :
  In o (emit (feed (new size) l)) ->
  exists k r, In r l
    /\ key_of (windowSizeUs (new size)) r = k
    /\ o = emit_window (windowSizeUs (new size))
             (WindowFold.window_of In.t window
                (key_of (windowSizeUs (new size)))
                (fresh (windowSizeUs (new size))) upd k l).
Proof.
  unfold emit. intros Ho.
  destruct (feed_fold_step (new size) l) as [Hws Hfeed].
  rewrite Hws, Hfeed in Ho.
  change (windows (new size)) with (@nil (JSMap.key * window)) in Ho.
  apply in_map_iff in Ho as (w & <- & Hw).
  apply in_values_get in Hw; [|apply NoDup_keys_fold_step].
  destruct Hw as (k & Hk). rewrite get_fold_step in Hk.
  destruct (existsb _ l) eqn:E; [|discriminate]. injection Hk as <-.
  apply existsb_exists in E as (r & Hr & Hkr).
  unfold WindowFold.has_key in Hkr.
  destruct (JSMap.key_eq_dec _ k) as [Hk|]; [|discriminate].
  exists k, r. auto.
Qed.

(** X13: every record the PowerAggregator emits has [ts] equal to
    [ts_start] and [ts_end] one window size later, and is the window of
    some input record: its site and start are that record's window key, and
    when the record's timestamp in microseconds is a whole number [t] with
    [0 <= t < 2^53] and the window size a whole number [s > 0], the
    timestamp lies in [ts_start, ts_start + s). *)
Theorem power_emitted_window_geometry
    (size : option num) (l : list In.t) (o : Out.t) :
  In o (emit (feed (new size) l)) ->
  Out.ts o = Out.ts_start o
  /\ Out.ts_end o = add (Out.ts_start o) (windowSizeUs (new size))
  /\ exists r, In r l
       /\ getWindowKey (windowSizeUs (new size)) (record_ts r) (record_site r)
          = (Out.site_id o, Out.ts_start o)
       /\ forall t s : Z,
            record_ts r = Fin (inject_Z t) ->
            windowSizeUs (new size) = Fin (inject_Z s) ->
            (0 <= t < 2 ^ 53)%Z -> (0 < s)%Z ->
            exists k, Out.ts_start o = Fin k
                      /\ k <= inject_Z t < k + inject_Z s.
Proof.
  intros Ho. apply in_emit_window_of in Ho as (k & r & Hr & Hk & ->).
  unfold WindowFold.window_of.
  match goal with
  | |- context [fold_left upd ?rs ?w0] =>
      destruct (fold_upd_projections rs w0) as (H1 & H2 & H3 & _)
  end.
  cbn [emit_window Out.ts Out.ts_start Out.ts_end Out.site_id].
  rewrite H1, H2, H3. cbn [fresh ts_start ts_end site_id].
  split; [reflexivity|]. split; [reflexivity|].
  exists r. split; [exact Hr|]. split.
  - fold (key_of (windowSizeUs (new size)) r). rewrite Hk.
    destruct k; reflexivity.
  - intros t s Ht Hs Hrange Hpos. rewrite <- Hk. unfold key_of, getWindowKey.
    cbn [snd]. rewrite Ht, Hs.
    destruct (window_start_bounds t s Hrange Hpos) as (x & Hx & Hb).
    exists x. split; assumption.
Qed.
End PowerWindows.

Section JSMapAppend.
Variable V : Type.
Implicit Types (m : JSMap.t V) (k : JSMap.key) (v : V).

Lemma set_absent m k v :
  JSMap.get m k = None -> JSMap.set m k v = m ++ [(k, v)].
Proof.
  induction m as [|[k0 v0] m IH]; cbn; [reflexivity|].
  destruct (JSMap.key_eq_dec k k0); [discriminate|].
  intros H. rewrite IH by exact H. reflexivity.
Qed.

Lemma values_set_present (A : Type) (f : V -> list A) m k w v :
  JSMap.get m k = Some w ->
  forall extra, f v = f w ++ extra ->
  Permutation (flat_map f (JSMap.values (JSMap.set m k v)))
              (flat_map f (JSMap.values m) ++ extra).
Proof.
  unfold JSMap.values. intros Hget extra Hf.
  induction m as [|[k0 v0] m IH]; cbn in *; [discriminate|].
  destruct (JSMap.key_eq_dec k k0) as [->|Hne]; cbn.
  - injection Hget as ->. rewrite Hf, <- !app_assoc.
    apply Permutation_app_head, Permutation_app_comm.
  - rewrite <- app_assoc. apply Permutation_app_head, IH, Hget.
Qed.
End JSMapAppend.

Section FoldContent.
Variables R W A : Type.
Variable key_of : R -> JSMap.key.
Variable fresh : JSMap.key -> W.
Variable upd : W -> R -> W.
Variable content : W -> list A.
Variable added : R -> list A.
Hypothesis content_fresh : forall k, content (fresh k) = [].
Hypothesis content_upd : forall w r, content (upd w r) = content w ++ added r.

(** What the buckets hold is what the records added, bucket by bucket. *)
Lemma fold_step_content (l : list R) :
  Permutation
    (flat_map content
       (JSMap.values
          (fold_left (WindowFold.step R W key_of fresh upd) l [])))
    (flat_map added l).
Proof.
  induction l as [|r l IH] using rev_ind; [reflexivity|].
  rewrite (fold_left_app (WindowFold.step R W key_of fresh upd) l [r] []).
  rewrite (flat_map_app added l [r]). cbn [fold_left flat_map].
  rewrite app_nil_r, (step_eq R W key_of fresh upd).
  set (m := fold_left (WindowFold.step R W key_of fresh upd) l []) in *.
  destruct (JSMap.get m (key_of r)) as [w|] eqn:E.
  - rewrite (values_set_present W A content m (key_of r) w (upd w r) E
               (added r) (content_upd w r)).
    apply Permutation_app_tail, IH.
  - rewrite set_absent by exact E. unfold JSMap.values in *.
    rewrite map_app, flat_map_app. cbn [map flat_map snd].
    rewrite app_nil_r, content_upd, content_fresh. cbn [app].
    apply Permutation_app_tail, IH.
Qed.
End FoldContent.

Section PowerSamples.
Import Power PowerFold.

(** X14: the samples held by the windows of the PowerAggregator are,
    up to order, the usable samples of the input, each once; and no two
    emitted records share site and window start. *)
Theorem power_samples_conserved (size : option num) (l : list In.t) :
  Permutation
    (flat_map power_samples (JSMap.values (windows (feed (new size) l))))
    (samples_of l)
  /\ NoDup (map (fun o => (Out.site_id o, Out.ts_start o))
                (emit (feed (new size) l))).
Proof.
  destruct (feed_fold_step (new size) l) as [Hws Hfeed]. split.
  - rewrite Hfeed.
    change (windows (new size)) with (@nil (JSMap.key * window)).
    apply fold_step_content.
    + reflexivity.
    + intros w r. unfold upd. destruct (usable r); cbn;
        [reflexivity | rewrite app_nil_r; reflexivity].
  - unfold emit. rewrite Hws, Hfeed.
    change (windows (new size)) with (@nil (JSMap.key * window)).
    set (ws := windowSizeUs (new size)).
    set (m := fold_left (WindowFold.step In.t window (key_of ws) (fresh ws)
                           upd) l []).
    assert (Hm : forall k w, In (k, w) m ->
                   (site_id w, ts_start w) = k).
    { intros k w Hin.
      assert (Hget : JSMap.get m k = Some w).
      { pose proof (NoDup_keys_fold_step In.t window (key_of ws) (fresh ws)
                      upd l) as Hnd.
        fold m in Hnd. clear -Hin Hnd.
        induction m as [|[k0 w0] m IH]; [destruct Hin|].
        inversion Hnd as [|? ? Hnin Hnd']; subst. cbn.
        destruct Hin as [[= -> ->]|Hin].
        - destruct (JSMap.key_eq_dec k k); congruence.
        - destruct (JSMap.key_eq_dec k k0) as [->|]; [|auto].
          exfalso. apply Hnin. apply in_map_iff. exists (k0, w). auto. }
      unfold m in Hget. rewrite get_fold_step in Hget.
      destruct (existsb _ l); [|discriminate]. injection Hget as <-.
      unfold WindowFold.window_of.
      match goal with
      | |- context [fold_left upd ?rs ?w0] =>
          destruct (fold_upd_projections rs w0) as (H1 & _ & H3 & _)
      end.
      rewrite H1, H3. destruct k; reflexivity. }
    unfold JSMap.values. rewrite !map_map.
    rewrite (map_ext_in _ fst).
    + apply NoDup_keys_fold_step.
    + intros [k w] Hin. cbn. apply Hm, Hin.
Qed.

(** X15: a power record whose value is missing or not a number adds
    no sample: windows already there are unchanged, but a window that was
    not there is created empty, and an empty window emits power 0, energy 0
    and sample count 0. *)
Theorem addPowerRecord_unusable (a : aggregator) (r : In.t) :
  usable r = false ->
  (forall k w, JSMap.get (windows a) k = Some w ->
               JSMap.get (windows (addPowerRecord a r)) k = Some w)
  /\ (JSMap.get (windows a) (key_of (windowSizeUs a) r) = None ->
      windows (addPowerRecord a r)
      = windows a
        ++ [(key_of (windowSizeUs a) r,
             fresh (windowSizeUs a) (key_of (windowSizeUs a) r))])
  /\ (forall k,
        Out.power_w (emit_window (windowSizeUs a) (fresh (windowSizeUs a) k))
        = Fin 0
        /\ Out.energy_j_window
             (emit_window (windowSizeUs a) (fresh (windowSizeUs a) k)) = Fin 0
        /\ Out.sample_count
             (emit_window (windowSizeUs a) (fresh (windowSizeUs a) k)) = Fin 0).
Proof.
  intros Hu. destruct (addPowerRecord_step a r) as [_ ->]. rewrite step_eq.
  unfold upd. rewrite Hu. repeat split.
  - intros k w Hk.
    destruct (JSMap.key_eq_dec k (key_of (windowSizeUs a) r)) as [->|Hne].
    + rewrite get_set_same, Hk. reflexivity.
    + rewrite get_set_other by exact Hne. exact Hk.
  - intros Hnone. rewrite Hnone. apply set_absent, Hnone.
Qed.
End PowerSamples.

Section PowerSigns.
Import Power PowerFold.






End PowerSigns.

(** ** Prices *)

Section PricingFacts.
Import Cost Pricing.

Lemma gt_Fin (x y : Q) : gt (Fin x) (Fin y) = true <-> y < x.
Proof. unfold gt. apply lt_Fin. Qed.

Lemma price_loop_count (d : num) (records : list Tsv.t) (E S : num) (n : Z) :
  snd (fold_left (price_loop d) records (E, S, n))
  = (n + Z.of_nat (List.length
           (filter (fun r => nullish (Tsv.price_usd_per_mwh r)) records)))%Z.
Proof.
  revert E S n. induction records as [|r l IH]; intros E S n.
  - cbn. lia.
  - cbn [fold_left price_loop]. rewrite IH. cbn [filter].
    unfold resolvePrice.
    destruct (Tsv.price_usd_per_mwh r); cbn [defaulted nullish List.length];
      lia.
Qed.

Lemma price_loop_without_energy (d : num) (records : list Tsv.t) :
  Forall without_energy records ->
  forall S n, exists S',
    fst (fold_left (price_loop d) records (Fin 0, S, n)) = (Fin 0, S').
Proof.
  intros H. induction H as [|r l Hr Hl IH]; intros S m.
  - exists S. reflexivity.
  - cbn [fold_left price_loop]. unfold without_energy in Hr. rewrite Hr.
    change (add (Fin 0) (Fin 0)) with (Fin 0). apply IH.
Qed.

(** X19: [defaultedCount] is the number of records without a price;
    when no record adds energy the average price is the default price, 50
    USD/MWh if none is given. *)
Theorem computeWeightedAveragePrice_defaults
    (records : list Tsv.t) (defaultPrice : option num) :
  defaultedCount (computeWeightedAveragePrice records defaultPrice)
  = Z.of_nat (List.length
       (filter (fun r => nullish (Tsv.price_usd_per_mwh r)) records))
  /\ (Forall without_energy records ->
      avgPrice (computeWeightedAveragePrice records defaultPrice)
      = Enst.default defaultPrice DEFAULT_PRICE_USD_PER_MWH)
  /\ avgPrice (computeWeightedAveragePrice [] None) = Fin 50.
Proof.
  unfold computeWeightedAveragePrice.
  set (d := Enst.default defaultPrice DEFAULT_PRICE_USD_PER_MWH).
  split; [|split].
  - pose proof (price_loop_count d records (Fin 0) (Fin 0) 0) as H.
    destruct (fold_left (price_loop d) records (Fin 0, Fin 0, 0%Z))
      as [[E S] n]. cbn in H |- *. exact H.
  - intros Hl.
    destruct (price_loop_without_energy d records Hl (Fin 0) 0%Z) as [S' H];
      destruct (fold_left (price_loop d) records (Fin 0, Fin 0, 0%Z))
        as [[E S] n]; cbn in H; injection H as -> ->; reflexivity.
  - reflexivity.
Qed.

End PricingFacts.

(** ** Policy replay and its impact *)

Section ImpactFacts.
Import Policy PolicyStream Cost Pricing.

Ltac evaluatePolicy_cases record policy :=
  unfold evaluatePolicy;
  destruct (negb (is_null (Config.energy_cap_w policy))
            && negb (is_null (power_w record)))%bool;
    [destruct (gt (ToNumber (power_w record))
                  (ToNumber (Config.energy_cap_w policy)))|];
    (destruct (negb (is_null (Config.thermal_cap_w policy))
               && negb (is_null (thermal_headroom_w record)))%bool;
     [destruct (lt (ToNumber (thermal_headroom_w record))
                   (ToNumber (Config.thermal_cap_w policy)))|]);
    (destruct (negb (is_null (Config.grid_stress_cap policy))
               && negb (is_null (grid_stress_index record)))%bool;
     [destruct (gt (ToNumber (grid_stress_index record))
                   (ToNumber (Config.grid_stress_cap policy)))|]);
    cbn [throttle_applied throttle_factor migrate_flag violations app].


Lemma evaluatePolicy_violation_types (record : tsv) (policy : Config.t) :
  Forall (fun v => In (type v)
                      ["energy_cap"%string; "thermal_cap"%string;
                       "grid_stress"%string])
         (violations (evaluatePolicy record policy)).
Proof.
  evaluatePolicy_cases record policy;
    repeat (apply Forall_cons; [cbn; auto 10|]); apply Forall_nil.
Qed.

Lemma evaluatePolicy_within_throttling_caps (record : tsv) (policy : Config.t) :
  within_throttling_caps record policy ->
  throttle_applied (evaluatePolicy record policy) = false.
Proof.
  intros (He & Ht). unfold evaluatePolicy.
  pose proof (energy_check_passes record policy He) as E1.
  pose proof (thermal_check_passes record policy Ht) as E2.
  destruct (negb (is_null (Config.energy_cap_w policy))
            && negb (is_null (power_w record)))%bool;
    [rewrite E1 by reflexivity|];
    (destruct (negb (is_null (Config.thermal_cap_w policy))
               && negb (is_null (thermal_headroom_w record)))%bool;
     [rewrite E2 by reflexivity|]);
    case_ifs; reflexivity.
Qed.

Lemma fold_left_map_ext_in (A B C : Type) (f : A -> B -> A) (g : C -> B)
    (h : A -> C -> A) (l : list C) :
  (forall a x, In x l -> f a (g x) = h a x) ->
  forall a, fold_left f (map g l) a = fold_left h l a.
Proof.
  induction l as [|x l IH]; intros H a; [reflexivity|].
  cbn [map fold_left]. rewrite H by (left; reflexivity).
  apply IH. intros a' y Hy. apply H. right. exact Hy.
Qed.

Lemma filter_map_length (A B : Type) (p : B -> bool) (q : A -> bool)
    (g : A -> B) (l : list A) :
  (forall x, In x l -> p (g x) = q x) ->
  List.length (filter p (map g l)) = List.length (filter q l).
Proof.
  induction l as [|x l IH]; intros H; [reflexivity|].
  cbn [map filter]. rewrite H by (left; reflexivity).
  destruct (q x); cbn [List.length]; rewrite IH; auto;
    intros y Hy; apply H; right; exact Hy.
Qed.

(** X21: when every record is within the energy and thermal caps of
    the merged policy, [applyPolicyStream] yields the records with their
    measurements and prices unchanged, and the policy side of the impact
    summary equals the baseline side. *)
Theorem applyPolicyStream_within_caps
    (records : list Tsv.t) (policy : Options.t)
    (defaultPriceUsdPerMwh : option num) :
  Forall (fun r => within_throttling_caps (Tsv.record r)
                     (mergedPolicy policy)) records ->
  map Tsv.record (applyPolicyStream records policy)
  = map Tsv.record records
  /\ map Tsv.price_usd_per_mwh (applyPolicyStream records policy)
     = map Tsv.price_usd_per_mwh records
  /\ Impact.policy (Impact.replay records policy defaultPriceUsdPerMwh)
     = Impact.baseline (Impact.replay records policy defaultPriceUsdPerMwh).
Proof.
  intros H. rewrite Forall_forall in H.
  assert (Hrec : forall r, In r records ->
            Tsv.record (applyPolicyStream_step (mergedPolicy policy) r)
            = Tsv.record r).
  { intros r Hr. cbn. unfold applyThrottle.
    rewrite (evaluatePolicy_within_throttling_caps _ _ (H r Hr)).
    reflexivity. }
  unfold applyPolicyStream. rewrite !map_map.
  split; [apply map_ext_in; exact Hrec|]. split; [reflexivity|].
  unfold Impact.replay, Impact.computePolicyImpact, applyPolicyStream.
  cbn [Impact.policy Impact.baseline].
  assert (Hsum : forall f,
            Impact.sum_or_zero f
              (map (applyPolicyStream_step (mergedPolicy policy)) records)
            = Impact.sum_or_zero f records).
  { intros f. unfold Impact.sum_or_zero. apply fold_left_map_ext_in.
    intros a r Hr. rewrite (Hrec r Hr). reflexivity. }
  assert (Havg : forall d,
            computeWeightedAveragePrice
              (map (applyPolicyStream_step (mergedPolicy policy)) records) d
            = computeWeightedAveragePrice records d).
  { intros d. unfold computeWeightedAveragePrice.
    rewrite (fold_left_map_ext_in _ _ _ _ _
               (price_loop (Enst.default d DEFAULT_PRICE_USD_PER_MWH)));
      [reflexivity|].
    intros [[E S] n] r Hr. unfold price_loop. rewrite (Hrec r Hr).
    reflexivity. }
  rewrite !Hsum, !Havg. unfold length_num. rewrite length_map. reflexivity.
Qed.

(** X21, witness: under a power cap of 2500 W and a thermal cap of 50000 W,
    a window at 2000 W with a headroom of 60000 W and a window at 2000 W
    without a thermal reading are within both caps; they are yielded with
    their measurements unchanged, and the policy summary of the replay is
    the baseline summary. *)
Lemma applyPolicyStream_within_caps_witness :
  map (fun r => power_w (Tsv.record r)) capped_windows
  = [Num (Fin 2000); Num (Fin 2000)]
  /\ map (fun r => thermal_headroom_w (Tsv.record r)) capped_windows
     = [Num (Fin 60000); Null]
  /\ gt (Fin 2000) (Fin 2500) = false
  /\ lt (Fin 60000) (Fin 50000) = false
  /\ map Tsv.record (applyPolicyStream capped_windows capped_policy)
     = map Tsv.record capped_windows
  /\ Impact.policy (Impact.replay capped_windows capped_policy None)
     = Impact.baseline (Impact.replay capped_windows capped_policy None).
Proof.
  destruct (applyPolicyStream_within_caps capped_windows capped_policy None)
    as (H1 & _ & H3).
  - apply Forall_cons; [|apply Forall_cons; [|apply Forall_nil]].
    + split.
      * intros c p Hc Hp.
        assert (c = Fin 2500) as -> by (vm_compute in Hc; congruence).
        assert (p = Fin 2000) as -> by (vm_compute in Hp; congruence).
        reflexivity.
      * intros c h Hc Hh.
        assert (c = Fin 50000) as -> by (vm_compute in Hc; congruence).
        assert (h = Fin 60000) as -> by (vm_compute in Hh; congruence).
        reflexivity.
    + split.
      * intros c p Hc Hp.
        assert (c = Fin 2500) as -> by (vm_compute in Hc; congruence).
        assert (p = Fin 2000) as -> by (vm_compute in Hp; congruence).
        reflexivity.
      * intros c h Hc Hh. discriminate Hh.
  - split; [reflexivity|]. split; [reflexivity|].
    split; [reflexivity|]. split; [reflexivity|].
    split; [exact H1 | exact H3].
Defined.

Lemma Qred_inject_Z (z : Z) : Qred (inject_Z z) = inject_Z z.
Proof.
  unfold Qred, inject_Z.
  pose proof (Z.ggcd_gcd z 1) as Hg.
  pose proof (Z.ggcd_correct_divisors z 1) as Hd.
  destruct (Z.ggcd z 1) as [g [aa bb]]. cbn in Hg, Hd.
  rewrite Z.gcd_1_r in Hg. subst g. destruct Hd as [Ha Hb].
  rewrite Z.mul_1_l in Ha, Hb. subst z bb. reflexivity.
Qed.

Lemma count_step (a : Z) :
  add (or_num (Num (Fin (inject_Z a))) (Fin 0)) (Fin 1)
  = Fin (inject_Z (a + 1)).
Proof.
  assert (H : exists v, or_num (Num (Fin (inject_Z a))) (Fin 0) = Fin v
                        /\ v == inject_Z a).
  { cbn [or_num truthy_num]. destruct (Qeq_bool (inject_Z a) 0) eqn:E; cbn [negb].
    - exists 0. split; [reflexivity|]. apply Qeq_bool_eq in E. rewrite E.
      reflexivity.
    - exists (inject_Z a). split; reflexivity. }
  destruct H as (v & -> & Hv). cbn [add fin]. apply (f_equal Fin).
  rewrite <- (Qred_inject_Z (a + 1)). apply Qred_complete.
  rewrite Hv, inject_Z_plus. reflexivity.
Qed.

Lemma fold_left_flat_map (A B C : Type) (f : A -> B -> A) (g : C -> list B)
    (l : list C) (a : A) :
  fold_left f (flat_map g l) a
  = fold_left (fun a x => fold_left f (g x) a) l a.
Proof.
  revert a. induction l as [|x l IH]; intros a; [reflexivity|].
  cbn [flat_map fold_left]. rewrite fold_left_app. apply IH.
Qed.

Lemma count_violations_tally (vs : list violation) :
  Forall (fun v => In (type v)
                      ["energy_cap"%string; "thermal_cap"%string;
                       "grid_stress"%string]) vs ->
  forall a b c : Z,
    fold_left Impact.count_violation vs
      [("energy_cap"%string, Fin (inject_Z a));
       ("thermal_cap"%string, Fin (inject_Z b));
       ("grid_stress"%string, Fin (inject_Z c))]
    = [("energy_cap"%string,
        Fin (inject_Z (a + Z.of_nat (List.length
               (filter (fun v => String.eqb (type v) "energy_cap") vs)))));
       ("thermal_cap"%string,
        Fin (inject_Z (b + Z.of_nat (List.length
               (filter (fun v => String.eqb (type v) "thermal_cap") vs)))));
       ("grid_stress"%string,
        Fin (inject_Z (c + Z.of_nat (List.length
               (filter (fun v => String.eqb (type v) "grid_stress") vs)))))].
Proof.
  intros H. induction H as [|v vs Hv Hvs IH]; intros a b c.
  - cbn. rewrite !Z.add_0_r. reflexivity.
  - cbn [fold_left filter]. unfold Impact.count_violation at 2.
    destruct Hv as [Hv|[Hv|[Hv|[]]]]; rewrite <- Hv;
      cbn [Impact.get_count Impact.set_count String.eqb Ascii.eqb Bool.eqb];
      rewrite count_step, IH; cbn [List.length];
      repeat match goal with
             | |- (_ :: _) = (_ :: _) => f_equal
             | |- (_, _) = (_, _) => f_equal
             | |- Fin _ = Fin _ => f_equal
             | |- inject_Z _ = inject_Z _ => f_equal
             end; lia.
Qed.

(** X22: for records without earlier policy marks,
    [throttled_windows] is the number of records the policy throttles, the
    [violations] counters are the numbers of violations of each type, and
    [migrate_flagged_windows] counts only the records that are both
    throttled and flagged for migration. *)
Theorem replay_counts
    (records : list Tsv.t) (policy : Options.t)
    (defaultPriceUsdPerMwh : option num) :
  Forall without_policy_metadata records ->
  Impact.throttled_windows (Impact.replay records policy defaultPriceUsdPerMwh)
  = length_num (filter (fun r => throttle_applied (evaluation_of policy r))
                       records)
  /\ Impact.migrate_flagged_windows
       (Impact.replay records policy defaultPriceUsdPerMwh)
     = length_num
         (filter (fun r => (throttle_applied (evaluation_of policy r)
                            && migrate_flag (evaluation_of policy r))%bool)
                 records)
  /\ Impact.violations (Impact.replay records policy defaultPriceUsdPerMwh)
     = [("energy_cap"%string, violations_of_type "energy_cap" policy records);
        ("thermal_cap"%string, violations_of_type "thermal_cap" policy records);
        ("grid_stress"%string, violations_of_type "grid_stress" policy records)].
Proof.
  intros H. rewrite Forall_forall in H.
  unfold Impact.replay, Impact.computePolicyImpact, applyPolicyStream.
  cbn [Impact.throttled_windows Impact.migrate_flagged_windows
       Impact.violations].
  split; [|split].
  - unfold length_num. do 3 f_equal. apply filter_map_length.
    intros r Hr. cbn [applyPolicyStream_step Tsv.record Tsv.set_record Tsv.set_policy_evaluation].
    destruct (applyThrottle_projections (Tsv.record r)
                (evaluatePolicy (Tsv.record r) (mergedPolicy policy)))
      as (_ & _ & -> & _).
    destruct (H r Hr) as [-> _]. apply orb_false_r.
  - unfold length_num. do 3 f_equal. apply filter_map_length.
    intros r Hr. cbn [applyPolicyStream_step Tsv.record Tsv.set_record Tsv.set_policy_evaluation].
    destruct (applyThrottle_projections (Tsv.record r)
                (evaluatePolicy (Tsv.record r) (mergedPolicy policy)))
      as (_ & _ & _ & ->).
    destruct (H r Hr) as [_ ->]. unfold evaluation_of.
    destruct (throttle_applied _); reflexivity.
  - rewrite (fold_left_map_ext_in _ _ _ _ _
               (fun vs r => fold_left Impact.count_violation
                              (violations (evaluation_of policy r)) vs))
      by reflexivity.
    rewrite <- (fold_left_flat_map _ _ _ Impact.count_violation
                  (fun r => violations (evaluation_of policy r))).
    apply (count_violations_tally _) with (a := 0%Z) (b := 0%Z) (c := 0%Z).
    apply Forall_forall. intros v Hv.
    apply in_flat_map in Hv as (r & _ & Hv).
    pose proof (evaluatePolicy_violation_types (Tsv.record r)
                  (mergedPolicy policy)) as Ht.
    rewrite Forall_forall in Ht. apply Ht, Hv.
Qed.








End ImpactFacts.

(** ** Usage job counts *)

Section FoldMeasure.
Variables R W : Type.
Variable key_of : R -> JSMap.key.
Variable fresh : JSMap.key -> W.
Variable upd : W -> R -> W.
Variable measure : W -> Z.
Variable added : R -> Z.
Hypothesis measure_fresh : forall k, measure (fresh k) = 0%Z.
Hypothesis measure_upd : forall w r, measure (upd w r) = (measure w + added r)%Z.

Lemma measure_set_present (m : JSMap.t W) (k : JSMap.key) (w v : W) :
  JSMap.get m k = Some w ->
  fold_right Z.add 0%Z (map measure (JSMap.values (JSMap.set m k v)))
  = (fold_right Z.add 0%Z (map measure (JSMap.values m))
     - measure w + measure v)%Z.
Proof.
  unfold JSMap.values. induction m as [|[k0 v0] m IH]; cbn; [discriminate|].
  destruct (JSMap.key_eq_dec k k0) as [->|Hne]; cbn.
  - intros [= ->]. lia.
  - intros H. rewrite (IH H). lia.
Qed.

(** The measures of the buckets add up to what the records added. *)
Lemma fold_step_measure (l : list R) :
  fold_right Z.add 0%Z
    (map measure
       (JSMap.values (fold_left (WindowFold.step R W key_of fresh upd) l [])))
  = fold_right Z.add 0%Z (map added l).
Proof.
  induction l as [|r l IH] using rev_ind; [reflexivity|].
  rewrite (fold_left_app (WindowFold.step R W key_of fresh upd) l [r] []).
  cbn [fold_left]. rewrite (step_eq R W key_of fresh upd).
  set (m := fold_left (WindowFold.step R W key_of fresh upd) l []) in *.
  rewrite map_app, fold_right_app. cbn [map fold_right].
  assert (Hacc : forall (xs : list Z) (a : Z),
             fold_right Z.add a xs = (fold_right Z.add 0 xs + a)%Z).
  { induction xs as [|x xs IHx]; intros a; cbn; [lia|]. rewrite IHx. lia. }
  rewrite (Hacc (map added l)), <- IH.
  destruct (JSMap.get m (key_of r)) as [w|] eqn:E.
  - rewrite (measure_set_present m (key_of r) w (upd w r) E), measure_upd. lia.
  - rewrite set_absent by exact E. unfold JSMap.values.
    rewrite !map_app, fold_right_app. cbn [map fold_right snd].
    rewrite (Hacc (map measure (map snd m))), measure_upd, measure_fresh. lia.
Qed.
End FoldMeasure.

Section UsageJobs.
Import Usage UsageFold.

Lemma job_increment_is_job_event (r : In.t) :
  job_increment r = if is_job_event r then 1%Z else 0%Z.
Proof.
  unfold job_increment, is_job_event.
  destruct (In.type r), (In.event_type r); reflexivity.
Qed.

Lemma job_count_nonneg (rs : list In.t) (z : Z) :
  (0 <= z)%Z -> (0 <= fold_left (fun z r => z + job_increment r) rs z)%Z.
Proof.
  revert z. induction rs as [|r rs IH]; intros z Hz; [exact Hz|].
  cbn [fold_left]. apply IH.
  pose proof (job_increment_is_job_event r) as Hr.
  destruct (is_job_event r); lia.
Qed.

(** X18: the [job_queue_depth] values of the records the
    UsageAggregator emits add up to the number of input records that carry
    [type] or [event_type], and none is negative. *)
Theorem usage_job_queue_depth_total (size : option num) (l : list In.t) :
  fold_right Z.add 0%Z (map Out.job_queue_depth (emit (feed (new size) l)))
  = Z.of_nat (List.length (filter is_job_event l))
  /\ Forall (fun o => (0 <= Out.job_queue_depth o)%Z) (emit (feed (new size) l)).
Proof.
  destruct (usage_feed_fold_step (new size) l) as [Hws Hfeed].
  unfold emit. rewrite Hfeed.
  change (windows (new size)) with (@nil (JSMap.key * window)).
  set (ws := windowSizeUs (new size)).
  split.
  - rewrite map_map.
    change (fun x => Out.job_queue_depth (emit_window x)) with job_count.
    rewrite (fold_step_measure In.t window (key_of ws) (fresh ws) update_window
               job_count job_increment).
    + clear Hws Hfeed. induction l as [|r l IH]; [reflexivity|].
      cbn [map fold_right filter]. rewrite IH, job_increment_is_job_event.
      destruct (is_job_event r); cbn [List.length]; lia.
    + reflexivity.
    + intros w r. unfold update_window, job_increment. cbn [job_count].
      destruct (In.type r), (In.event_type r); lia.
  - apply Forall_forall. intros o Ho.
    apply in_map_iff in Ho as (w & <- & Hw).
    apply in_values_get in Hw; [|apply NoDup_keys_fold_step].
    destruct Hw as (k & Hk). rewrite get_fold_step in Hk.
    destruct (existsb _ l); [|discriminate]. injection Hk as <-.
    unfold WindowFold.window_of.
    match goal with
    | |- context [fold_left update_window ?rs ?w0] =>
        destruct (fold_update_window_projections rs w0)
          as (_ & _ & _ & _ & _ & _ & Hj & _)
    end.
    cbn [emit_window Out.job_queue_depth]. rewrite Hj.
    apply job_count_nonneg. cbn. lia.
Qed.
End UsageJobs.

(** ** Instances *)



(** X9, witness: the record throttled for 3000 W over a cap of 2500 W. *)
Lemma applyThrottle_enst_recomputed_witness :
  Policy.throttle_applied
    (Policy.evaluatePolicy throttle_record throttle_policy) = true
  /\ enst (Policy.applyThrottle throttle_record
             (Policy.evaluatePolicy throttle_record throttle_policy))
     = Enst.computeEnst
         (Policy.applyThrottle throttle_record
            (Policy.evaluatePolicy throttle_record throttle_policy)).
Proof.
  split; [reflexivity|].
  destruct (applyThrottle_enst_recomputed throttle_record
              (Policy.evaluatePolicy throttle_record throttle_policy)
              (Fin 100) eq_refl eq_refl) as [H _].
  apply H. reflexivity.
Defined.

(** X11, witness: a timestamp in seconds, 1700000000. *)
Lemma normalizeTimestamp_idempotent_witness :
  Power.normalizeTimestamp (Power.normalizeTimestamp (Fin 1700000000))
  = Power.normalizeTimestamp (Fin 1700000000)
  /\ le (Fin 10000000000000) (Power.normalizeTimestamp (Fin 1700000000)) = true.
Proof.
  apply (normalizeTimestamp_idempotent (Fin 1700000000)). reflexivity.
Defined.

(** X13, witness: two readings one minute apart, at 1700000000 s and
    1700000060 s, in windows of 300000000 us: every emitted record starts at
    most 300 s before one of the two timestamps, in microseconds, and not
    after it. *)
Lemma power_emitted_window_geometry_witness :
  map Power.Out.ts_start
      (Power.emit (Power.feed (Power.new None) power_readings))
  = [Fin 1699999800000000]
  /\ Forall (fun o => Power.Out.ts o = Power.Out.ts_start o
                   /\ Power.Out.ts_end o
                      = add (Power.Out.ts_start o) (Fin 300000000)
                   /\ exists k t,
                        (t = 1700000000000000 \/ t = 1700000060000000)%Z
                        /\ Power.Out.ts_start o = Fin k
                        /\ k <= inject_Z t < k + 300000000)
         (Power.emit (Power.feed (Power.new None) power_readings)).
Proof.
  split; [vm_compute; reflexivity|].
  apply Forall_forall. intros o Ho.
  destruct (power_emitted_window_geometry None power_readings o Ho)
    as (H1 & H2 & r & Hr & _ & Hb).
  split; [exact H1|]. split; [exact H2|].
  destruct Hr as [<- | [<- | []]].
  - destruct (Hb 1700000000000000%Z 300000000%Z eq_refl eq_refl)
      as (k & Hk & Hkb); [lia | lia |].
    exists k, 1700000000000000%Z. split; [left; reflexivity|].
    split; [exact Hk | exact Hkb].
  - destruct (Hb 1700000060000000%Z 300000000%Z eq_refl eq_refl)
      as (k & Hk & Hkb); [lia | lia |].
    exists k, 1700000060000000%Z. split; [right; reflexivity|].
    split; [exact Hk | exact Hkb].
Defined.

(** X15, witness: a reading whose power is the string "n/a" fed to an empty
    aggregator opens an empty window. *)
Lemma addPowerRecord_unusable_witness :
  PowerFold.usable (unusable_reading "site-a" 1700000000) = false
  /\ Power.windows
       (Power.addPowerRecord (Power.new None)
          (unusable_reading "site-a" 1700000000))
     = [(PowerFold.key_of (Fin 300000000)
           (unusable_reading "site-a" 1700000000),
         PowerFold.fresh (Fin 300000000)
           (PowerFold.key_of (Fin 300000000)
              (unusable_reading "site-a" 1700000000)))].
Proof.
  split; [reflexivity|].
  destruct (addPowerRecord_unusable (Power.new None)
              (unusable_reading "site-a" 1700000000) eq_refl)
    as (_ & H & _).
  exact (H eq_refl).
Defined.


(** X17, witness: a record with CPU utilisation 1.5 and no GPU utilisation. *)
Lemma usage_emit_in_range_for_numeric_input_witness :
  Forall (fun o => in_unit_interval (Usage.Out.cpu_util o)
                   /\ util_in_range (Usage.Out.gpu_util o)
                   /\ util_in_range (Usage.Out.mem_util o))
         (Usage.emit
            (Usage.feed (Usage.new None)
               [usage_reading "site-a" 1700000000 (RNum (Fin (3 # 2)))
                  RUndefined])).
Proof.
  apply (usage_emit_in_range_for_numeric_input None).
  apply Forall_cons; [|apply Forall_nil].
  apply Forall_cons; [right; reflexivity|].
  apply Forall_cons; [left; reflexivity|].
  apply Forall_cons; [left; reflexivity|apply Forall_nil].
Defined.

(** X22, witness: one window over the power cap and one over the grid stress cap
    only: one throttled window, one grid_stress violation, no migration
    flag counted. *)
Lemma replay_counts_witness :
  Impact.throttled_windows (Impact.replay replay_windows replay_policy None)
  = Fin 1
  /\ Impact.migrate_flagged_windows
       (Impact.replay replay_windows replay_policy None) = Fin 0
  /\ Impact.violations (Impact.replay replay_windows replay_policy None)
     = [("energy_cap"%string, Fin 1); ("thermal_cap"%string, Fin 0);
        ("grid_stress"%string, Fin 1)].
Proof.
  destruct (replay_counts replay_windows replay_policy None)
    as (H1 & H2 & H3).
  - apply Forall_cons; [split; reflexivity|].
    apply Forall_cons; [split; reflexivity|apply Forall_nil].
  - rewrite H1, H2, H3. repeat split.
Defined.


(** ** The sites map *)

Section SiteMapFacts.
Variable V : Type.
Implicit Types (m : SiteMap.t V) (k : string) (v : V).

Lemma site_get_set_same m k v : SiteMap.get (SiteMap.set m k v) k = Some v.
Proof.
  induction m as [|[k' v'] m IH]; cbn.
  - destruct (string_dec k k); congruence.
  - destruct (string_dec k k') as [->|Hne]; cbn.
    + destruct (string_dec k' k'); congruence.
    + destruct (string_dec k k'); congruence.
Qed.

Lemma site_get_set_other m k k' v :
  k' <> k -> SiteMap.get (SiteMap.set m k v) k' = SiteMap.get m k'.
Proof.
  intros Hne. induction m as [|[k0 v0] m IH]; cbn.
  - destruct (string_dec k' k); congruence.
  - destruct (string_dec k k0) as [->|H0]; cbn.
    + destruct (string_dec k' k0); congruence.
    + destruct (string_dec k' k0); congruence.
Qed.

Lemma site_set_set m k v v' :
  SiteMap.set (SiteMap.set m k v) k v' = SiteMap.set m k v'.
Proof.
  induction m as [|[k0 v0] m IH]; cbn.
  - destruct (string_dec k k); congruence.
  - destruct (string_dec k k0) as [->|H0]; cbn.
    + destruct (string_dec k0 k0); congruence.
    + destruct (string_dec k k0); congruence.
Qed.

Lemma site_in_keys_get m k :
  In k (map fst m) <-> SiteMap.get m k <> None.
Proof.
  induction m as [|[k0 v0] m IH]; cbn.
  - intuition congruence.
  - destruct (string_dec k k0) as [->|H0].
    + intuition congruence.
    + rewrite IH. intuition congruence.
Qed.

Lemma site_in_keys_set m k k' v :
  In k' (map fst (SiteMap.set m k v)) <-> k' = k \/ In k' (map fst m).
Proof.
  rewrite !site_in_keys_get.
  destruct (string_dec k' k) as [->|Hne].
  - rewrite site_get_set_same. intuition congruence.
  - rewrite site_get_set_other by exact Hne. intuition congruence.
Qed.

Lemma site_NoDup_keys_set m k v :
  NoDup (map fst m) -> NoDup (map fst (SiteMap.set m k v)).
Proof.
  induction m as [|[k0 v0] m IH]; cbn; intros H.
  - constructor; [intros []|constructor].
  - inversion H as [|? ? Hnin Hnd]; subst.
    destruct (string_dec k k0) as [->|H0]; cbn.
    + constructor; assumption.
    + constructor; [|apply IH, Hnd].
      rewrite site_in_keys_set. intuition congruence.
Qed.

Lemma site_in_get m k v :
  NoDup (map fst m) -> In (k, v) m -> SiteMap.get m k = Some v.
Proof.
  induction m as [|[k0 v0] m IH]; cbn; intros Hnd Hin; [destruct Hin|].
  inversion Hnd as [|? ? Hnin Hnd']; subst.
  destruct Hin as [[= -> ->]|Hin].
  - destruct (string_dec k k); congruence.
  - destruct (string_dec k k0) as [->|]; [|auto].
    exfalso. apply Hnin. apply in_map_iff. exists (k0, v). auto.
Qed.

Lemma site_get_in m k v : SiteMap.get m k = Some v -> In (k, v) m.
Proof.
  induction m as [|[k0 v0] m IH]; cbn; [discriminate|].
  destruct (string_dec k k0) as [->|].
  - intros [= ->]. left. reflexivity.
  - intros H. right. apply IH, H.
Qed.
End SiteMapFacts.

Section SiteFoldFacts.
Variables R W : Type.
Variable key_of : R -> string.
Variable fresh : R -> W.
Variable upd : W -> R -> W.

Abbreviation site_step := (SiteFold.step R W key_of fresh upd).
Abbreviation bucket_of := (SiteFold.bucket_of R W key_of fresh upd).
Abbreviation site_has_key := (SiteFold.has_key R key_of).

Lemma site_step_eq (m : SiteMap.t W) (r : R) :
  site_step m r
  = SiteMap.set m (key_of r)
      (upd (match SiteMap.get m (key_of r) with
            | Some w => w
            | None => fresh r
            end) r).
Proof.
  unfold SiteFold.step, SiteMap.has.
  destruct (SiteMap.get m (key_of r)) as [w|] eqn:E.
  - rewrite E. reflexivity.
  - rewrite site_get_set_same, site_set_set. reflexivity.
Qed.

Lemma bucket_of_snoc (k : string) (l : list R) (r : R) :
  bucket_of k (l ++ [r])
  = if site_has_key k r
    then Some (upd (match bucket_of k l with
                    | Some w => w
                    | None => fresh r
                    end) r)
    else bucket_of k l.
Proof.
  unfold SiteFold.bucket_of. rewrite filter_app. cbn [filter].
  destruct (site_has_key k r).
  - destruct (filter (site_has_key k) l) as [|r0 rs]; [reflexivity|].
    change ((r0 :: rs) ++ [r]) with (r0 :: (rs ++ [r])). cbv iota.
    change (r0 :: (rs ++ [r])) with ((r0 :: rs) ++ [r]).
    rewrite fold_left_app. reflexivity.
  - rewrite app_nil_r. reflexivity.
Qed.

(** The site of every key after a stream fed to the empty map. *)
Lemma site_get_fold_step (l : list R) (k : string) :
  SiteMap.get (fold_left site_step l []) k = bucket_of k l.
Proof.
  induction l as [|r l IH] using rev_ind; [reflexivity|].
  rewrite fold_left_app. cbn [fold_left]. rewrite site_step_eq.
  rewrite bucket_of_snoc. unfold SiteFold.has_key at 1.
  destruct (string_dec (key_of r) k) as [<-|Hne].
  - rewrite site_get_set_same, IH. reflexivity.
  - rewrite site_get_set_other by congruence. exact IH.
Qed.

Lemma site_NoDup_keys_fold_step (l : list R) :
  NoDup (map fst (fold_left site_step l [])).
Proof.
  induction l as [|r l IH] using rev_ind; [constructor|].
  rewrite fold_left_app. cbn [fold_left]. rewrite site_step_eq.
  apply site_NoDup_keys_set, IH.
Qed.

Lemma bucket_of_some (l : list R) (k : string) :
  bucket_of k l <> None <-> In k (map key_of l).
Proof.
  unfold SiteFold.bucket_of.
  destruct (filter (site_has_key k) l) as [|r rs] eqn:E.
  - split; [congruence|]. intros Hin. exfalso.
    apply in_map_iff in Hin as (r & <- & Hr).
    assert (In r (filter (site_has_key (key_of r)) l)).
    { apply filter_In. split; [exact Hr|]. unfold SiteFold.has_key.
      destruct (string_dec (key_of r) (key_of r)); congruence. }
    rewrite E in H. destruct H.
  - split; [intros _|congruence].
    assert (Hr : In r (filter (site_has_key k) l)) by (rewrite E; left; reflexivity).
    apply filter_In in Hr as [Hr Hk]. unfold SiteFold.has_key in Hk.
    destruct (string_dec (key_of r) k) as [<-|]; [|discriminate].
    apply in_map, Hr.
Qed.

Lemma site_in_keys_fold_step (l : list R) (k : string) :
  In k (map fst (fold_left site_step l [])) <-> In k (map key_of l).
Proof.
  rewrite site_in_keys_get, site_get_fold_step. apply bucket_of_some.
Qed.
End SiteFoldFacts.

(** ** The leaderboard *)

Section ArraySort.
Variable A : Type.
Variable compare : A -> A -> num.

Lemma array_insert_perm (x : A) (l : list A) :
  Permutation (JSArray.insert compare x l) (x :: l).
Proof.
  induction l as [|y l IH]; cbn [JSArray.insert]; [reflexivity|].
  destruct (gt (compare x y) (Fin 0)); [|reflexivity].
  rewrite IH. apply perm_swap.
Qed.

Lemma array_sort_perm (l : list A) : Permutation (JSArray.sort compare l) l.
Proof.
  induction l as [|x l IH]; cbn [JSArray.sort]; [reflexivity|].
  rewrite array_insert_perm. apply perm_skip, IH.
Qed.
End ArraySort.

Section LeaderboardFacts.
Import Leaderboard.

Abbreviation board_step b :=
  (SiteFold.step Tsv.t Site.t site_key (new_site b) (update_site b)).

Lemma addRecord_is_step (b : t) (r : Tsv.t) :
  workUnitsMode (addRecord b r) = workUnitsMode b
  /\ defaultPriceUsdPerMwh (addRecord b r) = defaultPriceUsdPerMwh b
  /\ sites (addRecord b r) = board_step b (sites b) r.
Proof. repeat split. Qed.

Lemma leaderboard_feed_fold (b : t) (l : list Tsv.t) :
  workUnitsMode (feed b l) = workUnitsMode b
  /\ defaultPriceUsdPerMwh (feed b l) = defaultPriceUsdPerMwh b
  /\ sites (feed b l) = fold_left (board_step b) l (sites b).
Proof.
  unfold feed. revert b. induction l as [|r l IH]; intros b;
    [repeat split|].
  cbn [fold_left]. destruct (IH (addRecord b r)) as (H1 & H2 & H3).
  destruct (addRecord_is_step b r) as (H4 & H5 & H6).
  rewrite H1, H2, H3, H4, H5, H6. repeat split.
Qed.

Lemma entry_of_config (b b' : t) (site : Site.t) :
  defaultPriceUsdPerMwh b = defaultPriceUsdPerMwh b' ->
  entry_of b site = entry_of b' site.
Proof. intros H. unfold entry_of. rewrite H. reflexivity. Qed.

Lemma fold_update_site_projections (b : t) (rs : list Tsv.t) (w : Site.t) :
  Site.site_id (fold_left (update_site b) rs w) = Site.site_id w
  /\ Site.cluster_id (fold_left (update_site b) rs w) = Site.cluster_id w
  /\ Site.total_energy_j (fold_left (update_site b) rs w)
     = fold_left (fun sum r => add_present sum (energy_j (Tsv.record r)))
                 rs (Site.total_energy_j w)
  /\ Site.total_work_units (fold_left (update_site b) rs w)
     = fold_left (fun sum r => add_present sum (work_units (Tsv.record r)))
                 rs (Site.total_work_units w)
  /\ Site.window_count (fold_left (update_site b) rs w)
     = (Site.window_count w + Z.of_nat (List.length rs))%Z
  /\ Site.work_units_mode (fold_left (update_site b) rs w)
     = Site.work_units_mode w.
Proof.
  revert w. induction rs as [|r rs IH]; intros w; cbn [fold_left List.length].
  - repeat split. lia.
  - destruct (IH (update_site b w r)) as (H1 & H2 & H3 & H4 & H5 & H6).
    rewrite H1, H2, H3, H4, H5, H6. cbn. repeat split. lia.
Qed.

Lemma has_key_eqb (k : string) (l : list Tsv.t) :
  filter (SiteFold.has_key Tsv.t site_key k) l = records_of k l.
Proof.
  unfold records_of. apply filter_ext. intros r. unfold SiteFold.has_key.
  destruct (string_dec (site_key r) k) as [->|Hne].
  - symmetry. apply String.eqb_refl.
  - symmetry. apply String.eqb_neq. exact Hne.
Qed.

(** The site behind every key of the map, after a stream. *)
Lemma leaderboard_site_of (options : Options.t) (l : list Tsv.t)
    (k : string) (w : Site.t) :
  In (k, w) (sites (feed (new options) l)) ->
  exists r rs,
    records_of k l = r :: rs
    /\ site_key r = k
    /\ w = fold_left (update_site (new options)) (r :: rs)
             (new_site (new options) r).
Proof.
  destruct (leaderboard_feed_fold (new options) l) as (_ & _ & ->).
  change (sites (new options)) with (@nil (string * Site.t)).
  intros Hin. apply site_in_get in Hin; [|apply site_NoDup_keys_fold_step].
  rewrite site_get_fold_step in Hin. unfold SiteFold.bucket_of in Hin.
  rewrite has_key_eqb in Hin.
  destruct (records_of k l) as [|r rs] eqn:E; [discriminate|].
  injection Hin as <-. exists r, rs. split; [reflexivity|]. split; [|reflexivity].
  assert (Hr : In r (records_of k l)) by (rewrite E; left; reflexivity).
  apply filter_In in Hr as [_ Hk]. apply String.eqb_eq, Hk.
Qed.

Lemma entry_key_of_site (options : Options.t) (l : list Tsv.t)
    (k : string) (w : Site.t) (b : t) :
  In (k, w) (sites (feed (new options) l)) ->
  entry_key (entry_of b w) = k.
Proof.
  intros Hin.
  destruct (leaderboard_site_of options l k w Hin) as (r & rs & _ & <- & ->).
  unfold entry_key, entry_of.
  destruct (price_sums _) as [E S]. cbn [Entry.site_id Entry.cluster_id].
  destruct (fold_update_site_projections (new options) (r :: rs)
              (new_site (new options) r)) as (-> & -> & _).
  reflexivity.
Qed.

Lemma getLeaderboard_perm (b : t) :
  Permutation (getLeaderboard b) (map (entry_of b) (SiteMap.values (sites b))).
Proof. unfold getLeaderboard. apply array_sort_perm. Qed.

Lemma entry_keys_perm (options : Options.t) (l : list Tsv.t) :
  Permutation (map entry_key (getLeaderboard (feed (new options) l)))
              (map fst (sites (feed (new options) l))).
Proof.
  set (b := feed (new options) l).
  assert (Hkeys : map entry_key (map (entry_of b) (SiteMap.values (sites b)))
                  = map fst (sites b)).
  { unfold SiteMap.values. rewrite !map_map. apply map_ext_in.
    intros [k w] Hin. cbn [fst snd].
    apply (entry_key_of_site options l k w b Hin). }
  rewrite <- Hkeys. apply Permutation_map, getLeaderboard_perm.
Qed.

Lemma site_keys (options : Options.t) (l : list Tsv.t) :
  NoDup (map fst (sites (feed (new options) l)))
  /\ (forall k, In k (map fst (sites (feed (new options) l)))
                <-> In k (map site_key l)).
Proof.
  destruct (leaderboard_feed_fold (new options) l) as (_ & _ & ->).
  split; [apply site_NoDup_keys_fold_step|].
  intros k. apply site_in_keys_fold_step.
Qed.

(** X25: the leaderboard has exactly one entry for each
    [`${site_id}:${cluster_id}`] key among the records fed to it (a missing
    cluster counts as "default"): the keys of its entries are pairwise
    distinct and are the keys of the records. *)
Theorem leaderboard_one_entry_per_site
    (options : Options.t) (l : list Tsv.t) :
  NoDup (map entry_key (getLeaderboard (feed (new options) l)))
  /\ (forall k, In k (map entry_key (getLeaderboard (feed (new options) l)))
                <-> In k (map site_key l))
  /\ List.length (getLeaderboard (feed (new options) l))
     = List.length (nodup string_dec (map site_key l)).
Proof.
  pose proof (entry_keys_perm options l) as HP.
  destruct (site_keys options l) as [Hnd Hin].
  split; [|split].
  - apply (Permutation_NoDup (Permutation_sym HP) Hnd).
  - intros k. rewrite <- Hin. split; apply Permutation_in;
      [exact HP | exact (Permutation_sym HP)].
  - rewrite <- (length_map entry_key), (Permutation_length HP).
    apply Permutation_length. apply NoDup_Permutation;
      [exact Hnd | apply NoDup_nodup |].
    intros k. rewrite Hin, nodup_In. reflexivity.
Qed.

Lemma entry_sums (options : Options.t) (l : list Tsv.t) (e : Entry.t) :
  In e (getLeaderboard (feed (new options) l)) ->
  records_of (entry_key e) l <> []
  /\ Entry.energy_j e = sum_present energy_j (records_of (entry_key e) l)
  /\ Entry.work_units e = sum_present work_units (records_of (entry_key e) l).
Proof.
  intros He.
  apply (Permutation_in _ (getLeaderboard_perm _)) in He.
  apply in_map_iff in He as (w & <- & Hw).
  unfold SiteMap.values in Hw. apply in_map_iff in Hw as ([k w'] & Hk & Hin).
  cbn [snd] in Hk. subst w'.
  rewrite (entry_key_of_site options l k w _ Hin).
  destruct (leaderboard_site_of options l k w Hin) as (r & rs & -> & _ & Hw).
  unfold entry_of. destruct (price_sums _) as [E S].
  cbn [Entry.energy_j Entry.work_units]. rewrite Hw.
  destruct (fold_update_site_projections (new options) (r :: rs)
              (new_site (new options) r)) as (_ & _ & -> & -> & _).
  repeat split. discriminate.
Qed.

Lemma entry_of_formulas (b : t) (w : Site.t) :
  Entry.enst_units_per_j (entry_of b w)
  = (if gt (Entry.energy_j (entry_of b w)) (Fin 0)
     then div (Entry.work_units (entry_of b w)) (Entry.energy_j (entry_of b w))
     else Fin 0)
  /\ Entry.cost_usd (entry_of b w)
     = Cost.computeCostUsd (Num (Entry.energy_j (entry_of b w)))
                           (Num (Entry.price_usd_per_mwh (entry_of b w))).
Proof.
  unfold entry_of. destruct (price_sums _) as [E S]. split; reflexivity.
Qed.

(** X26: the [energy_j] and [work_units] of a leaderboard entry are the
    sums, in arrival order, of the values present in the records of its
    key; its ENST is work over energy when the energy is positive and 0
    otherwise, and its cost is [computeCostUsd] of its energy at its
    price. *)
Theorem leaderboard_entry_totals
    (options : Options.t) (l : list Tsv.t) (e : Entry.t) :
  In e (getLeaderboard (feed (new options) l)) ->
  records_of (entry_key e) l <> []
  /\ Entry.energy_j e = sum_present energy_j (records_of (entry_key e) l)
  /\ Entry.work_units e = sum_present work_units (records_of (entry_key e) l)
  /\ Entry.enst_units_per_j e
     = (if gt (Entry.energy_j e) (Fin 0)
        then div (Entry.work_units e) (Entry.energy_j e)
        else Fin 0)
  /\ Entry.cost_usd e
     = Cost.computeCostUsd (Num (Entry.energy_j e))
                           (Num (Entry.price_usd_per_mwh e)).
Proof.
  intros He. destruct (entry_sums options l e He) as (H0 & H1 & H2).
  split; [exact H0|]. split; [exact H1|]. split; [exact H2|].
  apply (Permutation_in _ (getLeaderboard_perm _)) in He.
  apply in_map_iff in He as (w & <- & _). apply entry_of_formulas.
Qed.
End LeaderboardFacts.

Lemma sub_positive (a b : num) : gt (sub a b) (Fin 0) = lt b a.
Proof.
  unfold gt. destruct a as [| | |x], b as [| | |y]; try reflexivity.
  cbn [sub fin lt].
  destruct (y ?= x) eqn:E.
  - assert (E' : y == x) by (apply Qeq_alt; exact E).
    assert (H : (0 ?= Qred (x - y)) = Eq).
    { apply -> Qeq_alt. rewrite Qred_correct, E'. ring. }
    rewrite H. reflexivity.
  - assert (E' : y < x) by (apply Qlt_alt; exact E).
    assert (H : (0 ?= Qred (x - y)) = Lt).
    { apply -> Qlt_alt. rewrite Qred_correct. lra. }
    rewrite H. reflexivity.
  - assert (E' : x < y) by (apply Qgt_alt; exact E).
    assert (H : (0 ?= Qred (x - y)) = Gt).
    { apply -> Qgt_alt. rewrite Qred_correct. lra. }
    rewrite H. reflexivity.
Qed.

Section ArraySorted.
Variable A : Type.
Variable compare : A -> A -> num.
Variable D : A -> Prop.
Variable R : A -> A -> Prop.
Hypothesis R_after :
  forall x y, D x -> D y -> gt (compare x y) (Fin 0) = true -> R y x.
Hypothesis R_before :
  forall x y, D x -> D y -> gt (compare x y) (Fin 0) = false -> R x y.
Hypothesis R_trans :
  forall x y z, D x -> D y -> D z -> R x y -> R y z -> R x z.

Lemma array_insert_sorted (x : A) (l : list A) :
  D x -> Forall D l -> StronglySorted R l ->
  StronglySorted R (JSArray.insert compare x l).
Proof.
  intros Dx. induction l as [|y l IH]; intros HD HS; cbn [JSArray.insert].
  - constructor; constructor.
  - inversion HD as [|? ? Dy HDl]; subst.
    inversion HS as [|? ? HSl HRy]; subst.
    destruct (gt (compare x y) (Fin 0)) eqn:E.
    + constructor; [apply IH; assumption|].
      apply Forall_forall. intros z Hz.
      apply (Permutation_in _ (array_insert_perm A compare x l)) in Hz.
      destruct Hz as [<- | Hz]; [apply R_after; assumption|].
      rewrite Forall_forall in HRy. apply HRy, Hz.
    + constructor; [assumption|].
      constructor; [apply R_before; assumption|].
      apply Forall_forall. intros z Hz.
      rewrite Forall_forall in HRy, HDl.
      apply (R_trans x y z); auto.
Qed.

Lemma array_sort_sorted (l : list A) :
  Forall D l -> StronglySorted R (JSArray.sort compare l).
Proof.
  induction l as [|x l IH]; intros HD; cbn [JSArray.sort]; [constructor|].
  inversion HD as [|? ? Hx Hl]; subst.
  apply array_insert_sorted; auto.
  apply Forall_forall. intros z Hz.
  apply (Permutation_in _ (array_sort_perm A compare l)) in Hz.
  rewrite Forall_forall in Hl. auto.
Qed.
End ArraySorted.

Section LeaderboardOrder.
Import Leaderboard.

Lemma add_present_finite (f : tsv -> field) (rs : list Tsv.t) (a : num) :
  isFinite a = true ->
  Forall (fun r => forall x, f (Tsv.record r) = Num x -> isFinite x = true) rs ->
  isFinite (fold_left (fun sum r => add_present sum (f (Tsv.record r))) rs a)
  = true.
Proof.
  revert a. induction rs as [|r rs IH]; intros a Ha H; [exact Ha|].
  inversion H as [|? ? Hr Hrs]; subst. cbn [fold_left]. apply IH; [|exact Hrs].
  unfold add_present. destruct (f (Tsv.record r)) as [| |x] eqn:E; try exact Ha.
  specialize (Hr x eq_refl). destruct a, x; try discriminate. reflexivity.
Qed.

Lemma finite_totals_records_of (k : string) (l : list Tsv.t) :
  finite_totals l -> finite_totals (records_of k l).
Proof.
  unfold finite_totals, records_of. rewrite !Forall_forall.
  intros H r Hr. apply filter_In in Hr as [Hr _]. apply H, Hr.
Qed.

Lemma sum_present_finite (f : tsv -> field) (l : list Tsv.t) :
  Forall (fun r => forall x, f (Tsv.record r) = Num x -> isFinite x = true) l ->
  isFinite (sum_present f l) = true.
Proof. apply add_present_finite. reflexivity. Qed.

Lemma enst_of_finite (w e : num) :
  isFinite w = true -> isFinite e = true ->
  isFinite (if gt e (Fin 0) then div w e else Fin 0) = true.
Proof.
  destruct w as [| | |x], e as [| | |y]; try discriminate. intros _ _.
  destruct (gt (Fin y) (Fin 0)) eqn:G; [|reflexivity].
  apply gt_Fin in G. rewrite div_Fin_pos by exact G. reflexivity.
Qed.

Lemma leaderboard_entry_finite
    (options : Options.t) (l : list Tsv.t) (e : Entry.t) :
  finite_totals l ->
  In e (getLeaderboard (feed (new options) l)) ->
  isFinite (Entry.energy_j e) = true
  /\ isFinite (Entry.work_units e) = true
  /\ isFinite (Entry.enst_units_per_j e) = true.
Proof.
  intros Hl He.
  destruct (entry_sums options l e He) as (_ & HE & HW).
  assert (HN : Entry.enst_units_per_j e
               = (if gt (Entry.energy_j e) (Fin 0)
                  then div (Entry.work_units e) (Entry.energy_j e)
                  else Fin 0)).
  { apply (Permutation_in _ (getLeaderboard_perm _)) in He.
    apply in_map_iff in He as (w & <- & _). apply entry_of_formulas. }
  pose proof (finite_totals_records_of (entry_key e) l Hl) as Hk.
  assert (H1 : isFinite (Entry.energy_j e) = true).
  { rewrite HE. apply sum_present_finite.
    eapply Forall_impl; [|exact Hk]. intros r [H _]. exact H. }
  assert (H2 : isFinite (Entry.work_units e) = true).
  { rewrite HW. apply sum_present_finite.
    eapply Forall_impl; [|exact Hk]. intros r [_ H]. exact H. }
  split; [exact H1|]. split; [exact H2|].
  rewrite HN. apply enst_of_finite; assumption.
Qed.
End LeaderboardOrder.

Section LeaderboardSorted.
Import Leaderboard.

End LeaderboardSorted.

(** ** Repeated reads and summary statistics *)

Section ArraySortedFixed.
Variable A : Type.
Variable compare : A -> A -> num.

(** Sorting leaves an array alone when no element compares positive against
    a later one. *)
Lemma array_sort_fixed (l : list A) :
  StronglySorted (fun x y => gt (compare x y) (Fin 0) = false) l ->
  JSArray.sort compare l = l.
Proof.
  induction l as [|x l IH]; intros H; [reflexivity|].
  inversion H as [|? ? Hl Hx]; subst. cbn [JSArray.sort]. rewrite (IH Hl).
  destruct l as [|y l']; [reflexivity|].
  cbn [JSArray.insert]. inversion Hx as [|? ? Hxy _]; subst.
  rewrite Hxy. reflexivity.
Qed.
End ArraySortedFixed.

Section LeaderboardRepeat.
Import Leaderboard.

Lemma sort_windows_idempotent (ws : list Window.t) :
  Forall (fun w => isNaN (ToNumber (Window.ts_start w)) = false) ws ->
  sort_windows (sort_windows ws) = sort_windows ws.
Proof.
  intros H. unfold sort_windows at 1. apply array_sort_fixed.
  unfold sort_windows.
  apply (array_sort_sorted Window.t _
           (fun w => isNaN (ToNumber (Window.ts_start w)) = false)).
  - intros x y _ _ Hxy. rewrite sub_positive in Hxy |- *.
    destruct (lt (ToNumber (Window.ts_start x)) (ToNumber (Window.ts_start y)))
      eqn:E; [|reflexivity].
    exfalso. exact (lt_asym _ _ E Hxy).
  - intros x y _ _ Hxy. exact Hxy.
  - intros x y z Hx Hy Hz. rewrite !sub_positive. intros H1 H2.
    destruct (lt (ToNumber (Window.ts_start z)) (ToNumber (Window.ts_start x)))
      eqn:E; [|reflexivity].
    exfalso.
    assert (L1 : le (ToNumber (Window.ts_start x)) (ToNumber (Window.ts_start y))
                 = true) by (apply lt_false_le; assumption).
    assert (L2 : le (ToNumber (Window.ts_start y)) (ToNumber (Window.ts_start z))
                 = true) by (apply lt_false_le; assumption).
    pose proof (le_trans _ _ _ L1 L2) as L3.
    destruct (ToNumber (Window.ts_start x)) as [| | |a],
             (ToNumber (Window.ts_start z)) as [| | |c];
      try discriminate.
    apply le_Fin in L3. apply lt_Fin in E. lra.
  - exact H.
Qed.

(** X28: [getLeaderboard] sorts the windows of every site in place;
    when every window's [ts_start] converts to a number other than NaN, a
    second call returns the same entries as the first and leaves the sites
    as the first call left them. *)
Theorem getLeaderboard_repeatable (b : t) :
  timed_windows b ->
  getLeaderboard (after_getLeaderboard b) = getLeaderboard b
  /\ after_getLeaderboard (after_getLeaderboard b) = after_getLeaderboard b.
Proof.
  unfold timed_windows, SiteMap.values. intros H. rewrite Forall_forall in H.
  assert (Hw : forall k site, In (k, site) (sites b) ->
                 sort_windows (sort_windows (Site.windows site))
                 = sort_windows (Site.windows site)).
  { intros k site Hin. apply sort_windows_idempotent. apply H.
    apply in_map_iff. exists (k, site). auto. }
  split.
  - unfold getLeaderboard. f_equal. unfold SiteMap.values, after_getLeaderboard.
    cbn [sites]. rewrite !map_map. apply map_ext_in. intros [k site] Hin.
    cbn [snd]. unfold entry_of.
    cbn [Site.total_energy_j Site.total_work_units Site.pue_samples
         Site.thermal_headroom_samples Site.grid_stress_samples
         Site.price_samples Site.data_sources Site.price_defaulted_count
         Site.windows Site.site_id Site.cluster_id Site.work_units_mode
         defaultPriceUsdPerMwh].
    rewrite (Hw k site Hin). reflexivity.
  - unfold after_getLeaderboard. cbn [sites workUnitsMode defaultPriceUsdPerMwh].
    f_equal. rewrite map_map. apply map_ext_in. intros [k site] Hin.
    cbn [Site.total_energy_j Site.total_work_units Site.pue_samples
         Site.thermal_headroom_samples Site.grid_stress_samples
         Site.price_samples Site.data_sources Site.price_defaulted_count
         Site.windows Site.site_id Site.cluster_id Site.work_units_mode
         Site.window_count].
    rewrite (Hw k site Hin). reflexivity.
Qed.
End LeaderboardRepeat.

Section Quantiles.
Import Leaderboard.

Lemma at_index_inject (l : list num) (i : Z) (d : num) :
  (0 <= i < Z.of_nat (List.length l))%Z ->
  JSArray.at_index l (Fin (inject_Z i)) = Num (nth (Z.to_nat i) l d).
Proof.
  intros Hi. unfold JSArray.at_index, inject_Z. cbn [Qden Qnum].
  assert ((0 <=? i)%Z = true) as -> by (apply Z.leb_le; lia).
  cbn [Pos.eqb andb].
  destruct (nth_error l (Z.to_nat i)) as [v|] eqn:E.
  - rewrite (nth_error_nth _ _ d E). reflexivity.
  - apply nth_error_None in E. lia.
Qed.

Lemma sorted_nth (R : num -> num -> Prop) (l : list num) (d : num) :
  StronglySorted R l -> (forall x, In x l -> R x x) ->
  forall i j, (i <= j < List.length l)%nat -> R (nth i l d) (nth j l d).
Proof.
  intros HS. induction HS as [|x l HS IH HF]; intros Hrefl i j Hij.
  - cbn in Hij. lia.
  - destruct i as [|i], j as [|j]; cbn [nth List.length] in *; try lia.
    + apply Hrefl. left. reflexivity.
    + rewrite Forall_forall in HF. apply HF, nth_In. lia.
    + apply IH; [|lia]. intros y Hy. apply Hrefl. right. exact Hy.
Qed.

Lemma le_refl_finite (x : num) : isNaN x = false -> le x x = true.
Proof.
  destruct x as [| | |q]; try discriminate; try reflexivity.
  intros _. apply le_Fin. lra.
Qed.

Lemma floor_half (n : Z) :
  (1 <= n)%Z ->
  exists i, floor (div (Fin (inject_Z n)) (Fin 2)) = Fin (inject_Z i)
            /\ i = Qfloor (inject_Z n / 2).
Proof.
  intros Hn. rewrite div_Fin_pos by reflexivity. cbn [fin floor].
  eexists. split; [reflexivity|]. apply Qfloor_comp, Qred_correct.
Qed.

Lemma floor_nine_tenths (n : Z) :
  exists i, floor (mul (Fin (inject_Z n)) (Fin (9 # 10))) = Fin (inject_Z i)
            /\ i = Qfloor (inject_Z n * (9 # 10)).
Proof.
  cbn [mul fin floor]. eexists. split; [reflexivity|].
  apply Qfloor_comp, Qred_correct.
Qed.

Lemma last_index (n : Z) :
  sub (Fin (inject_Z n)) (Fin 1) = Fin (inject_Z (n - 1)).
Proof.
  cbn [sub fin]. apply (f_equal Fin).
  rewrite <- (Qred_inject_Z (n - 1)). apply Qred_complete.
  unfold Z.sub. rewrite inject_Z_plus. reflexivity.
Qed.

Lemma quantile_indices (n : Z) :
  (1 <= n)%Z ->
  (0 <= Qfloor (inject_Z n / 2))%Z
  /\ (Qfloor (inject_Z n / 2) <= Qfloor (inject_Z n * (9 # 10)))%Z
  /\ (Qfloor (inject_Z n * (9 # 10)) <= n - 1)%Z.
Proof.
  intros Hn.
  assert (Hq : 1 <= inject_Z n).
  { change 1 with (inject_Z 1). rewrite <- Zle_Qle. exact Hn. }
  split; [|split].
  - change 0%Z with (Qfloor 0). apply Qfloor_resp_le.
    apply Qle_shift_div_l; lra.
  - apply Qfloor_resp_le.
    assert (inject_Z n / 2 == inject_Z n * (1 # 2)) as -> by field. lra.
  - assert (H : (Qfloor (inject_Z n * (9 # 10)) < n)%Z).
    { rewrite Zlt_Qlt.
      apply Qle_lt_trans with (inject_Z n * (9 # 10));
        [apply Qfloor_le | lra]. }
    lia.
Qed.

(** X30: for a non-empty stream with finite energies and work units,
    [min_enst], [median_enst], [p90_enst] and [max_enst] are numbers with
    0 <= min <= median <= p90 <= max. *)
Theorem computeSummaryStats_quantiles_ordered
    (options : Options.t) (l : list Tsv.t) :
  finite_totals l -> l <> [] ->
  exists a m p z,
    Stats.min_enst (computeSummaryStats (feed (new options) l)) = Num a
    /\ Stats.median_enst (computeSummaryStats (feed (new options) l)) = Num m
    /\ Stats.p90_enst (computeSummaryStats (feed (new options) l)) = Num p
    /\ Stats.max_enst (computeSummaryStats (feed (new options) l)) = Num z
    /\ le (Fin 0) a = true /\ le a m = true /\ le m p = true
    /\ le p z = true.
Proof.
  intros Hl Hne.
  assert (Hfin : forall e, In e (getLeaderboard (feed (new options) l)) ->
                   isFinite (Entry.enst_units_per_j e) = true).
  { intros e He. apply (leaderboard_entry_finite options l e Hl He). }
  assert (Hlen : getLeaderboard (feed (new options) l) <> []).
  { intros E.
    pose proof (entry_keys_perm options l) as HP.
    destruct (site_keys options l) as [_ Hin].
    rewrite E in HP. cbn [map] in HP.
    apply Permutation_nil in HP.
    destruct l as [|r l']; [congruence|].
    assert (Hr : In (site_key r) (map site_key (r :: l')))
      by (left; reflexivity).
    apply Hin in Hr. rewrite HP in Hr. destruct Hr. }
  unfold computeSummaryStats.
  destruct (getLeaderboard (feed (new options) l)) as [|e0 entries] eqn:E;
    [congruence|].
  cbn [List.length Nat.eqb Stats.min_enst Stats.median_enst Stats.p90_enst
       Stats.max_enst].
  set (raw := filter (fun v => gt v (Fin 0))
                (map Entry.enst_units_per_j (e0 :: entries))).
  set (vals := JSArray.sort (fun a b => sub a b) raw).
  assert (HP : Permutation vals raw) by apply array_sort_perm.
  assert (Hraw : forall v, In v raw -> isNaN v = false /\ le (Fin 0) v = true).
  { intros v Hv. apply filter_In in Hv as [Hv Hpos].
    apply in_map_iff in Hv as (e & <- & He). specialize (Hfin e He).
    destruct (Entry.enst_units_per_j e) as [| | |q]; try discriminate.
    split; [reflexivity|]. apply gt_Fin in Hpos. apply le_Fin. lra. }
  assert (Hvals : forall v, In v vals -> isNaN v = false /\ le (Fin 0) v = true).
  { intros v Hv. apply Hraw. apply (Permutation_in _ HP), Hv. }
  assert (HS : StronglySorted (fun x y => le x y = true) vals).
  { apply (array_sort_sorted num _ (fun v => isNaN v = false)).
    - intros x y _ _ H. rewrite sub_positive in H. apply lt_le, H.
    - intros x y Hx Hy H. rewrite sub_positive in H.
      apply lt_false_le; assumption.
    - intros x y z _ _ _. apply le_trans.
    - apply Forall_forall. intros v Hv. apply Hraw, Hv. }
  unfold at_or_zero.
  destruct (0 <? List.length vals)%nat eqn:EL.
  2: { exists (Fin 0), (Fin 0), (Fin 0), (Fin 0). repeat split. }
  - apply Nat.ltb_lt in EL.
    assert (Hn : (1 <= Z.of_nat (List.length vals))%Z) by lia.
    unfold length_num.
    destruct (floor_half _ Hn) as (im & -> & Him).
    destruct (floor_nine_tenths (Z.of_nat (List.length vals)))
      as (ip & -> & Hip).
    rewrite last_index.
    destruct (quantile_indices _ Hn) as (H1 & H2 & H3).
    rewrite <- Him in H1, H2. rewrite <- Hip in H2, H3.
    change (Fin 0) with (Fin (inject_Z 0)) at 1.
    rewrite !(at_index_inject vals _ NaN) by lia.
    do 4 eexists. do 4 (split; [reflexivity|]).
    assert (Hrefl : forall x, In x vals -> le x x = true).
    { intros x Hx. apply le_refl_finite, Hvals, Hx. }
    split; [|split; [|split]].
    + apply Hvals, nth_In. lia.
    + apply (sorted_nth _ vals NaN HS Hrefl). lia.
    + apply (sorted_nth _ vals NaN HS Hrefl). lia.
    + apply (sorted_nth _ vals NaN HS Hrefl). lia.
Qed.
End Quantiles.

(** ** Instances on the leaderboard *)

Lemma finite_totals_board_windows : finite_totals board_windows.
Proof.
  repeat (apply Forall_cons;
          [split; intros x [= <-]; reflexivity|]).
  apply Forall_nil.
Qed.

(** X26, witness: two windows of site-a around one of site-b. *)
Lemma leaderboard_entry_totals_witness :
  Forall (fun e =>
            Leaderboard.Entry.energy_j e
            = sum_present energy_j (records_of (entry_key e) board_windows)
            /\ Leaderboard.Entry.work_units e
               = sum_present work_units
                   (records_of (entry_key e) board_windows))
         (Leaderboard.getLeaderboard
            (Leaderboard.feed (Leaderboard.new board_options) board_windows)).
Proof.
  apply Forall_forall. intros e He.
  destruct (leaderboard_entry_totals board_options board_windows e He)
    as (_ & H1 & H2 & _).
  split; [exact H1 | exact H2].
Defined.


(** X28, witness: the two windows of site-a arrive out of order. *)
Lemma getLeaderboard_repeatable_witness :
  Leaderboard.getLeaderboard
    (Leaderboard.after_getLeaderboard
       (Leaderboard.feed (Leaderboard.new board_options) board_windows))
  = Leaderboard.getLeaderboard
      (Leaderboard.feed (Leaderboard.new board_options) board_windows).
Proof.
  apply (getLeaderboard_repeatable
           (Leaderboard.feed (Leaderboard.new board_options) board_windows)).
  unfold timed_windows. vm_compute.
  repeat (apply Forall_cons || apply Forall_nil); reflexivity.
Defined.

(** X30, witness: the three windows of the leaderboard tests. *)
Lemma computeSummaryStats_quantiles_ordered_witness :
  exists a m p z,
    Leaderboard.Stats.min_enst
      (Leaderboard.computeSummaryStats
         (Leaderboard.feed (Leaderboard.new board_options) board_windows))
    = Num a
    /\ Leaderboard.Stats.median_enst
         (Leaderboard.computeSummaryStats
            (Leaderboard.feed (Leaderboard.new board_options) board_windows))
       = Num m
    /\ Leaderboard.Stats.p90_enst
         (Leaderboard.computeSummaryStats
            (Leaderboard.feed (Leaderboard.new board_options) board_windows))
       = Num p
    /\ Leaderboard.Stats.max_enst
         (Leaderboard.computeSummaryStats
            (Leaderboard.feed (Leaderboard.new board_options) board_windows))
       = Num z
    /\ le (Fin 0) a = true /\ le a m = true /\ le m p = true
    /\ le p z = true.
Proof.
  apply (computeSummaryStats_quantiles_ordered board_options board_windows).
  - exact finite_totals_board_windows.
  - discriminate.
Defined.
